(* ===== verification/_CoqProject ===== *)
-Q . S2P
Prelude.v
Js.v
Json.v
Api.v
Media.v
ChatScreen.v
ChatSend.v
AuthScreen.v
App.v
Legacy.v
MessageIds.v
Wire.v
Document.v
SessionIdentity.v
View.v
ChatContract.v
Liveness.v
Conformance.v
LegacyCopies.v
