(* ===== verification/Prelude.v ===== *)
(** * A verification development of the convolveFrontEnd chat client

    The repository is a React single-page client for a chat assistant:
    a root component ([src/src/App.tsx]) holds the session and renders
    either the authentication screen ([AuthScreen.tsx]) or the chat
    screen ([ChatScreen.tsx], which renders [ChatMessage.tsx] and
    [MediaPreview.tsx]); both screens talk to a backend through the API
    object of [src/src/lib/api.ts]; the AuthScreen and the root share
    the browser's [localStorage], where a non-guest [user_id] persists
    across page loads.  [src/public/frontend_source.tsx] is an older
    single-file copy of the client.  The files, leaves first:

    - [Prelude.v] (this file): the event-machine framework shared by
      every component (Section [Machine]: [run] over event lists, the
      [reachable] states and rule induction over them, [run_preorder]
      for relations that every step preserves), the generic simulation
      lemma [run_simulation] relating two machines, the hint database
      [ui], the rewrite database [ui_rw] and the tactics [case_ifs] and
      [invc].
    - [Js.v]: the JavaScript runtime the code relies on, modelled from
      the language rather than from the repository: dynamic values as
      JSON.parse produces them ([jsval]), truthiness and [||], property
      access that throws on [null]/[undefined] ([get_field]),
      [String(v)], [trim], [split] on a one-character separator with
      [[0]] and [pop()], numbers as exact decimals with
      [Number.prototype.toString] (shortest digits, fixed or exponent
      form), [Date.prototype.toISOString] (civil calendar from a day
      count), the object-URL registry and [File] objects.
    - [Json.v]: [JSON.stringify] (SerializeJSONProperty) and
      [JSON.parse] (a recursive-descent parser with fuel, numbers by
      the full JSON grammar: sign, integer part without leading zeros,
      fraction, exponent) of the language, and the round trip between
      them ([json_roundtrip]), number texts included
      ([parse_number_text]).
    - [Api.v]: [api.ts].  The response interfaces as records; the
      requests [fetch] is given (method, URL under the base URL
      [API_BASE], headers, and a body that is the [JSON.stringify] text
      of the method's object literal or the entries of its [FormData]);
      a small promise monad ([promise]: resolve, reject, or await a
      [fetch] and continue with the [Response]) in which each method is
      [res <- fetch (...) ;; res_json res]; [res_json] is
      [res.json()], which rejects on a body that is not JSON.  The
      screens keep the promise of the call they await.
    - [Wire.v]: what the server receives: the JSON bodies of the
      requests parse back to the object literals of [api.ts].
    - [Document.v]: the chat screen with the elements its refs hold
      ([doc_step]): the hidden file input, whose selection the page
      never clears, and the scroll area the effect on [messages]
      scrolls after each commit; the content height is a parameter.
    - [Media.v]: [getMediaType], the conditional children of
      [ChatMessage] and [MediaPreview] as lists of elements, and the
      preview's object URL: created by a render, revoked by the load
      handlers of the media elements.
    - [ChatScreen.v]: the chat screen.  Its [useState] hooks are the
      record [chat_state]; the async [handleSend] is split at its two
      [await]s into [handleSend] (the click or Enter key),
      [on_upload_settled] and [on_chat_settled], and the state records
      which continuation is pending ([pending_op]).  [chat_step] maps a
      UI or settlement event to the new state and the outputs
      (requests, the [onLogout] call), with the [disabled] guards of
      the rendered controls; every interleaving of user input and
      responses the page allows is a run of it.
    - [ChatSend.v]: [handleSend] read as straight-line code with the
      network answering each [await] ([handleSend_seq]), and a driver
      ([drive]) feeding the event machine the settlements of the
      requests it issued.
    - [AuthScreen.v]: the auth screen in the same style:
      [handleRegister], [handleLogin], [handleGuest] split at their
      [await], the settlement continuations, the mount effect reading
      [localStorage], the disabled conditions ([auth_step]).  Storage
      writes and [onAuth] calls are outputs.
    - [App.v]: the page ([world]): [localStorage] as a [gmap], the
      session, the mounted screen, a mount counter [gen] naming the
      mounted screen instance, and the document's object URLs.
      [app_step] routes UI events to the mounted screen, applies its
      outputs ([handleAuth], [handleLogout], storage writes), drops
      settlements addressed to an unmounted instance (React ignores
      their state updates), and models a page reload.
    - [Legacy.v]: the legacy copy: its API default and methods (a
      registration without a name), its AuthScreen without persistence,
      its root ([Index]) without storage, and its ChatScreen, which is
      the current one line for line.
    - [MessageIds.v]: the [id]s messages get from the clock, and when
      they are distinct.
    - [SessionIdentity.v]: what the chat and upload requests carry for
      a session whose id is [undefined].
    - [View.v]: what [ChatMessage], [ChatScreen] and [AuthScreen]
      render from their state: texts, conditional children and the
      [disabled] attributes.
    - [ChatContract.v]: the two input paths of a send (Enter and the
      Send button) and the well-formedness of the messages the chat
      screen holds.
    - [Liveness.v]: the page with its two screens comes back to rest:
      a variant counting the responses the mounted screen awaits, and
      the screens' invariants on the mounted instance.
    - [Conformance.v]: the response interfaces of [api.ts] as an
      assumption on the server, and the types of the page's state it
      guarantees.
    - [LegacyCopies.v]: the MediaPreview, ChatMessage and ChatScreen
      sections of the legacy file, which have the text of the current
      components and are modelled by the same definitions.

    The theorems, by group (claim ids C1 to C36):
    - chat screen invariants over all reachable states: [loading] iff a
      continuation is pending, the conversation is the greeting then
      user/assistant pairs, one request in flight, messages append-only
      (C1-C3, C13);
    - behaviour of each branch of the send: text and file (the click
      issues the upload alone, its resolution the chat), server reply,
      server error, rejection (a rejected upload ends the send: the text
      is never sent), a [null] response, white-space text with a file,
      events while loading (C4-C6, C8, C9, C12, C14);
    - the document: the same file cannot be attached again once it
      was sent or removed until another file is chosen (C7), and the
      conversation is scrolled to its newest message after every step
      that changes it, the user's position kept otherwise (C28), the
      ref'd element taken to be the one that scrolls (see [Document.v]);
    - refinement of the sequential send by the event machine and
      termination of a send (C10, C11);
    - auth screen: one request at a time, success, guest, server
      error, rejection (C15, C17-C20);
    - types: if the server's responses have the interfaces [api.ts]
      declares, the session id is a string and every message has a
      string content and timestamp, in every reachable page state
      (C16, Conformance.v);
    - the page: session/view/storage invariant, logout, reload
      restoring a session (C21-C23), and liveness: whatever the server
      answers, at most two responses bring the page back to rest
      (C24); a concrete run shows the ['undefined'] user id a response
      without [user_id] persists;
    - media: preview and message agree on the kind, the extension
      badge, the preview's URL released only for media (C25, C26,
      C32);
    - legacy: the legacy client is the erasure of the current one on
      every reload-free run (C27), and inherits the auth invariant
      through it; a concrete run shows they part at a reload;
    - the rendered views: the chat screen's busy indicator, Send button
      and time labels agree with its machine (C29), and the sign-in
      form never shows an error while a request is outstanding (C36);
    - message keys: ids are unique when the clock advances by two
      milliseconds between reading events (C30), and a concrete run
      shows them collide otherwise;
    - input paths: Enter is the Send button, in every state (C31);
    - the wire: the JSON bodies parse back to the object literals of
      [api.ts] (C33); a session without an id sends chat requests with
      no [user_id] and uploads as user ['undefined'] (C34), and a
      concrete run shows a guest response without [user_id] leads
      there;
    - messages: every message of a reachable chat state has a truthy
      content and timestamp, user content is a string, and only user
      messages carry media (C35).

    Fuel.  [drive] has fuel: one unit per settlement delivered.  A send
    issues at most an upload and then a chat request, so fuel 2
    completes it (C11 proves that any fuel of at least 2 leaves the
    screen idle, and [drive_more_fuel] that more changes nothing).
    [parse_value] has fuel: one unit per value, array element or object
    member; [JSON_parse] gives it one more than the length of its
    input, which [jsize_le_length] shows is enough for every text
    [stringify] produces.  [strip_zeros] (Js.v) has fuel one more than
    the binary logarithm of the mantissa, enough to strip every
    trailing decimal zero ([strip_zeros_enough]).  [settle_all]
    (Liveness.v) delivers answers from a list and stops at rest; two
    answers suffice (C24).

    Modelling choices.
    - Strings are Stdlib [string]s, i.e. JavaScript strings whose code
      units are below 256; [trim] removes the JavaScript white space of
      that range (tab, LF, VT, FF, CR, space, NBSP).
    - Numbers are exact decimals [m * 10^e] ([Js.number]): they agree
      with the IEEE doubles of JavaScript on every number of at most 15
      significant digits within the double range, which covers the
      ids, scores and counters a response carries; [-0] is [0].
      [Date.now()] is the
      [now] carried by the event that starts a synchronous segment
      (every clock read in one segment sees it).
    - A network round trip is an event carrying the settled promise:
      [Some v] for a resolved [res.json()] value, [None] for a
      rejection (fetch failed or the body was not JSON).

    Not modelled.  The UI primitives and styling (Button, Input, Card,
    Tabs, ScrollArea, icons: library components, and the class names of
    the rendered elements; the scroll area is taken to be the element
    [scrollRef] points to), the layout of the page (the height of the
    content is a parameter of [Document.v]), the tab switch of the auth
    screen (presentation only), the [toLocaleTimeString] label of a message (locale data),
    the re-renders of [MediaPreview] (each creates a fresh URL; one
    render and its loads are modelled in [Media.v], and the chat
    machine's URL registry holds only the URLs [handleSend] creates),
    the multipart encoding of [FormData] (uploads are kept as their
    list of entries), [\u] escapes above 255 in JSON text (outside the
    string model; the parser rejects them), and the server. *)

From stdpp Require Export base list strings gmap.
From Stdlib Require Export ZArith.

Declare Scope ui_scope.
Delimit Scope ui_scope with ui.

Create HintDb ui.
Create Rewrite HintDb ui_rw.

(** Destruct every boolean test of the goal, remembering its value. *)
Ltac case_ifs :=
  repeat match goal with
  | |- context [if ?b then _ else _] =>
      lazymatch b with
      | context [if _ then _ else _] => fail
      | _ => destruct b eqn:?
      end
  end.

Ltac invc H := inversion H; subst; clear H.

(** ** Event machines

    A component is a deterministic machine: a step maps a state and an
    event to the next state and the outputs (requests, callbacks) the
    event's handler performed. *)
Section Machine.
Context {S E O : Type}.
Variable step : S -> E -> S * list O.

Fixpoint run (s : S) (es : list E) : S * list O :=
  match es with
  | [] => (s, [])
  | e :: es' =>
      let '(s1, o1) := step s e in
      let '(s2, o2) := run s1 es' in
      (s2, o1 ++ o2)
  end.

(** The states a machine reaches from [init] by any sequence of
    events. *)
Inductive reachable (init : S) : S -> Prop :=
| reach_init : reachable init init
| reach_step s e : reachable init s -> reachable init (step s e).1.

Lemma run_app s es1 es2 :
  run s (es1 ++ es2) =
    ((run (run s es1).1 es2).1, (run s es1).2 ++ (run (run s es1).1 es2).2).
Proof.
  revert s. induction es1 as [|e es IH]; intros s; simpl.
  - by destruct (run s es2).
  - destruct (step s e) as [s1 o1]. rewrite IH.
    destruct (run s1 es) as [s2 o2]; simpl. by rewrite app_assoc.
Qed.

Lemma reachable_run init es : reachable init (run init es).1.
Proof.
  rewrite <- (rev_involutive es). induction (rev es) as [|e es' IH]; simpl.
  - constructor.
  - rewrite run_app. simpl. destruct (step _ e) as [s' o] eqn:Hs; simpl.
    replace s' with (step (run init (rev es')).1 e).1 by by rewrite Hs.
    by constructor.
Qed.

Lemma reachable_run_inv init s : reachable init s -> exists es, s = (run init es).1.
Proof.
  induction 1 as [|s e _ [es ->]].
  - by exists [].
  - exists (es ++ [e]). rewrite run_app. simpl.
    by destruct (step _ e).
Qed.

(** Rule induction for an invariant of the reachable states. *)
Lemma reachable_ind_inv (P : S -> Prop) init :
  P init -> (forall s e, P s -> P (step s e).1) ->
  forall s, reachable init s -> P s.
Proof. intros H0 Hs s Hr. induction Hr; auto. Qed.

(** The states reached by the events an environment [ok] allows in
    the state it sees (an assumption about the world: what a server
    sends, which events occur). *)
Inductive reachable_if (ok : S -> E -> Prop) (init : S) : S -> Prop :=
| reach_if_init : reachable_if ok init init
| reach_if_step s e : reachable_if ok init s -> ok s e -> reachable_if ok init (step s e).1.

Lemma reachable_if_ind_inv (P : S -> Prop) ok init :
  P init -> (forall s e, ok s e -> P s -> P (step s e).1) ->
  forall s, reachable_if ok init s -> P s.
Proof. intros H0 Hs s Hr. induction Hr; auto. Qed.

Lemma reachable_if_reachable ok init s : reachable_if ok init s -> reachable init s.
Proof. induction 1; by constructor. Qed.

(** A relation between the state before and after a step which is
    reflexive and transitive holds between [init] and every state a
    run reaches. *)
Lemma run_preorder (R : S -> S -> Prop) `{!PreOrder R} s es :
  (forall s e, R s (step s e).1) -> R s (run s es).1.
Proof.
  intros Hs. revert s. induction es as [|e es IH]; intros s; simpl.
  - reflexivity.
  - specialize (Hs s e). destruct (step s e) as [s1 o1]; simpl in *.
    specialize (IH s1). destruct (run s1 es) as [s2 o2]; simpl in *.
    by etrans.
Qed.
End Machine.

(** ** Simulation of one machine by another

    A machine [step2] whose steps are those of [step1] seen through a
    projection [f] of states, a translation [g] of events and a map [h]
    of output lists that distributes over concatenation runs, on every
    sequence of events allowed by [P], as the projection of [step1]'s
    run. *)
Section Simulation.
Context {S1 E1 O1 S2 E2 O2 : Type}.
Variables (step1 : S1 -> E1 -> S1 * list O1) (step2 : S2 -> E2 -> S2 * list O2).
Variables (f : S1 -> S2) (g : E2 -> E1) (h : list O1 -> list O2) (P : E2 -> Prop).
Hypothesis h_nil : h [] = [].
Hypothesis h_app : forall a b, h (a ++ b) = h a ++ h b.
Hypothesis sim : forall s e, P e -> step2 (f s) e = (f (step1 s (g e)).1, h (step1 s (g e)).2).

Lemma run_simulation s es :
  Forall P es ->
  run step2 (f s) es = (f (run step1 s (map g es)).1, h (run step1 s (map g es)).2).
Proof.
  intros Hes. revert s. induction Hes as [|e es He _ IH]; intros s; simpl; [by rewrite h_nil|].
  rewrite (sim s e He). destruct (step1 s (g e)) as [s1 o1]; simpl.
  rewrite IH. destruct (run step1 s1 (map g es)) as [s2 o2]; simpl. by rewrite h_app.
Qed.
End Simulation.

(** [s ={ step , es }=> s']: the run of [step] from [s] on the events
    [es] ends in [s']. *)
Notation "s ={ step , es }=> s'" := (s' = (run step s es).1)
  (at level 70, step at level 0, es at level 0) : ui_scope.

#[export] Hint Constructors reachable : ui.
#[export] Hint Resolve reachable_run : ui.

(** ** Lists *)

Lemma prefix_snoc {A} (l : list A) x : l `prefix_of` l ++ [x].
Proof. by exists [x]. Qed.

#[export] Hint Resolve prefix_snoc prefix_app_r : ui.

(** ** Integers: checking a property on a range by computation *)

(** [f] holds of [z], [z + 1], ..., [z + n - 1]. *)
Fixpoint all_from (f : Z -> bool) (z : Z) (n : nat) : bool :=
  match n with
  | O => true
  | S k => f z && all_from f (z + 1)%Z k
  end.

Lemma all_from_spec f z n x :
  all_from f z n = true -> (z <= x < z + Z.of_nat n)%Z -> f x = true.
Proof.
  revert z. induction n as [|n IH]; intros z H Hx; simpl in *; [lia|].
  apply andb_prop in H as [Hz Hn].
  destruct (Z.eq_dec x z) as [->|Hne]; [done|]. apply (IH (z + 1)%Z); [done|lia].
Qed.
