(* ===== verification/Js.v ===== *)
(** * The JavaScript and browser runtime used by the client

    Values as [JSON.parse] (hence [res.json()]) produces them, the
    operators the code applies to them ([||], property access, [String]),
    the string methods it calls ([trim], [split], [pop]), number
    formatting ([toString], [toISOString]), [File] objects and the
    document's object-URL registry.  These are language semantics, not
    repository code: the definitions follow the ECMAScript and File API
    specifications for the inputs the code gives them. *)

From S2P Require Import Prelude.
From Stdlib Require Import Ascii DecimalString DecimalPos DecimalZ.

Local Open Scope string_scope.
#[local] Set Warnings "-register-all".

(** ** Numbers *)

(** A Number, as the exact decimal [num_mant × 10 ^ num_exp].
    [JSON.parse] rounds the decimal its text denotes to the nearest
    double; the model keeps the decimal, which has the double's value
    and text for decimals of at most 15 significant digits within the
    range of doubles.  [-0] is [0] (they have the same text and are
    both falsy). *)
Record number := mkNumber { num_mant : Z; num_exp : Z }.

(** The decimal text of an integer: [Number.prototype.toString] for the
    integers below [10^21] the code formats ([Date.now()] and the
    digits of a number). *)
Definition z_to_string (n : Z) : string := NilZero.string_of_int (Z.to_int n).

(** Remove trailing zeros of the mantissa, one per unit of fuel. *)
Fixpoint strip_zeros (fuel : nat) (m e : Z) : Z * Z :=
  match fuel with
  | O => (m, e)
  | S f => if Z.eqb (m mod 10) 0 then strip_zeros f (m / 10) (e + 1) else (m, e)
  end.

(** More units than [m] has trailing decimal zeros. *)
Definition strip_fuel (m : Z) : nat := S (Z.to_nat (Z.log2 (Z.abs m))).

(** The canonical form of a value: no trailing zero in the mantissa,
    and zero as [0 × 10^0]. *)
Definition num_norm (x : number) : number :=
  if Z.eqb (num_mant x) 0 then mkNumber 0 0
  else let '(m, e) := strip_zeros (strip_fuel (num_mant x)) (num_mant x) (num_exp x) in
       mkNumber m e.

Definition num_canonical (x : number) : bool :=
  if Z.eqb (num_mant x) 0 then Z.eqb (num_exp x) 0
  else negb (Z.eqb (num_mant x mod 10) 0).

Fixpoint zeros (k : nat) : string :=
  match k with O => "" | S k' => String "0" (zeros k') end.

Fixpoint str_take (n : nat) (s : string) : string :=
  match n, s with
  | S n', String c s' => String c (str_take n' s')
  | _, _ => ""
  end.

Fixpoint str_drop (n : nat) (s : string) : string :=
  match n, s with
  | S n', String c s' => str_drop n' s'
  | _, _ => s
  end.

(** Steps 6 to 10 of Number::toString(x) for a positive [x]: [ds] are
    the [k] digits of [s] and [n] the position of the decimal point,
    [x = s × 10^(n-k)]. *)
Definition digits_to_string (ds : string) (n : Z) : string :=
  let k := Z.of_nat (String.length ds) in
  if Z.leb k n && Z.leb n 21 then ds +:+ zeros (Z.to_nat (n - k))
  else if Z.ltb 0 n && Z.leb n 21 then
    str_take (Z.to_nat n) ds +:+ String "." (str_drop (Z.to_nat n) ds)
  else if Z.ltb (-6) n && Z.leb n 0 then "0." +:+ zeros (Z.to_nat (- n)) +:+ ds
  else
    let exp := String "e" (String (if Z.ltb (n - 1) 0 then "-" else "+")
                                  (z_to_string (Z.abs (n - 1)))) in
    match ds with
    | String d EmptyString => String d exp
    | String d rest => String d (String "." (rest +:+ exp))
    | EmptyString => exp
    end.

(** Number::toString(x) (radix 10): the digits [s] of the canonical
    mantissa are as few as possible. *)
Definition number_to_string (x : number) : string :=
  let y := num_norm x in
  if Z.eqb (num_mant y) 0 then "0"
  else
    let ds := z_to_string (Z.abs (num_mant y)) in
    (if Z.ltb (num_mant y) 0 then "-" else "") +:+
      digits_to_string ds (Z.of_nat (String.length ds) + num_exp y).

(** ** Values *)

(** A JSON value as [JSON.parse] builds it, plus [undefined]: an
    object keeps its members in source order, duplicates included
    (lookup takes the last one, as [JSON.parse] does). *)
Inductive jsval : Type :=
| JUndefined
| JNull
| JBool (b : bool)
| JNumber (n : number)
| JString (s : string)
| JArray (xs : list jsval)
| JObject (fields : list (string * jsval)).

(** ToBoolean. *)
Definition truthy (v : jsval) : bool :=
  match v with
  | JUndefined | JNull => false
  | JBool b => b
  | JNumber n => negb (Z.eqb (num_mant n) 0)
  | JString s => negb (String.eqb s "")
  | JArray _ | JObject _ => true
  end.

(** [a || b]: the first operand when it is truthy, else the second. *)
Definition js_or (a b : jsval) : jsval := if truthy a then a else b.

Declare Scope js_scope.
Delimit Scope js_scope with js.
Notation "a || b" := (js_or a b) : js_scope.

Definition nullish (v : jsval) : bool :=
  match v with JUndefined | JNull => true | _ => false end.

Definition lookup_field (fs : list (string * jsval)) (k : string) : jsval :=
  fold_left (fun acc kv => if String.eqb kv.1 k then kv.2 else acc) fs JUndefined.

(** [v.k] for the member names the client reads ([error], [user_id],
    [response], [timestamp]): [None] is the TypeError thrown on
    [null]/[undefined]; primitives and arrays have no such member. *)
Definition get_field (v : jsval) (k : string) : option jsval :=
  match v with
  | JUndefined | JNull => None
  | JObject fs => Some (lookup_field fs k)
  | _ => Some JUndefined
  end.

(** ** String(v) *)

(** [String(v)], as [localStorage.setItem] and [FormData.append]
    apply it to their value argument. *)
Fixpoint js_String (v : jsval) : string :=
  match v with
  | JUndefined => "undefined"
  | JNull => "null"
  | JBool b => if b then "true" else "false"
  | JNumber n => number_to_string n
  | JString s => s
  | JArray xs =>
      String.concat ","
        (map (fun x => if nullish x then "" else js_String x) xs)
  | JObject _ => "[object Object]"
  end.

(** ** Strings *)

(** White space and line terminators below code unit 256. *)
Definition is_ws (c : ascii) : bool :=
  let n := nat_of_ascii c in
  (Nat.eqb n 32 || (Nat.leb 9 n && Nat.leb n 13) || Nat.eqb n 160)%bool.

Fixpoint trim_start (s : string) : string :=
  match s with
  | EmptyString => EmptyString
  | String c r => if is_ws c then trim_start r else s
  end.

Definition string_rev (s : string) : string :=
  String.string_of_list_ascii (rev (String.list_ascii_of_string s)).

(** [String.prototype.trim]. *)
Definition trim (s : string) : string :=
  string_rev (trim_start (string_rev (trim_start s))).

(** [s.split(c)] for a one-character separator [c]. *)
Fixpoint split_on (c : ascii) (s : string) : list string :=
  match s with
  | EmptyString => [EmptyString]
  | String a r =>
      let parts := split_on c r in
      if Ascii.eqb a c then EmptyString :: parts
      else match parts with
           | p :: ps => String a p :: ps
           | [] => [String a EmptyString]
           end
  end.

(** [s.split(c)[0]]. *)
Definition split_first (c : ascii) (s : string) : string :=
  match split_on c s with p :: _ => p | [] => EmptyString end.

(** [s.split(c).pop()]: the last element, [undefined] for an empty
    array. *)
Definition split_pop (c : ascii) (s : string) : jsval :=
  match last (split_on c s) with Some p => JString p | None => JUndefined end.

(** ** Dates *)

Section Dates.
Local Open Scope Z_scope.

(** Proleptic Gregorian date (year, month, day) of a day count since
  1970-01-01. *)
Definition civil_from_days (days : Z) : Z * Z * Z :=
let z := days + 719468 in
let era := z / 146097 in
let doe := z - era * 146097 in
let yoe := (doe - doe / 1460 + doe / 36524 - doe / 146096) / 365 in
let y := yoe + era * 400 in
let doy := doe - (365 * yoe + yoe / 4 - yoe / 100) in
let mp := (5 * doy + 2) / 153 in
let d := doy - (153 * mp + 2) / 5 + 1 in
let m := if Z.ltb mp 10 then mp + 3 else mp - 9 in
(if Z.leb m 2 then y + 1 else y, m, d).

Definition pad_zeros (w : nat) (s : string) : string :=
String.concat "" (repeat "0" (w - String.length s)) +:+ s.

Definition pad (w : nat) (n : Z) : string := pad_zeros w (z_to_string n).

(** [new Date(ms).toISOString()]: [YYYY-MM-DDTHH:mm:ss.sssZ], with the
  six-digit signed year outside 0000..9999. *)
Definition toISOString (ms : Z) : string :=
let days := ms / 86400000 in
let t := ms mod 86400000 in
let '(y, mo, d) := civil_from_days days in
let year :=
  if Z.leb 0 y && Z.leb y 9999 then pad 4 y
  else (if Z.ltb y 0 then "-" else "+") +:+ pad 6 (Z.abs y) in
year +:+ "-" +:+ pad 2 mo +:+ "-" +:+ pad 2 d +:+ "T" +:+
pad 2 (t / 3600000) +:+ ":" +:+ pad 2 (t / 60000 mod 60) +:+ ":" +:+
pad 2 (t / 1000 mod 60) +:+ "." +:+ pad 3 (t mod 1000) +:+ "Z".

End Dates.

(** ** Files and object URLs *)

(** A [File]: its [name], its MIME [type] and the identity of the Blob
    holding its bytes. *)
Record File := mkFile { file_name : string; file_type : string; file_blob : positive }.

(** The document's object-URL registry: the live [blob:] URLs and the
    Blob each one keeps alive.  Fresh URLs come from a counter. *)
Record url_store := mkUrlStore { url_next : positive; url_live : gmap string positive }.

Definition empty_urls : url_store := mkUrlStore 1 ∅.

Definition blob_url (n : positive) : string := "blob:" +:+ z_to_string (Zpos n).

(** [URL.createObjectURL(f)]. *)
Definition createObjectURL (u : url_store) (f : File) : string * url_store :=
  let url := blob_url (url_next u) in
  (url, mkUrlStore (Pos.succ (url_next u)) (<[url := file_blob f]> (url_live u))).

(** [URL.revokeObjectURL(url)]. *)
Definition revokeObjectURL (u : url_store) (url : string) : url_store :=
  mkUrlStore (url_next u) (delete url (url_live u)).

(** ** Lemmas *)

Lemma js_or_truthy a b : truthy a = true -> (a || b)%js = a.
Proof. unfold js_or. by intros ->. Qed.

Lemma js_or_falsy a b : truthy a = false -> (a || b)%js = b.
Proof. unfold js_or. by intros ->. Qed.

Lemma truthy_JString s : s <> "" -> truthy (JString s) = true.
Proof. intros H. simpl. apply String.eqb_neq in H. by rewrite H. Qed.

Lemma get_field_object fs k : get_field (JObject fs) k = Some (lookup_field fs k).
Proof. done. Qed.

Lemma get_field_nullish v k : nullish v = true -> get_field v k = None.
Proof. by destruct v. Qed.

#[export] Hint Rewrite js_or_truthy js_or_falsy truthy_JString using done : ui_rw.
#[export] Hint Rewrite get_field_object : ui_rw.

(** [Number.prototype.toString] on integers is injective: the decimal
    text reads back ([NilZero.int_of_string]) to the digits it came
    from, and [Z.to_int] is injective. *)
Lemma z_to_string_read n : NilZero.int_of_string (z_to_string n) = Some (Z.to_int n).
Proof.
  apply NilZero.isi; destruct n as [|p|p]; simpl; try done;
    intros [= E]; by apply (DecimalPos.Unsigned.to_uint_nonnil p).
Qed.

Lemma z_to_string_inj a b : z_to_string a = z_to_string b -> a = b.
Proof.
  intros H. apply DecimalZ.to_int_inj.
  pose proof (z_to_string_read a) as Ha. rewrite H, z_to_string_read in Ha. by simplify_eq.
Qed.

Lemma string_app_nonempty_r (a b : string) : b <> "" -> a +:+ b <> "".
Proof. intros Hb. destruct a; [done|]. discriminate. Qed.

(** ** Canonical numbers *)

Section Norm.
Local Open Scope Z_scope.

Lemma log2_div10 m : m <> 0 -> m mod 10 = 0 -> Z.log2 (Z.abs (m / 10)) < Z.log2 (Z.abs m).
Proof.
  intros Hm Hd. pose proof (Z.div_mod m 10 ltac:(lia)) as Hq. rewrite Hd, Z.add_0_r in Hq.
  assert (Ha : Z.abs m = 10 * Z.abs (m / 10)) by (rewrite Hq at 1; rewrite Z.abs_mul; lia).
  assert (Hp : 0 < Z.abs (m / 10)) by lia.
  pose proof (Z.log2_double _ Hp) as Hd2.
  pose proof (Z.log2_le_mono (2 * Z.abs (m / 10)) (Z.abs m) ltac:(lia)). lia.
Qed.

(** Enough fuel strips every trailing zero: more gives the same. *)
Lemma strip_zeros_enough f1 f2 m e :
  m <> 0 -> (strip_fuel m <= f1)%nat -> (strip_fuel m <= f2)%nat ->
  strip_zeros f1 m e = strip_zeros f2 m e.
Proof.
  revert f2 m e. induction f1 as [|f1 IH]; intros [|f2] m e Hm H1 H2;
    unfold strip_fuel in *; try lia. simpl.
  destruct (Z.eqb_spec (m mod 10) 0) as [Hd|Hd]; [|done].
  pose proof (log2_div10 m Hm Hd). pose proof (Z.log2_nonneg (Z.abs (m / 10))).
  apply IH; unfold strip_fuel; [|lia|lia].
  intros Hz. pose proof (Z.div_mod m 10 ltac:(lia)). lia.
Qed.

Lemma strip_zeros_canonical f m e :
  m <> 0 -> (strip_fuel m <= f)%nat ->
  (strip_zeros f m e).1 <> 0 /\ (strip_zeros f m e).1 mod 10 <> 0.
Proof.
  revert m e. induction f as [|f IH]; intros m e Hm Hf; unfold strip_fuel in *; [lia|]. simpl.
  destruct (Z.eqb_spec (m mod 10) 0) as [Hd|Hd]; [|done].
  pose proof (log2_div10 m Hm Hd). pose proof (Z.log2_nonneg (Z.abs (m / 10))).
  apply IH; unfold strip_fuel; [|lia].
  intros Hz. pose proof (Z.div_mod m 10 ltac:(lia)). lia.
Qed.

Lemma num_norm_canonical x : num_canonical (num_norm x) = true.
Proof.
  unfold num_norm, num_canonical. destruct (Z.eqb_spec (num_mant x) 0) as [|Hm]; [done|].
  pose proof (strip_zeros_canonical (strip_fuel (num_mant x)) (num_mant x) (num_exp x) Hm
                ltac:(lia)) as [H1 H2].
  destruct (strip_zeros _ _ _) as [m e]. simpl in *.
  rewrite (proj2 (Z.eqb_neq _ _) H1). by apply negb_true_iff, Z.eqb_neq.
Qed.

Lemma num_norm_id x : num_canonical x = true -> num_norm x = x.
Proof.
  destruct x as [m e]. unfold num_norm, num_canonical. simpl.
  destruct (Z.eqb_spec m 0) as [->|Hm]; [intros ->%Z.eqb_eq; done|].
  intros Hd%negb_true_iff. unfold strip_fuel. simpl. by rewrite Hd.
Qed.

Lemma strip_zeros_S_mul10 f m e : strip_zeros (S f) (m * 10) e = strip_zeros f m (e + 1).
Proof. cbn [strip_zeros]. rewrite Z.mod_mul, Z.div_mul by lia. done. Qed.

(** A mantissa with a trailing zero denotes the value of the one
    without it. *)
Lemma num_norm_mul10 m e :
  m <> 0 -> num_norm (mkNumber (m * 10) (e - 1)) = num_norm (mkNumber m e).
Proof.
  intros Hm. unfold num_norm. cbn [num_mant num_exp].
  rewrite (proj2 (Z.eqb_neq _ _) Hm), (proj2 (Z.eqb_neq (m * 10) 0)) by lia.
  assert (Hl : Z.log2 (Z.abs m) < Z.log2 (Z.abs (m * 10))).
  { replace m with (m * 10 / 10) at 1 by (rewrite Z.div_mul; lia).
    apply log2_div10; [lia|]. by rewrite Z.mod_mul. }
  pose proof (Z.log2_nonneg (Z.abs m)).
  assert (Hs : strip_zeros (strip_fuel (m * 10)) (m * 10) (e - 1) = strip_zeros (strip_fuel m) m e).
  { unfold strip_fuel at 1.
    replace (Z.to_nat (Z.log2 (Z.abs (m * 10))))
      with (S (Z.to_nat (Z.log2 (Z.abs (m * 10)) - 1))) by lia.
    rewrite strip_zeros_S_mul10. replace (e - 1 + 1) with e by lia.
    apply strip_zeros_enough; unfold strip_fuel; lia. }
  by rewrite Hs.
Qed.

Lemma num_norm_scale m e j :
  m <> 0 -> num_norm (mkNumber (m * 10 ^ Z.of_nat j) (e - Z.of_nat j)) = num_norm (mkNumber m e).
Proof.
  intros Hm. induction j as [|j IH]; [by rewrite Z.mul_1_r, Z.sub_0_r|].
  rewrite Nat2Z.inj_succ, Z.pow_succ_r by lia.
  replace (m * (10 * 10 ^ Z.of_nat j)) with ((m * 10 ^ Z.of_nat j) * 10) by ring.
  replace (e - Z.succ (Z.of_nat j)) with ((e - Z.of_nat j) - 1) by lia.
  rewrite num_norm_mul10; [done|]. pose proof (Z.pow_pos_nonneg 10 (Z.of_nat j)). nia.
Qed.
End Norm.

(** The text of a date is never empty. *)
Lemma toISOString_nonempty ms : toISOString ms <> "".
Proof.
  unfold toISOString. cbv zeta. destruct (civil_from_days _) as [[y mo] d].
  apply string_app_nonempty_r. discriminate.
Qed.

(** ** [split] on one character *)

(** Join the pieces with the separator, as [pieces.join(c)]. *)
Fixpoint join_on (c : ascii) (ps : list string) : string :=
  match ps with
  | [] => ""
  | [p] => p
  | p :: ps' => p +:+ String c (join_on c ps')
  end.

Definition has_char (c : ascii) (s : string) : bool :=
  existsb (Ascii.eqb c) (String.list_ascii_of_string s).

Lemma split_on_nonempty c s : split_on c s <> [].
Proof.
  induction s as [|a r IH]; simpl; [done|].
  destruct (Ascii.eqb a c); [done|]. by destruct (split_on c r).
Qed.

Lemma join_on_cons c p q qs : join_on c (p :: q :: qs) = p +:+ String c (join_on c (q :: qs)).
Proof. done. Qed.

(** Splitting then joining gives back the string. *)
Lemma split_on_join c s : join_on c (split_on c s) = s.
Proof.
  induction s as [|a r IH]; [done|]. cbn [split_on].
  pose proof (split_on_nonempty c r) as Hne.
  destruct (Ascii.eqb a c) eqn:Ha.
  - apply Ascii.eqb_eq in Ha. subst.
    destruct (split_on c r) as [|p ps]; [done|]. rewrite join_on_cons, IH. done.
  - destruct (split_on c r) as [|p [|p' ps]]; [done| |].
    + simpl in *. by subst.
    + rewrite join_on_cons. rewrite join_on_cons in IH. by rewrite <- IH.
Qed.

(** No piece contains the separator. *)
Lemma split_on_pieces c s : Forall (fun p => has_char c p = false) (split_on c s).
Proof.
  induction s as [|a r IH]; simpl; [by repeat constructor|].
  destruct (Ascii.eqb a c) eqn:Ha.
  - by constructor.
  - destruct (split_on c r) as [|p ps] eqn:E; [by destruct (split_on_nonempty c r)|].
    inversion IH as [|? ? Hp Hps]; subst. constructor; [|done].
    unfold has_char in *. simpl. rewrite Hp, orb_false_r.
    destruct (Ascii.eqb c a) eqn:Hca; [|done].
    apply Ascii.eqb_eq in Hca. subst. by rewrite Ascii.eqb_refl in Ha.
Qed.

Lemma string_app_cons x (a b : string) : String x a +:+ b = String x (a +:+ b).
Proof. reflexivity. Qed.

Lemma string_app_assoc (a b c : string) : a +:+ (b +:+ c) = (a +:+ b) +:+ c.
Proof. induction a as [|x a IH]; [done|]. by rewrite !string_app_cons, IH. Qed.

(** The joined string ends with its last piece, after a separator
    unless it is the only piece. *)
Lemma join_on_last c ps p :
  last ps = Some p ->
  exists pre, join_on c ps = pre +:+ p /\ (pre = "" \/ exists q, pre = q +:+ String c "").
Proof.
  induction ps as [|p0 ps IH]; [done|]. intros Hl.
  destruct ps as [|p1 ps].
  - simpl in *. simplify_eq. exists "". split; [done|by left].
  - destruct (IH Hl) as [pre [Hj Hpre]].
    exists (p0 +:+ String c pre). split.
    + change (join_on c (p0 :: p1 :: ps)) with (p0 +:+ String c (join_on c (p1 :: ps))).
      by rewrite Hj, <- string_app_cons, string_app_assoc.
    + right. destruct Hpre as [-> | [q ->]].
      * exists p0. done.
      * exists (p0 +:+ String c q). by rewrite <- string_app_cons, string_app_assoc.
Qed.
