(* ===== verification/Json.v ===== *)
(** * JSON text: [JSON.stringify] and [JSON.parse]

    The API client sends its JSON bodies as [JSON.stringify({...})]
    ([src/src/lib/api.ts], the [body] member of [register], [login] and
    [chat]) and reads every response with [res.json()], i.e.
    [JSON.parse] of the response text.  This file models both from the
    ECMAScript specification (SerializeJSONProperty with QuoteJSONString,
    and the JSON grammar), for the values of [Js.jsval]:

    - [stringify] returns [None] for [undefined]; inside an array an
      [undefined] element becomes [null], inside an object a member whose
      value is [undefined] is left out;
    - [JSON_parse] is a recursive-descent parser with fuel (one unit per
      value, element or member it reads), run with fuel one more than
      the length of its input.  Numbers follow the JSON grammar
      ([-]? int frac? exp?, no leading zero) and denote the exact
      decimal ([Js.number]); their text is Number::toString
      ([number_to_string]).  [\u] escapes denote the code units below
      256, the strings of the model: an escape of a larger code unit is
      outside the model and rejected.

    The round trip ([json_roundtrip]) shows that the text sent parses
    back to the value the code built, with [undefined] normalised away
    ([normalize]); [Api.v] applies it to the bodies of the client. *)

From S2P Require Import Prelude Js.
From Stdlib Require Import Ascii DecimalString DecimalZ.

Local Open Scope string_scope.

(** ** Serialisation *)

Definition dquote : ascii := ascii_of_nat 34.
Definition bslash : ascii := ascii_of_nat 92.

(** A lowercase hexadecimal digit. *)
Definition hex_digit (n : nat) : ascii := ascii_of_nat (if Nat.ltb n 10 then 48 + n else 87 + n)%nat.

(** QuoteJSONString for one code unit. *)
Definition escape_char (c : ascii) : string :=
  let n := nat_of_ascii c in
  if Nat.eqb n 8 then String bslash "b"
  else if Nat.eqb n 9 then String bslash "t"
  else if Nat.eqb n 10 then String bslash "n"
  else if Nat.eqb n 12 then String bslash "f"
  else if Nat.eqb n 13 then String bslash "r"
  else if Nat.eqb n 34 then String bslash (String dquote "")
  else if Nat.eqb n 92 then String bslash (String bslash "")
  else if Nat.ltb n 32 then
    String bslash (String "u" (String "0" (String "0"
      (String (hex_digit (n / 16)%nat) (String (hex_digit (n mod 16)%nat) "")))))
  else String c "".

Fixpoint escape (s : string) : string :=
  match s with
  | EmptyString => ""
  | String c s' => escape_char c +:+ escape s'
  end.

Definition quote (s : string) : string := String dquote (escape s +:+ String dquote "").

(** SerializeJSONProperty: [None] is [undefined] (no text). *)
Fixpoint stringify (v : jsval) : option string :=
  match v with
  | JUndefined => None
  | JNull => Some "null"
  | JBool b => Some (if b then "true" else "false")
  | JNumber n => Some (number_to_string n)
  | JString s => Some (quote s)
  | JArray xs =>
      Some ("[" +:+ String.concat "," (map (fun x => default "null" (stringify x)) xs) +:+ "]")
  | JObject fs =>
      Some ("{" +:+ String.concat ","
              (flat_map (fun kv => match stringify kv.2 with
                                   | Some t => [quote kv.1 +:+ ":" +:+ t]
                                   | None => []
                                   end) fs) +:+ "}")
  end.

Definition is_undefined (v : jsval) : bool := match v with JUndefined => true | _ => false end.

(** The value the text denotes: [undefined] elements read back as
    [null], [undefined] members are absent, numbers in canonical form. *)
Fixpoint normalize (v : jsval) : jsval :=
  match v with
  | JUndefined => JNull
  | JArray xs => JArray (map normalize xs)
  | JObject fs =>
      JObject (flat_map (fun kv => if is_undefined kv.2 then [] else [(kv.1, normalize kv.2)]) fs)
  | JNumber n => JNumber (num_norm n)
  | _ => v
  end.

(** ** Parsing *)

Definition is_json_ws (c : ascii) : bool :=
  let n := nat_of_ascii c in (Nat.eqb n 32) || (Nat.eqb n 9) || (Nat.eqb n 10) || (Nat.eqb n 13).

Fixpoint skip_ws (s : string) : string :=
  match s with
  | String c s' => if is_json_ws c then skip_ws s' else s
  | EmptyString => EmptyString
  end.

Definition hex_value (c : ascii) : option nat :=
  let n := nat_of_ascii c in
  if (Nat.leb 48 n) && (Nat.leb n 57) then Some (n - 48)%nat
  else if (Nat.leb 97 n) && (Nat.leb n 102) then Some (n - 87)%nat
  else if (Nat.leb 65 n) && (Nat.leb n 70) then Some (n - 55)%nat
  else None.

(** The character a one-letter escape denotes. *)
Definition simple_escape (e : ascii) : option ascii :=
  let n := nat_of_ascii e in
  if Nat.eqb n 34 then Some dquote
  else if Nat.eqb n 92 then Some bslash
  else if Nat.eqb n 47 then Some "/"%char
  else if Nat.eqb n 98 then Some (ascii_of_nat 8)
  else if Nat.eqb n 102 then Some (ascii_of_nat 12)
  else if Nat.eqb n 110 then Some (ascii_of_nat 10)
  else if Nat.eqb n 114 then Some (ascii_of_nat 13)
  else if Nat.eqb n 116 then Some (ascii_of_nat 9)
  else None.

(** The body of a string literal after its opening quote, up to and
    including the closing quote: the characters it denotes and the text
    after it.  Raw control characters are rejected. *)
Fixpoint parse_chars (s : string) : option (string * string) :=
  match s with
  | EmptyString => None
  | String c s' =>
      if Ascii.eqb c dquote then Some ("", s')
      else if Ascii.eqb c bslash then
        match s' with
        | String e s'' =>
            if Ascii.eqb e "u" then
              match s'' with
              | String h1 (String h2 (String h3 (String h4 r))) =>
                  match hex_value h1, hex_value h2, hex_value h3, hex_value h4 with
                  | Some a, Some b, Some c3, Some d =>
                      let code := (((a * 16 + b) * 16 + c3) * 16 + d)%nat in
                      if Nat.ltb code 256 then
                        match parse_chars r with
                        | Some (body, rest) => Some (String (ascii_of_nat code) body, rest)
                        | None => None
                        end
                      else None
                  | _, _, _, _ => None
                  end
              | _ => None
              end
            else
              match simple_escape e with
              | Some c' =>
                  match parse_chars s'' with
                  | Some (body, rest) => Some (String c' body, rest)
                  | None => None
                  end
              | None => None
              end
        | EmptyString => None
        end
      else if Nat.ltb (nat_of_ascii c) 32 then None
      else
        match parse_chars s' with
        | Some (body, rest) => Some (String c body, rest)
        | None => None
        end
  end.

Definition is_digit (c : ascii) : bool :=
  let n := nat_of_ascii c in (Nat.leb 48 n) && (Nat.leb n 57).

Fixpoint take_digits (s : string) : string * string :=
  match s with
  | String c s' =>
      if is_digit c then let '(d, r) := take_digits s' in (String c d, r) else ("", s)
  | EmptyString => ("", "")
  end.

(** The value of a run of decimal digits. *)
Definition digit_value (c : ascii) : Z := (Z.of_nat (nat_of_ascii c) - 48)%Z.

Fixpoint digits_acc (acc : Z) (s : string) : Z :=
  match s with
  | EmptyString => acc
  | String c s' => digits_acc (10 * acc + digit_value c)%Z s'
  end.

Definition digits_value (s : string) : Z := digits_acc 0 s.

(** [int]: [0], or a nonzero digit and more digits. *)
Definition parse_int (s : string) : option (string * string) :=
  match s with
  | String c r =>
      if Ascii.eqb c "0" then Some ("0", r)
      else if is_digit c then let '(ds, r') := take_digits r in Some (String c ds, r')
      else None
  | EmptyString => None
  end.

(** [frac]: absent, or a point and at least one digit. *)
Definition parse_frac (s : string) : option (string * string) :=
  match s with
  | String c r =>
      if Ascii.eqb c "." then
        let '(ds, r') := take_digits r in if String.eqb ds "" then None else Some (ds, r')
      else Some ("", s)
  | EmptyString => Some ("", s)
  end.

(** [exp]: absent, or [e]/[E], an optional sign and at least one digit. *)
Definition parse_exp (s : string) : option (Z * string) :=
  match s with
  | String c r =>
      if Ascii.eqb c "e" || Ascii.eqb c "E" then
        let '(neg, r1) := match r with
                          | String c' r' =>
                              if Ascii.eqb c' "-" then (true, r')
                              else if Ascii.eqb c' "+" then (false, r') else (false, r)
                          | EmptyString => (false, r)
                          end in
        let '(ds, r2) := take_digits r1 in
        if String.eqb ds "" then None
        else Some ((if neg then - digits_value ds else digits_value ds)%Z, r2)
      else Some (0%Z, s)
  | EmptyString => Some (0%Z, s)
  end.

(** An unsigned number literal: the integer its digits spell, the
    power of ten it is scaled by, and the text after it. *)
Definition parse_decimal (s : string) : option (Z * Z * string) :=
  match parse_int s with
  | Some (i, r1) =>
      match parse_frac r1 with
      | Some (f, r2) =>
          match parse_exp r2 with
          | Some (x, r3) => Some (digits_value (i +:+ f), (x - Z.of_nat (String.length f))%Z, r3)
          | None => None
          end
      | None => None
      end
  | None => None
  end.

(** A number literal: an optional minus, then an unsigned literal. *)
Definition parse_number (s : string) : option (number * string) :=
  let '(neg, s1) := match s with
                    | String c r => if Ascii.eqb c "-" then (true, r) else (false, s)
                    | EmptyString => (false, s)
                    end in
  match parse_decimal s1 with
  | Some (m, e, r) => Some (num_norm (mkNumber (if neg then - m else m)%Z e), r)
  | None => None
  end.

(** The text after a literal word. *)
Fixpoint strip_prefix (w s : string) : option string :=
  match w, s with
  | EmptyString, _ => Some s
  | String a w', String b s' => if Ascii.eqb a b then strip_prefix w' s' else None
  | _, _ => None
  end.

Definition parse_word (w : string) (v : jsval) (s : string) : option (jsval * string) :=
  option_map (fun r => (v, r)) (strip_prefix w s).

Fixpoint parse_value (fuel : nat) (s : string) : option (jsval * string) :=
  match fuel with
  | O => None
  | S k =>
      match skip_ws s with
      | String c r =>
          if Ascii.eqb c "{" then
            match skip_ws r with
            | String c' r' =>
                if Ascii.eqb c' "}" then Some (JObject [], r')
                else match parse_members k r with
                     | Some (fs, r'') => Some (JObject fs, r'')
                     | None => None
                     end
            | EmptyString => None
            end
          else if Ascii.eqb c "[" then
            match skip_ws r with
            | String c' r' =>
                if Ascii.eqb c' "]" then Some (JArray [], r')
                else match parse_elems k r with
                     | Some (xs, r'') => Some (JArray xs, r'')
                     | None => None
                     end
            | EmptyString => None
            end
          else if Ascii.eqb c dquote then
            match parse_chars r with
            | Some (t, r') => Some (JString t, r')
            | None => None
            end
          else if Ascii.eqb c "n" then parse_word "null" JNull (String c r)
          else if Ascii.eqb c "t" then parse_word "true" (JBool true) (String c r)
          else if Ascii.eqb c "f" then parse_word "false" (JBool false) (String c r)
          else match parse_number (String c r) with
               | Some (n, r') => Some (JNumber n, r')
               | None => None
               end
      | EmptyString => None
      end
  end
with parse_elems (fuel : nat) (s : string) : option (list jsval * string) :=
  match fuel with
  | O => None
  | S k =>
      match parse_value k s with
      | Some (v, r) =>
          match skip_ws r with
          | String c r' =>
              if Ascii.eqb c "," then
                match parse_elems k r' with
                | Some (vs, r'') => Some (v :: vs, r'')
                | None => None
                end
              else if Ascii.eqb c "]" then Some ([v], r')
              else None
          | EmptyString => None
          end
      | None => None
      end
  end
with parse_members (fuel : nat) (s : string) : option (list (string * jsval) * string) :=
  match fuel with
  | O => None
  | S k =>
      match skip_ws s with
      | String c r =>
          if Ascii.eqb c dquote then
            match parse_chars r with
            | Some (key, r1) =>
                match skip_ws r1 with
                | String c1 r2 =>
                    if Ascii.eqb c1 ":" then
                      match parse_value k r2 with
                      | Some (v, r3) =>
                          match skip_ws r3 with
                          | String c3 r4 =>
                              if Ascii.eqb c3 "," then
                                match parse_members k r4 with
                                | Some (fs, r5) => Some ((key, v) :: fs, r5)
                                | None => None
                                end
                              else if Ascii.eqb c3 "}" then Some ([(key, v)], r4)
                              else None
                          | EmptyString => None
                          end
                      | None => None
                      end
                    else None
                | EmptyString => None
                end
            | None => None
            end
          else None
      | EmptyString => None
      end
  end.

(** [JSON.parse(text)]: a value, then only white space. *)
Definition JSON_parse (s : string) : option jsval :=
  match parse_value (S (String.length s)) s with
  | Some (v, r) => if String.eqb (skip_ws r) "" then Some v else None
  | None => None
  end.

(** The text that may follow a value inside an array or an object, or
    end the input. *)
Definition delimited (s : string) : bool :=
  match s with
  | EmptyString => true
  | String c _ => Ascii.eqb c "," || Ascii.eqb c "]" || Ascii.eqb c "}"
  end.

Fixpoint all_digits (s : string) : bool :=
  match s with
  | EmptyString => true
  | String c s' => is_digit c && all_digits s'
  end.

Local Close Scope string_scope.

(** ** String literals *)

(** The parser reads back each escaped code unit. *)
Lemma parse_chars_escape_char c tail :
  parse_chars (escape_char c +:+ tail) =
    match parse_chars tail with
    | Some (body, rest) => Some (String c body, rest)
    | None => None
    end.
Proof.
  destruct c as [[] [] [] [] [] [] [] []]; reflexivity.
Qed.

Lemma parse_chars_escape s rest : parse_chars (escape s +:+ String dquote rest) = Some (s, rest).
Proof.
  induction s as [|c s IH]; [done|]. simpl.
  rewrite <- string_app_assoc, parse_chars_escape_char, IH. done.
Qed.

(** ** Number literals *)

Lemma string_length_app (a b : string) :
  String.length (a +:+ b) = String.length a + String.length b.
Proof. induction a as [|c a IH]; simpl; [done|by rewrite IH]. Qed.

Lemma string_app_empty_r (s : string) : s +:+ "" = s.
Proof. induction s as [|c s IH]; [done|]. by rewrite string_app_cons, IH. Qed.


Section NumberText.
Local Open Scope Z_scope.

(** Split equations between options of tuples into their components. *)
Ltac pair_eq :=
  repeat match goal with
  | |- Some _ = Some _ => f_equal
  | |- (_, _) = (_, _) => f_equal
  end.

(** Evaluate the value of a digit literal. *)
Ltac eval_digit :=
  repeat match goal with
  | |- context [digit_value ?c] =>
      let v := eval vm_compute in (digit_value c) in change (digit_value c) with v
  end.

Definition starts_digit (s : string) : bool :=
  match s with String c _ => is_digit c | EmptyString => false end.

Lemma delimited_no_digit s : delimited s = true -> starts_digit s = false.
Proof. destruct s as [|c s]; [done|]. simpl. by destruct c as [[] [] [] [] [] [] [] []]. Qed.

Lemma take_digits_app ds rest :
  all_digits ds = true -> starts_digit rest = false -> take_digits (ds +:+ rest) = (ds, rest).
Proof.
  intros Hd Hr. induction ds as [|c ds IH].
  - change (""%string +:+ rest) with rest.
    destruct rest as [|c rest]; [done|]. cbn [starts_digit] in Hr. cbn [take_digits]. by rewrite Hr.
  - cbn [all_digits] in Hd. apply andb_true_iff in Hd as [Hc Hd].
    rewrite string_app_cons. cbn [take_digits]. rewrite Hc. by rewrite IH.
Qed.

Lemma all_digits_app a b : all_digits (a +:+ b) = all_digits a && all_digits b.
Proof. induction a as [|c a IH]; simpl; [done|]. by rewrite IH, andb_assoc. Qed.

Lemma all_digits_zeros k : all_digits (zeros k) = true.
Proof. induction k as [|k IH]; simpl; [done|]. by rewrite IH. Qed.

Lemma length_zeros k : String.length (zeros k) = k.
Proof. induction k as [|k IH]; simpl; lia. Qed.

Lemma digits_acc_app acc a b : digits_acc acc (a +:+ b) = digits_acc (digits_acc acc a) b.
Proof. revert acc. induction a as [|c a IH]; intros acc; simpl; auto. Qed.

Lemma digits_acc_shift acc s :
  digits_acc acc s = acc * 10 ^ Z.of_nat (String.length s) + digits_acc 0 s.
Proof.
  revert acc. induction s as [|c s IH]; intros acc; cbn [digits_acc String.length]; [lia|].
  rewrite IH, (IH (10 * 0 + digit_value c)), Nat2Z.inj_succ, Z.pow_succ_r by lia. ring.
Qed.

Lemma digits_acc_zeros k : digits_acc 0 (zeros k) = 0.
Proof. induction k as [|k IH]; simpl; done. Qed.

(** Leading zeros do not change the value. *)
Lemma digits_value_zeros k s : digits_value (zeros k +:+ s) = digits_value s.
Proof. unfold digits_value. by rewrite digits_acc_app, digits_acc_zeros. Qed.

Lemma digits_of_uint_acc u acc :
  digits_acc (Zpos acc) (NilEmpty.string_of_uint u) = Zpos (Pos.of_uint_acc u acc).
Proof.
  revert acc. induction u as [|u IH|u IH|u IH|u IH|u IH|u IH|u IH|u IH|u IH|u IH];
    intros acc; cbn [NilEmpty.string_of_uint digits_acc Pos.of_uint_acc]; [done|..];
    rewrite <- IH; f_equal; eval_digit; lia.
Qed.

Lemma digits_of_uint u : digits_acc 0 (NilEmpty.string_of_uint u) = Z.of_N (Pos.of_uint u).
Proof.
  induction u as [|u IH|u IH|u IH|u IH|u IH|u IH|u IH|u IH|u IH|u IH];
    cbn [NilEmpty.string_of_uint digits_acc Pos.of_uint Z.of_N]; eval_digit;
    [done|rewrite Z.mul_0_r, Z.add_0_r; exact IH|..];
    rewrite <- digits_of_uint_acc; f_equal; lia.
Qed.

Lemma string_of_uint_digits u : all_digits (NilEmpty.string_of_uint u) = true.
Proof. induction u; simpl; by rewrite ?IHu. Qed.

(** The decimal text of a positive integer: digits, the first one
    nonzero, which spell the integer. *)
Lemma z_to_string_pos p :
  exists c ds, z_to_string (Zpos p) = String c ds /\ is_digit c = true /\ c <> "0"%char /\
    all_digits ds = true /\ digits_value (String c ds) = Zpos p.
Proof.
  assert (Hn : forall d, Pos.to_uint p <> Decimal.D0 d).
  { intros d Hd. pose proof (DecimalPos.Unsigned.to_of (Pos.to_uint p)) as H.
    rewrite DecimalPos.Unsigned.of_to in H. change (N.to_uint (Npos p)) with (Pos.to_uint p) in H.
    rewrite Hd in H. unfold Decimal.unorm in H.
    destruct (Decimal.nzhead (Decimal.D0 d)) eqn:E; try discriminate H.
    - injection H as ->. by apply (DecimalPos.Unsigned.to_uint_nonzero p).
    - injection H as <-. by apply (DecimalFacts.nzhead_nonzero (Decimal.D0 d) d). }
  pose proof (digits_of_uint (Pos.to_uint p)) as Hv. rewrite DecimalPos.Unsigned.of_to in Hv.
  pose proof (string_of_uint_digits (Pos.to_uint p)) as Hd.
  pose proof (DecimalPos.Unsigned.to_uint_nonnil p) as Hnn.
  assert (Hz : z_to_string (Zpos p) = NilEmpty.string_of_uint (Pos.to_uint p)).
  { unfold z_to_string. simpl. unfold NilZero.string_of_uint. by destruct (Pos.to_uint p). }
  rewrite Hz. unfold digits_value.
  destruct (Pos.to_uint p) as [|u|u|u|u|u|u|u|u|u|u]; [done|by destruct (Hn u)|..];
    cbn [NilEmpty.string_of_uint] in *; (eexists _, _; split_and!; [reflexivity|done|done|exact Hd|exact Hv]).
Qed.

Lemma z_to_string_nonneg n :
  0 <= n -> exists c ds, z_to_string n = String c ds /\ is_digit c = true /\
    all_digits ds = true /\ digits_value (String c ds) = n.
Proof.
  intros Hn. destruct n as [|p|p]; [by exists "0"%char, ""%string| |lia].
  destruct (z_to_string_pos p) as (c & ds & E & Hc & _ & Hd & Hv). by exists c, ds.
Qed.

(** ** Splitting the digits *)

Lemma str_take_drop n s : str_take n s +:+ str_drop n s = s.
Proof. revert s. induction n as [|n IH]; intros [|c s]; simpl; try done. by rewrite string_app_cons, IH. Qed.

Lemma all_digits_take n s : all_digits s = true -> all_digits (str_take n s) = true.
Proof.
  revert s. induction n as [|n IH]; intros [|c s] H; simpl in *; try done.
  apply andb_true_iff in H as [-> H]. by apply IH.
Qed.

Lemma all_digits_drop n s : all_digits s = true -> all_digits (str_drop n s) = true.
Proof.
  revert s. induction n as [|n IH]; intros [|c s] H; simpl in *; try done.
  apply andb_true_iff in H as [_ H]. by apply IH.
Qed.

Lemma length_drop n s : String.length (str_drop n s) = (String.length s - n)%nat.
Proof. revert s. induction n as [|n IH]; intros [|c s]; simpl; try lia. apply IH. Qed.

(** ** Reading the pieces *)

Lemma parse_int_lead c ds rest :
  is_digit c = true -> c <> "0"%char -> all_digits ds = true -> starts_digit rest = false ->
  parse_int (String c ds +:+ rest) = Some (String c ds, rest).
Proof.
  intros Hc H0 Hd Hr. rewrite string_app_cons. unfold parse_int.
  rewrite (proj2 (Ascii.eqb_neq _ _) H0), Hc. by rewrite take_digits_app.
Qed.

Lemma parse_frac_digits ds rest :
  all_digits ds = true -> ds <> ""%string -> starts_digit rest = false ->
  parse_frac (String "." (ds +:+ rest)) = Some (ds, rest).
Proof.
  intros Hd Hne Hr. unfold parse_frac. rewrite Ascii.eqb_refl, take_digits_app by done.
  destruct ds; [done|]. reflexivity.
Qed.

Lemma parse_exp_signed k rest :
  starts_digit rest = false ->
  parse_exp (String "e" (String (if k <? 0 then "-" else "+") (z_to_string (Z.abs k) +:+ rest)))
    = Some (k, rest).
Proof.
  intros Hr. destruct (z_to_string_nonneg (Z.abs k) ltac:(lia)) as (c & ds & E & Hc & Hd & Hv).
  assert (Hds : all_digits (String c ds) = true) by (cbn [all_digits]; by rewrite Hc, Hd).
  rewrite E. destruct (Z.ltb k 0) eqn:Hk; [apply Z.ltb_lt in Hk|apply Z.ltb_ge in Hk];
    unfold parse_exp; cbn -[take_digits digits_value String.append];
    rewrite take_digits_app by done; cbn -[digits_value]; rewrite Hv; do 2 f_equal; lia.
Qed.

Lemma parse_frac_delimited rest : delimited rest = true -> parse_frac rest = Some (""%string, rest).
Proof. destruct rest as [|c rest]; [done|]. simpl. by destruct c as [[] [] [] [] [] [] [] []]. Qed.

Lemma parse_exp_delimited rest : delimited rest = true -> parse_exp rest = Some (0, rest).
Proof. destruct rest as [|c rest]; [done|]. simpl. by destruct c as [[] [] [] [] [] [] [] []]. Qed.

Lemma parse_decimal_pieces s i r1 f r2 x r3 :
  parse_int s = Some (i, r1) -> parse_frac r1 = Some (f, r2) -> parse_exp r2 = Some (x, r3) ->
  parse_decimal s = Some (digits_value (i +:+ f), x - Z.of_nat (String.length f), r3).
Proof. intros H1 H2 H3. unfold parse_decimal. by rewrite H1, H2, H3. Qed.

Lemma digits_value_cons_app c a b :
  digits_value (String c a +:+ b) = digits_acc (digits_value (String c a)) b.
Proof. unfold digits_value. by rewrite digits_acc_app. Qed.

(** The text Number::toString prints for the digits of a positive
    integer and a point position reads back as that integer scaled by a
    power of ten, with the exponent lowered to match. *)
Lemma parse_decimal_digits p e rest :
  delimited rest = true ->
  exists j : nat,
    parse_decimal (digits_to_string (z_to_string (Zpos p))
                     (Z.of_nat (String.length (z_to_string (Zpos p))) + e) +:+ rest) =
    Some (Zpos p * 10 ^ Z.of_nat j, e - Z.of_nat j, rest).
Proof.
  intros Hr. pose proof (delimited_no_digit rest Hr) as Hnd.
  destruct (z_to_string_pos p) as (c & ds & -> & Hc & H0 & Hd & Hv).
  assert (HD : all_digits (String c ds) = true) by (cbn [all_digits]; by rewrite Hc, Hd).
  cbn [String.length]. remember (Z.of_nat (S (String.length ds)) + e) as n eqn:Hn.
  unfold digits_to_string. cbv zeta. cbn [String.length].
  destruct (Z.leb (Z.of_nat (S (String.length ds))) n && Z.leb n 21) eqn:B1;
    [apply andb_true_iff in B1 as [B1 B1']; apply Z.leb_le in B1, B1'|].
  { (* digits, then zeros *)
    exists (Z.to_nat e). rewrite string_app_cons.
    replace (n - Z.of_nat (S (String.length ds))) with e by lia.
    rewrite (parse_decimal_pieces _ (String c (ds +:+ zeros (Z.to_nat e))) rest ""%string rest 0 rest).
    - rewrite string_app_empty_r, <- string_app_cons, digits_value_cons_app, Hv.
      rewrite digits_acc_shift, digits_acc_zeros, length_zeros. cbn [String.length]. pair_eq; lia.
    - apply parse_int_lead; [done|done| |done]. by rewrite all_digits_app, Hd, all_digits_zeros.
    - by apply parse_frac_delimited.
    - by apply parse_exp_delimited. }
  destruct (Z.ltb 0 n && Z.leb n 21) eqn:B2;
    [apply andb_true_iff in B2 as [B2 B2']; apply Z.ltb_lt in B2; apply Z.leb_le in B2'|].
  { (* digits with a point *)
    apply andb_false_iff in B1 as [B1|B1]; apply Z.leb_gt in B1; [|lia].
    exists 0%nat. replace (Z.to_nat n) with (S (Z.to_nat (n - 1))) by lia.
    cbn [str_take str_drop]. rewrite <- string_app_assoc, string_app_cons.
    change (String "." (str_drop (Z.to_nat (n - 1)) ds) +:+ rest)
      with (String "." (str_drop (Z.to_nat (n - 1)) ds +:+ rest)).
    rewrite (parse_decimal_pieces _ (String c (str_take (Z.to_nat (n - 1)) ds))
               (String "." (str_drop (Z.to_nat (n - 1)) ds +:+ rest))
               (str_drop (Z.to_nat (n - 1)) ds) rest 0 rest).
    - rewrite string_app_cons, str_take_drop, Hv, length_drop. pair_eq; lia.
    - rewrite <- string_app_cons. apply parse_int_lead; [done|done|by apply all_digits_take|done].
    - apply parse_frac_digits; [by apply all_digits_drop| |done].
      intros He. apply (f_equal String.length) in He. rewrite length_drop in He. simpl in He. lia.
    - by apply parse_exp_delimited. }
  destruct (Z.ltb (-6) n && Z.leb n 0) eqn:B3;
    [apply andb_true_iff in B3 as [B3 B3']; apply Z.ltb_lt in B3; apply Z.leb_le in B3'|].
  { (* a point, zeros, digits *)
    exists 0%nat.
    change ("0." +:+ zeros (Z.to_nat (- n)) +:+ String c ds)%string
      with (String "0" (String "." (zeros (Z.to_nat (- n)) +:+ String c ds))).
    rewrite string_app_cons. change (String "." (zeros (Z.to_nat (- n)) +:+ String c ds) +:+ rest)
      with (String "." ((zeros (Z.to_nat (- n)) +:+ String c ds) +:+ rest)).
    rewrite (parse_decimal_pieces _ "0" (String "." ((zeros (Z.to_nat (- n)) +:+ String c ds) +:+ rest))
               (zeros (Z.to_nat (- n)) +:+ String c ds) rest 0 rest).
    - change ("0" +:+ (zeros (Z.to_nat (- n)) +:+ String c ds))%string
        with (zeros (S (Z.to_nat (- n))) +:+ String c ds).
      rewrite digits_value_zeros, Hv, string_length_app, length_zeros. cbn [String.length].
      pair_eq; lia.
    - reflexivity.
    - apply parse_frac_digits; [by rewrite all_digits_app, all_digits_zeros, HD| |done].
      intros He. apply (f_equal String.length) in He. rewrite string_length_app in He. simpl in He. lia.
    - by apply parse_exp_delimited. }
  (* exponent notation *)
  exists 0%nat. destruct ds as [|c2 ds2].
  - rewrite string_app_cons.
    rewrite (parse_decimal_pieces _ (String c "")
               (String "e" (String (if Z.ltb (n - 1) 0 then "-" else "+") (z_to_string (Z.abs (n - 1)) +:+ rest)))
               "" (String "e" (String (if Z.ltb (n - 1) 0 then "-" else "+") (z_to_string (Z.abs (n - 1)) +:+ rest)))
               (n - 1) rest).
    + rewrite string_app_empty_r, Hv. pair_eq; cbn [String.length] in *; lia.
    + change (String c (String "e" (String (if Z.ltb (n - 1) 0 then "-" else "+")
                                           (z_to_string (Z.abs (n - 1)))) +:+ rest))
        with (String c "" +:+ String "e" (String (if Z.ltb (n - 1) 0 then "-" else "+")
                                           (z_to_string (Z.abs (n - 1)) +:+ rest))).
      apply parse_int_lead; done.
    + reflexivity.
    + by apply parse_exp_signed.
  - rewrite !string_app_cons, <- string_app_assoc.
    rewrite (parse_decimal_pieces _ (String c "")
               (String "." (String c2 ds2 +:+ String "e" (String (if Z.ltb (n - 1) 0 then "-" else "+")
                                    (z_to_string (Z.abs (n - 1)) +:+ rest))))
               (String c2 ds2)
               (String "e" (String (if Z.ltb (n - 1) 0 then "-" else "+") (z_to_string (Z.abs (n - 1)) +:+ rest)))
               (n - 1) rest).
    + change (String c "" +:+ String c2 ds2) with (String c (String c2 ds2)). rewrite Hv.
      pair_eq; cbn [String.length] in *; lia.
    + change (String c (String "." ?x)) with (String c "" +:+ String "." x).
      apply parse_int_lead; done.
    + apply parse_frac_digits; [by cbn [all_digits] in Hd|done|done].
    + by apply parse_exp_signed.
Qed.
End NumberText.

(** ** Values *)

Section JsvalInd.
Variable P : jsval -> Prop.
Hypothesis HU : P JUndefined.
Hypothesis HN : P JNull.
Hypothesis HB : forall b, P (JBool b).
Hypothesis HZ : forall n, P (JNumber n).
Hypothesis HS : forall s, P (JString s).
Hypothesis HA : forall xs, Forall P xs -> P (JArray xs).
Hypothesis HO : forall fs, Forall (fun kv => P kv.2) fs -> P (JObject fs).

(** Induction on values, through the elements and members. *)
Fixpoint jsval_ind' (v : jsval) : P v :=
  match v with
  | JUndefined => HU
  | JNull => HN
  | JBool b => HB b
  | JNumber n => HZ n
  | JString s => HS s
  | JArray xs =>
      HA xs ((fix go (xs : list jsval) : Forall P xs :=
                match xs with
                | [] => List.Forall_nil _
                | x :: xs' => @List.Forall_cons _ P x xs' (jsval_ind' x) (go xs')
                end) xs)
  | JObject fs =>
      HO fs ((fix go (fs : list (string * jsval)) : Forall (fun kv => P kv.2) fs :=
                match fs with
                | [] => List.Forall_nil _
                | kv :: fs' =>
                    @List.Forall_cons _ (fun kv => P kv.2) kv fs'
                      (match kv as kv0 return P kv0.2 with (k, x) => jsval_ind' x end) (go fs')
                end) fs)
  end.
End JsvalInd.

(** No [undefined] anywhere and numbers in canonical form: the values
    [JSON.parse] returns. *)
Fixpoint json_defined (v : jsval) : bool :=
  match v with
  | JUndefined => false
  | JNumber n => num_canonical n
  | JArray xs => forallb json_defined xs
  | JObject fs => forallb (fun '(_, x) => json_defined x) fs
  | _ => true
  end.

(** The fuel the parser spends on a value: one unit per value, element
    and member. *)
Fixpoint jsize (v : jsval) : nat :=
  match v with
  | JArray xs => S (sum_list_with (fun x => S (jsize x)) xs)
  | JObject fs => S (sum_list_with (fun '(_, x) => S (jsize x)) fs)
  | _ => 1
  end.

(** ** Lemmas on the parser *)

Lemma parse_value_S k s :
  parse_value (S k) s =
    match skip_ws s with
    | String c r =>
        if Ascii.eqb c "{" then
          match skip_ws r with
          | String c' r' =>
              if Ascii.eqb c' "}" then Some (JObject [], r')
              else match parse_members k r with
                   | Some (fs, r'') => Some (JObject fs, r'')
                   | None => None
                   end
          | EmptyString => None
          end
        else if Ascii.eqb c "[" then
          match skip_ws r with
          | String c' r' =>
              if Ascii.eqb c' "]" then Some (JArray [], r')
              else match parse_elems k r with
                   | Some (xs, r'') => Some (JArray xs, r'')
                   | None => None
                   end
          | EmptyString => None
          end
        else if Ascii.eqb c dquote then
          match parse_chars r with
          | Some (t, r') => Some (JString t, r')
          | None => None
          end
        else if Ascii.eqb c "n" then parse_word "null" JNull (String c r)
        else if Ascii.eqb c "t" then parse_word "true" (JBool true) (String c r)
        else if Ascii.eqb c "f" then parse_word "false" (JBool false) (String c r)
        else match parse_number (String c r) with
             | Some (n, r') => Some (JNumber n, r')
             | None => None
             end
    | EmptyString => None
    end.
Proof. reflexivity. Qed.

Lemma parse_elems_S k s :
  parse_elems (S k) s =
    match parse_value k s with
    | Some (v, r) =>
        match skip_ws r with
        | String c r' =>
            if Ascii.eqb c "," then
              match parse_elems k r' with
              | Some (vs, r'') => Some (v :: vs, r'')
              | None => None
              end
            else if Ascii.eqb c "]" then Some ([v], r')
            else None
        | EmptyString => None
        end
    | None => None
    end.
Proof. reflexivity. Qed.

Lemma skip_ws_nonws c s : is_json_ws c = false -> skip_ws (String c s) = String c s.
Proof. simpl. by intros ->. Qed.

(** A value's text starts with a character that is not white space and
    does not close an array or an object. *)
Definition value_start (c : ascii) : bool :=
  negb (is_json_ws c) && negb (Ascii.eqb c "]") && negb (Ascii.eqb c "}").

Lemma digits_to_string_head c ds n :
  is_digit c = true -> exists c' r, digits_to_string (String c ds) n = String c' r /\ is_digit c' = true.
Proof.
  intros Hc. unfold digits_to_string. cbv zeta.
  assert (Hx : forall t, exists c' r, String c t = String c' r /\ is_digit c' = true) by eauto.
  destruct (Z.leb _ n && Z.leb n 21); [apply Hx|].
  destruct (Z.ltb 0 n && Z.leb n 21) eqn:B2.
  { apply andb_true_iff in B2 as [B2 _]. apply Z.ltb_lt in B2.
    replace (Z.to_nat n) with (S (Z.to_nat (n - 1)))%nat by lia. apply Hx. }
  destruct (Z.ltb (-6) n && Z.leb n 0); [by eexists _, _|].
  destruct ds; apply Hx.
Qed.

Lemma number_to_string_head x :
  exists c r, number_to_string x = String c r /\ (is_digit c = true \/ c = "-"%char).
Proof.
  unfold number_to_string. destruct (num_norm x) as [[|p|p] e]; cbn [num_mant num_exp];
    try change (Z.abs (Z.pos p)) with (Z.pos p); try change (Z.abs (Z.neg p)) with (Z.pos p);
    try change (Z.ltb (Z.pos p) 0) with false; try change (Z.ltb (Z.neg p) 0) with true;
    try change (Z.eqb (Z.pos p) 0) with false; try change (Z.eqb (Z.neg p) 0) with false;
    try change (Z.eqb 0 0) with true; cbv beta iota.
  - exists "0"%char, ""%string. by split; [|left].
  - destruct (z_to_string_pos p) as (c & ds & -> & Hc & _).
    destruct (digits_to_string_head c ds (Z.of_nat (String.length (String c ds)) + e) Hc)
      as (c' & r & E & Hc'). exists c', r. change (""%string +:+ ?t) with t. rewrite E. by split; [|left].
  - destruct (z_to_string_pos p) as (c & ds & -> & Hc & _). exists "-"%char, (digits_to_string (String c ds) (Z.of_nat (String.length (String c ds)) + e)).
    by split; [|right].
Qed.

(** Parsing a number literal: an optional minus, then the unsigned
    literal. *)
Lemma parse_number_unsigned c r :
  Ascii.eqb c "-" = false ->
  parse_number (String c r) =
    match parse_decimal (String c r) with
    | Some (m, e, r') => Some (num_norm (mkNumber m e), r')
    | None => None
    end.
Proof. intros Hc. unfold parse_number. by rewrite Hc. Qed.

Lemma parse_number_minus r :
  parse_number (String "-" r) =
    match parse_decimal r with
    | Some (m, e, r') => Some (num_norm (mkNumber (- m) e), r')
    | None => None
    end.
Proof. done. Qed.

(** The text of a canonical number, followed by a delimiter, parses
    back to it. *)
Lemma parse_number_text x rest :
  num_canonical x = true -> delimited rest = true ->
  parse_number (number_to_string x +:+ rest) = Some (x, rest).
Proof.
  intros Hx Hr. unfold number_to_string. rewrite (num_norm_id x Hx).
  destruct x as [[|p|p] e]; cbn [num_mant num_exp];
    try change (Z.abs (Z.pos p)) with (Z.pos p); try change (Z.abs (Z.neg p)) with (Z.pos p);
    try change (Z.ltb (Z.pos p) 0) with false; try change (Z.ltb (Z.neg p) 0) with true;
    try change (Z.eqb (Z.pos p) 0) with false; try change (Z.eqb (Z.neg p) 0) with false;
    try change (Z.eqb 0 0) with true; cbv beta iota.
  - unfold num_canonical in Hx. cbn in Hx. apply Z.eqb_eq in Hx as ->.
    change ("0" +:+ rest)%string with (String "0" rest).
    rewrite parse_number_unsigned by done.
    rewrite (parse_decimal_pieces _ "0" rest "" rest 0 rest);
      [done|done|by apply parse_frac_delimited|by apply parse_exp_delimited].
  - unfold num_canonical in Hx. cbn [num_mant] in Hx.
    destruct (parse_decimal_digits p e rest Hr) as [j Hj].
    destruct (z_to_string_pos p) as (c & ds & E & Hc & _).
    destruct (digits_to_string_head c ds (Z.of_nat (String.length (String c ds)) + e) Hc)
      as (c' & r & E' & Hc').
    change (""%string +:+ ?t) with t. rewrite E in Hj |- *. rewrite E' in Hj |- *.
    rewrite string_app_cons in Hj |- *.
    rewrite parse_number_unsigned by (by destruct c' as [[] [] [] [] [] [] [] []]).
    rewrite Hj. f_equal. f_equal.
    rewrite num_norm_scale by lia. apply num_norm_id. exact Hx.
  - unfold num_canonical in Hx. cbn [num_mant] in Hx.
    destruct (parse_decimal_digits p e rest Hr) as [j Hj].
    change ("-" +:+ ?t)%string with (String "-" t). rewrite string_app_cons.
    rewrite parse_number_minus, Hj. f_equal. f_equal.
    replace (- (Z.pos p * 10 ^ Z.of_nat j))%Z with (Z.neg p * 10 ^ Z.of_nat j)%Z by lia.
    rewrite num_norm_scale by lia. apply num_norm_id. exact Hx.
Qed.

(** The characters that start an integer literal select the number
    branch of the parser. *)
Lemma number_start c :
  is_digit c = true \/ c = "-"%char ->
  value_start c = true /\ Ascii.eqb c "{" = false /\ Ascii.eqb c "[" = false /\
  Ascii.eqb c dquote = false /\ Ascii.eqb c "n" = false /\ Ascii.eqb c "t" = false /\
  Ascii.eqb c "f" = false.
Proof.
  destruct c as [[] [] [] [] [] [] [] []]; intros [H|H]; try discriminate H; done.
Qed.

Lemma stringify_defined v : json_defined v = true -> exists t, stringify v = Some t.
Proof. destruct v; simpl; try done; eauto. Qed.

Lemma stringify_head v t :
  stringify v = Some t -> exists c r, t = String c r /\ value_start c = true.
Proof.
  destruct v as [| |b|n|s|xs|fs]; simpl; intros Ht; simplify_eq; try by eexists _, _.
  - destruct b; by eexists _, _.
  - destruct (number_to_string_head n) as (c & r & E & Hc). exists c, r. split; [done|].
    by apply number_start.
Qed.

(** The text of [v], followed by a delimiter, parses back to [v] with
    any fuel of at least [jsize v]. *)
Definition roundtrips (v : jsval) : Prop :=
  forall t fuel rest, stringify v = Some t -> jsize v <= fuel -> delimited rest = true ->
  parse_value fuel (t +:+ rest) = Some (v, rest).

Lemma roundtrips_null : roundtrips JNull.
Proof. intros t [|k] rest [= <-] Hf Hr; [simpl in Hf; lia|done]. Qed.

Lemma roundtrips_bool b : roundtrips (JBool b).
Proof. intros t [|k] rest Ht Hf Hr; [simpl in Hf; lia|]. destruct b; injection Ht as <-; reflexivity. Qed.

Lemma roundtrips_number n : num_canonical n = true -> roundtrips (JNumber n).
Proof.
  intros Hn t [|k] rest [= <-] Hf Hr; [simpl in Hf; lia|].
  destruct (number_to_string_head n) as (c & r & E & Hc).
  destruct (number_start c Hc) as (Hs & H1 & H2 & H3 & H4 & H5 & H6).
  unfold value_start in Hs. apply andb_true_iff in Hs as [Hs _].
  apply andb_true_iff in Hs as [Hs _]. apply negb_true_iff in Hs.
  rewrite parse_value_S, E, string_app_cons, skip_ws_nonws by done.
  rewrite H1, H2, H3, H4, H5, H6.
  change (String c (r +:+ rest)) with (String c r +:+ rest). rewrite <- E.
  by rewrite parse_number_text.
Qed.

Lemma roundtrips_string s : roundtrips (JString s).
Proof.
  intros t [|k] rest [= <-] Hf Hr; [simpl in Hf; lia|].
  unfold quote. rewrite string_app_cons, <- string_app_assoc.
  change (String dquote "" +:+ rest) with (String dquote rest).
  rewrite parse_value_S. simpl (skip_ws _). cbv iota beta.
  rewrite (parse_chars_escape s rest). reflexivity.
Qed.

Lemma concat_comma_cons2 t1 t2 ts :
  String.concat "," (t1 :: t2 :: ts) = t1 +:+ String ","%char (String.concat "," (t2 :: ts)).
Proof. reflexivity. Qed.

Lemma parse_value_array k r :
  parse_value (S k) (String "["%char r) =
    match skip_ws r with
    | String c' r' =>
        if Ascii.eqb c' "]" then Some (JArray [], r')
        else match parse_elems k r with
             | Some (xs, r'') => Some (JArray xs, r'')
             | None => None
             end
    | EmptyString => None
    end.
Proof. reflexivity. Qed.

(** The start of a non-empty list of value texts. *)
Lemma concat_values_head ts :
  ts <> [] -> Forall (fun t => exists c r, t = String c r /\ value_start c = true) ts ->
  exists c r, String.concat "," ts = String c r /\ value_start c = true.
Proof.
  intros Hne Hts. destruct ts as [|t [|t' ts]]; [done| |];
    apply Forall_cons in Hts as [(c & r & -> & Hc) _]; [by exists c, r|].
  exists c, (r +:+ String ","%char (String.concat "," (t' :: ts))). by split.
Qed.

Lemma value_start_skip c r :
  value_start c = true -> skip_ws (String c r) = String c r /\ Ascii.eqb c "]" = false /\
                          Ascii.eqb c "}" = false.
Proof.
  unfold value_start. intros H. apply andb_true_iff in H as [H H3].
  apply andb_true_iff in H as [H1 H2]. apply negb_true_iff in H1, H2, H3.
  split_and!; [by apply skip_ws_nonws|done|done].
Qed.

Lemma parse_elems_concat xs k rest :
  xs <> [] -> Forall (fun x => json_defined x = true /\ roundtrips x) xs ->
  sum_list_with (fun x => S (jsize x)) xs <= k ->
  parse_elems k (String.concat "," (map (fun x => default "null" (stringify x)) xs)
                   +:+ String "]"%char rest) = Some (xs, rest).
Proof.
  revert k. induction xs as [|x xs IH]; intros k Hne Hall Hk; [done|].
  apply Forall_cons in Hall as [[Hd Hrt] Hall].
  destruct (stringify_defined x Hd) as [tx Htx].
  destruct k as [|k]; [simpl in Hk; lia|]. simpl in Hk. rewrite parse_elems_S.
  destruct xs as [|y xs].
  - cbn [map String.concat]. rewrite Htx. simpl (default _ _).
    rewrite (Hrt tx k (String "]"%char rest)); [|done|lia|done]. done.
  - cbn [map]. rewrite concat_comma_cons2, Htx. simpl (default _ (Some tx)).
    rewrite <- string_app_assoc, string_app_cons.
    rewrite (Hrt tx k); [|done|lia|done]. simpl (skip_ws _). cbv iota beta.
    rewrite IH; [done|done|done|simpl in Hk |- *; lia].
Qed.

Lemma roundtrips_array xs :
  Forall (fun x => json_defined x = true -> roundtrips x) xs ->
  json_defined (JArray xs) = true -> roundtrips (JArray xs).
Proof.
  intros IH Hd t [|k] rest Ht Hf Hr; [simpl in Hf; lia|]. simpl in Hd, Ht, Hf.
  injection Ht as <-.
  assert (Hall : Forall (fun x => json_defined x = true /\ roundtrips x) xs).
  { rewrite Forall_forall in IH |- *. intros x Hx.
    assert (json_defined x = true) by (apply (proj1 (forallb_forall _ _) Hd); by apply list_elem_of_In).
    auto. }
  replace (("[" +:+ _ +:+ "]") +:+ rest) with
    (String "["%char (String.concat "," (map (fun x => default "null" (stringify x)) xs)
                       +:+ String "]"%char rest)) by (rewrite <- !string_app_assoc; reflexivity).
  rewrite parse_value_array.
  destruct xs as [|x xs]; [done|].
  destruct (concat_values_head (map (fun x => default "null" (stringify x)) (x :: xs)))
    as (c & r & Ec & Hc); [done| |].
  { apply Forall_fmap, (Forall_impl _ _ _ Hall). intros y [Hy _]. simpl.
    destruct (stringify_defined y Hy) as [ty Hty]. rewrite Hty. by apply (stringify_head y). }
  rewrite Ec, string_app_cons. destruct (value_start_skip c (r +:+ String "]"%char rest) Hc)
    as (-> & -> & _).
  rewrite <- string_app_cons, <- Ec, parse_elems_concat; [done|done|done|lia].
Qed.

(** The text of one member of an object. *)
Definition member_text (kv : string * jsval) : string :=
  quote kv.1 +:+ ":" +:+ default "" (stringify kv.2).

Lemma stringify_members fs :
  Forall (fun kv => json_defined kv.2 = true) fs ->
  flat_map (fun kv => match stringify kv.2 with
                      | Some t => [quote kv.1 +:+ ":" +:+ t]
                      | None => []
                      end) fs = map member_text fs.
Proof.
  induction 1 as [|[k v] fs Hv _ IH]; [done|]. simpl in *.
  destruct (stringify_defined v Hv) as [t Ht]. unfold member_text. simpl. by rewrite Ht, IH.
Qed.

Lemma quote_app s x : quote s +:+ x = String dquote (escape s +:+ String dquote x).
Proof. unfold quote. rewrite string_app_cons, <- string_app_assoc. reflexivity. Qed.

Lemma parse_value_object k r :
  parse_value (S k) (String "{"%char r) =
    match skip_ws r with
    | String c' r' =>
        if Ascii.eqb c' "}" then Some (JObject [], r')
        else match parse_members k r with
             | Some (fs, r'') => Some (JObject fs, r'')
             | None => None
             end
    | EmptyString => None
    end.
Proof. reflexivity. Qed.

(** One member: its key, the colon and its value are read, then the
    parser looks at what follows. *)
Lemma parse_members_member k key v tv tail :
  stringify v = Some tv -> roundtrips v -> jsize v <= k -> delimited tail = true ->
  parse_members (S k) (member_text (key, v) +:+ tail) =
    match skip_ws tail with
    | String c3 r4 =>
        if Ascii.eqb c3 "," then
          match parse_members k r4 with
          | Some (fs, r5) => Some ((key, v) :: fs, r5)
          | None => None
          end
        else if Ascii.eqb c3 "}" then Some ([(key, v)], r4)
        else None
    | EmptyString => None
    end.
Proof.
  intros Htv Hrt Hk Ht. unfold member_text. simpl (_.1). simpl (_.2). rewrite Htv.
  simpl (default _ _). rewrite <- string_app_assoc, quote_app.
  rewrite <- string_app_assoc.
  change (":" +:+ (tv +:+ tail)) with (String ":"%char (tv +:+ tail)).
  cbn [parse_members]. rewrite skip_ws_nonws, Ascii.eqb_refl by reflexivity.
  rewrite parse_chars_escape, skip_ws_nonws, Ascii.eqb_refl by reflexivity.
  by rewrite (Hrt tv k tail).
Qed.

Lemma parse_members_concat fs k rest :
  fs <> [] -> Forall (fun kv => json_defined kv.2 = true /\ roundtrips kv.2) fs ->
  sum_list_with (fun '(_, x) => S (jsize x)) fs <= k ->
  parse_members k (String.concat "," (map member_text fs) +:+ String "}"%char rest) =
    Some (fs, rest).
Proof.
  revert k. induction fs as [|[key v] fs IH]; intros k Hne Hall Hk; [done|].
  apply Forall_cons in Hall as [[Hd Hrt] Hall]. simpl in Hd, Hrt.
  destruct (stringify_defined v Hd) as [tv Htv].
  destruct k as [|k]; [simpl in Hk; lia|]. simpl in Hk.
  destruct fs as [|kv' fs].
  - cbn [map String.concat].
    rewrite (parse_members_member k key v tv); [|done|done|lia|done].
    by rewrite skip_ws_nonws by reflexivity.
  - cbn [map]. rewrite concat_comma_cons2, <- string_app_assoc, string_app_cons.
    rewrite (parse_members_member k key v tv); [|done|done|lia|done].
    rewrite skip_ws_nonws by reflexivity. simpl (Ascii.eqb _ _). cbv iota beta.
    rewrite IH; [done|done|done|simpl in Hk |- *; lia].
Qed.

Lemma concat_members_head fs :
  fs <> [] -> exists r, String.concat "," (map member_text fs) = String dquote r.
Proof.
  intros Hne. destruct fs as [|kv [|kv' fs]]; [done| |].
  - unfold member_text. cbn [map String.concat]. rewrite quote_app. by eexists.
  - cbn [map]. rewrite concat_comma_cons2. unfold member_text at 1.
    rewrite <- string_app_assoc, quote_app. by eexists.
Qed.

Lemma roundtrips_object fs :
  Forall (fun kv => json_defined kv.2 = true -> roundtrips kv.2) fs ->
  json_defined (JObject fs) = true -> roundtrips (JObject fs).
Proof.
  intros IH Hd t [|k] rest Ht Hf Hr; [simpl in Hf; lia|]. simpl in Hd, Ht, Hf.
  injection Ht as <-.
  assert (Hall : Forall (fun kv => json_defined kv.2 = true /\ roundtrips kv.2) fs).
  { rewrite Forall_forall in IH |- *. intros [key x] Hx.
    assert (json_defined x = true).
    { apply (proj1 (forallb_forall _ _) Hd (key, x)). by apply list_elem_of_In. }
    split; [done|]. by apply (IH (key, x)). }
  rewrite stringify_members by (eapply Forall_impl; [exact Hall|]; by intros ? []).
  replace (("{" +:+ _ +:+ "}") +:+ rest) with
    (String "{"%char (String.concat "," (map member_text fs) +:+ String "}"%char rest))
    by (rewrite <- !string_app_assoc; reflexivity).
  rewrite parse_value_object.
  destruct fs as [|kv fs]; [done|].
  destruct (concat_members_head (kv :: fs)) as [r E]; [done|].
  rewrite E, string_app_cons, skip_ws_nonws by reflexivity.
  change (Ascii.eqb dquote "}") with false. cbv iota beta.
  rewrite <- string_app_cons, <- E, parse_members_concat; [done|done|done|lia].
Qed.

(** ** The round trip *)

Lemma roundtrips_defined v : json_defined v = true -> roundtrips v.
Proof.
  induction v as [| | | | |xs IH|fs IH] using jsval_ind'; intros Hd; try done.
  - apply roundtrips_null.
  - apply roundtrips_bool.
  - by apply roundtrips_number.
  - apply roundtrips_string.
  - by apply roundtrips_array.
  - by apply roundtrips_object.
Qed.

Lemma normalize_defined v : json_defined (normalize v) = true.
Proof.
  induction v as [| | |n| |xs IH|fs IH] using jsval_ind'; try done; simpl;
    [apply num_norm_canonical| |].
  - apply forallb_forall. intros y Hy. apply in_map_iff in Hy as (x & <- & Hx).
    rewrite Forall_forall in IH. apply IH. by apply list_elem_of_In.
  - induction IH as [|[k x] fs Hx _ IHfs]; [done|]. simpl in *.
    destruct (is_undefined x); simpl; [done|]. by rewrite Hx, IHfs.
Qed.

(** [undefined] reads as [null] where it is serialised at all. *)
Lemma stringify_normalize v :
  stringify (normalize v) = match v with JUndefined => Some "null"%string | _ => stringify v end.
Proof.
  induction v as [| | |n| |xs IH|fs IH] using jsval_ind'; try done; simpl;
    [unfold number_to_string; by rewrite (num_norm_id (num_norm n) (num_norm_canonical n))| |].
  - do 4 f_equal. rewrite map_map. apply map_ext_Forall.
    eapply Forall_impl; [exact IH|]. intros x ->. by destruct x.
  - do 4 f_equal. induction IH as [|[k x] fs Hx _ IHfs]; [done|]. simpl in Hx.
    destruct (is_undefined x) eqn:Hu.
    + destruct x; try discriminate Hu. exact IHfs.
    + cbn [flat_map snd fst]. rewrite Hu. rewrite !flat_map_app. simpl.
      rewrite Hx, !app_nil_r. destruct x; try discriminate Hu; simpl; by f_equal.
Qed.

Lemma concat_comma_length ts :
  sum_list_with (fun t => S (String.length t)) ts <= S (String.length (String.concat "," ts)).
Proof.
  induction ts as [|t [|t' ts] IH]; [simpl; lia|cbn [sum_list_with String.concat]; lia|].
  rewrite concat_comma_cons2, string_length_app. cbn [String.length sum_list_with] in *. lia.
Qed.

Lemma sum_list_with_le {A} (f g : A -> nat) l :
  Forall (fun x => f x <= g x) l -> sum_list_with f l <= sum_list_with g l.
Proof. induction 1; simpl; lia. Qed.

Lemma sum_list_with_map {A B} (g : B -> nat) (h : A -> B) l :
  sum_list_with g (map h l) = sum_list_with (fun x => g (h x)) l.
Proof. induction l; simpl; lia. Qed.

Lemma quote_length s : 2 <= String.length (quote s).
Proof. unfold quote. cbn [String.length]. rewrite string_length_app. simpl. lia. Qed.

(** A value's text is at least as long as the fuel its parse needs. *)
Lemma jsize_le_length w :
  json_defined w = true -> forall t, stringify w = Some t -> jsize w <= String.length t.
Proof.
  induction w as [| |b|n|s|xs IH|fs IH] using jsval_ind'; intros Hd t Ht; simpl in Ht;
    simplify_eq; simpl.
  - lia.
  - destruct b; simpl; lia.
  - destruct (number_to_string_head n) as (c & r & -> & _). simpl. lia.
  - pose proof (quote_length s). lia.
  - rewrite !string_length_app. cbn [String.length].
    pose proof (concat_comma_length (map (fun x => default "null"%string (stringify x)) xs)).
    rewrite sum_list_with_map in H.
    enough (sum_list_with (fun x => S (jsize x)) xs <=
            sum_list_with (fun x => S (String.length (default "null"%string (stringify x)))) xs)
      by lia.
    apply sum_list_with_le. rewrite Forall_forall in IH |- *. intros x Hx.
    assert (Hdx : json_defined x = true)
      by (apply (proj1 (forallb_forall _ _) Hd); by apply list_elem_of_In).
    destruct (stringify_defined x Hdx) as [tx Htx]. rewrite Htx. simpl.
    specialize (IH x Hx Hdx tx Htx). lia.
  - assert (Hall : Forall (fun kv => json_defined kv.2 = true) fs).
    { apply Forall_forall. intros [k x] Hx.
      apply (proj1 (forallb_forall _ _) Hd (k, x)). by apply list_elem_of_In. }
    rewrite stringify_members by done. rewrite !string_length_app. cbn [String.length].
    pose proof (concat_comma_length (map member_text fs)) as Hc.
    rewrite sum_list_with_map in Hc.
    enough (sum_list_with (fun '(_, x) => S (jsize x)) fs <=
            sum_list_with (fun kv => S (String.length (member_text kv))) fs) by lia.
    apply sum_list_with_le. rewrite Forall_forall in IH, Hall |- *. intros [k x] Hx.
    specialize (Hall _ Hx). simpl in Hall.
    destruct (stringify_defined x Hall) as [tx Htx].
    specialize (IH _ Hx Hall tx Htx). simpl in IH.
    unfold member_text. simpl. rewrite Htx. simpl. rewrite !string_length_app.
    pose proof (quote_length k). cbn [String.length]. lia.
Qed.

(** ** The round trip *)

(** Round trip: the text [JSON.stringify] produces for a value parses
    back, by [JSON.parse], to that value with its [undefined] array
    elements read as [null] and its [undefined] members absent; in
    particular the text of a value without [undefined] parses back to
    the value itself. *)
Theorem json_roundtrip v t : stringify v = Some t -> JSON_parse t = Some (normalize v).
Proof.
  intros Ht.
  assert (Hn : stringify (normalize v) = Some t) by (rewrite stringify_normalize; by destruct v).
  pose proof (roundtrips_defined (normalize v) (normalize_defined v) t (S (String.length t)) ""
                Hn) as H.
  unfold JSON_parse. rewrite string_app_empty_r in H. rewrite H; [done| |done].
  pose proof (jsize_le_length (normalize v) (normalize_defined v) t Hn). lia.
Qed.
