(* ===== verification/Api.v ===== *)
(** * The API client ([src/src/lib/api.ts])

    Each method of the [api] object is an [async] function:
    [const res = await fetch(url, init); return res.json();].  It is
    modelled as a computation of the small promise monad of this file
    ([promise]): it resolves, rejects, or awaits a [fetch] of a request
    and continues with the [Response].  [fetch] rejects when the
    transport fails; [res.json()] ([res_json]) parses the body text and
    rejects when it is not JSON.  The client never looks at the status:
    a server-reported error is a resolved value like any other.

    The base URL of the requests is the text of [API_BASE], the section
    variable [base] of [Client].  A JSON body is the text
    [JSON.stringify] gives for the object literal of the method
    ([Json.stringify]); [api_bodies_received] shows that this text parses
    back to the members the code wrote.  The response interfaces are
    records ([AuthResponse], [ChatResponse], [UploadResponse]); the
    readers [AuthResponse_of], ... say when a parsed body has them, a
    test the client itself never performs. *)

From S2P Require Import Prelude Js Json.

Local Open Scope string_scope.

(** [import.meta.env.VITE_API_URL || 'http://localhost:5000']: the
    variable when it is truthy, the default otherwise. *)
Definition API_BASE (VITE_API_URL : jsval) : jsval :=
  (VITE_API_URL || JString "http://localhost:5000")%js.

(** ** The response interfaces *)

Record AuthResponse := mkAuthResponse {
  ar_user_id : string;
  ar_email : option string;
  ar_error : option string
}.

Record ChatResponse := mkChatResponse {
  cr_user_id : string;
  cr_response : string;
  cr_timestamp : string;
  cr_error : option string
}.

Record UploadResponse := mkUploadResponse {
  ur_processed : option (list (string * jsval));
  ur_error : option string
}.

(** ** Requests: the arguments of [fetch] *)

(** A value appended to a [FormData]: a string or a file. *)
Inductive form_value :=
| FormString (s : string)
| FormBlob (f : File).

(** The [body] member of a [fetch] init: absent (or [undefined]), a
    string sent as it is, or the entries of a [FormData] in append
    order. *)
Inductive body :=
| NoBody
| StringBody (text : string)
| FormBody (entries : list (string * form_value)).

Record request := mkRequest {
  req_method : string;
  req_url : string;
  req_headers : list (string * string);
  req_body : body
}.

(** [body: JSON.stringify(v)]: [JSON.stringify] returns [undefined] only
    for [undefined], and [fetch] sends no body then. *)
Definition json_body (v : jsval) : body :=
  match stringify v with
  | Some t => StringBody t
  | None => NoBody
  end.

Definition json_headers : list (string * string) :=
  [("Content-Type", "application/json")].

(** ** Promises *)

(** The [Response] an awaited [fetch] resolves to. *)
Record response := mkResponse { res_status : Z; res_text : string }.

Inductive promise (A : Type) : Type :=
| Resolved (a : A)
| Rejected
| AwaitFetch (r : request) (k : response -> promise A).
Arguments Resolved {A} a.
Arguments Rejected {A}.
Arguments AwaitFetch {A} r k.

Fixpoint promise_bind {A B} (p : promise A) (f : A -> promise B) : promise B :=
  match p with
  | Resolved a => f a
  | Rejected => Rejected
  | AwaitFetch r k => AwaitFetch r (fun res => promise_bind (k res) f)
  end.

Declare Scope promise_scope.
Delimit Scope promise_scope with promise.
Notation "x <- p ;; q" := (promise_bind p (fun x => q))
  (at level 100, p at next level, right associativity) : promise_scope.

(** [fetch(url, init)]. *)
Definition fetch (r : request) : promise response := AwaitFetch r Resolved.

(** [res.json()]. *)
Definition res_json (res : response) : promise jsval :=
  match JSON_parse (res_text res) with
  | Some v => Resolved v
  | None => Rejected
  end.

(** The promise an [api] method returns; the screens keep it as the
    request in flight. *)
Abbreviation api_call := (promise jsval).

(** ** The methods *)

Section Client.
(** The text [${API_BASE}] of the base URL. *)
Variable base : string.
Local Open Scope promise_scope.

Definition register (name email password : string) : api_call :=
  res <- fetch (mkRequest "POST" (base +:+ "/auth/register") json_headers
                  (json_body (JObject [("name", JString name); ("email", JString email);
                                       ("password", JString password)]))) ;;
  res_json res.

Definition login (email password : string) : api_call :=
  res <- fetch (mkRequest "POST" (base +:+ "/auth/login") json_headers
                  (json_body (JObject [("email", JString email);
                                       ("password", JString password)]))) ;;
  res_json res.

Definition guestLogin : api_call :=
  res <- fetch (mkRequest "POST" (base +:+ "/auth/guest") [] NoBody) ;;
  res_json res.

(** [userId] is whatever the session holds: the screens pass on the
    [user_id] member of an authentication response unchecked, so it is a
    [jsval] here, not the [string] the signature declares. *)
Definition chat (userId : jsval) (query : string) (isGuest : bool) : api_call :=
  res <- fetch (mkRequest "POST" (base +:+ "/api/chat") json_headers
                  (json_body (JObject [("user_id", userId); ("query", JString query);
                                       ("is_guest", JBool isGuest)]))) ;;
  res_json res.

(** [FormData.append] converts a value that is not a [Blob] with
    [String]; the file is appended as it is. *)
Definition upload (userId : jsval) (file : File) (isGuest : bool) : api_call :=
  res <- fetch (mkRequest "POST" (base +:+ "/api/upload") []
                  (FormBody [("user_id", FormString (js_String userId));
                             ("file", FormBlob file);
                             ("is_guest", FormString (js_String (JBool isGuest)))])) ;;
  res_json res.
End Client.

(** ** Observations *)

(** The request a promise awaits. *)
Definition promise_request {A} (p : promise A) : option request :=
  match p with AwaitFetch r _ => Some r | _ => None end.

(** The text of the body of the request a call awaits, when it is a
    string. *)
Definition body_text {A} (p : promise A) : option string :=
  match promise_request p with
  | Some r => match req_body r with StringBody t => Some t | _ => None end
  | None => None
  end.

(** The awaited [fetch] delivers: a [Response], or [None] when it
    rejects; the promise continues. *)
Definition settle {A} (p : promise A) (o : option response) : promise A :=
  match p with
  | AwaitFetch _ k => match o with Some res => k res | None => Rejected end
  | _ => p
  end.

(** What an [await] of a settled promise gives the caller: [Some v] when
    it resolved to [v], [None] when it rejected (the caller's [catch]). *)
Definition settled_value {A} (p : promise A) : option A :=
  match p with Resolved a => Some a | _ => None end.

(** ** Readers of the interfaces

    When a JSON value has an interface: the required members have their
    type, an optional one ([?]) is absent or has its type; other members
    may be present. *)

Definition as_string (v : jsval) : option string :=
  match v with JString s => Some s | _ => None end.

Definition as_optional {T} (f : jsval -> option T) (v : jsval) : option (option T) :=
  match v with JUndefined => Some None | _ => option_map Some (f v) end.

Definition as_record (v : jsval) : option (list (string * jsval)) :=
  match v with JObject fs => Some fs | _ => None end.

Definition AuthResponse_of (v : jsval) : option AuthResponse :=
  fs ← as_record v;
  u ← as_string (lookup_field fs "user_id");
  e ← as_optional as_string (lookup_field fs "email");
  er ← as_optional as_string (lookup_field fs "error");
  Some (mkAuthResponse u e er).

Definition ChatResponse_of (v : jsval) : option ChatResponse :=
  fs ← as_record v;
  u ← as_string (lookup_field fs "user_id");
  r ← as_string (lookup_field fs "response");
  t ← as_string (lookup_field fs "timestamp");
  er ← as_optional as_string (lookup_field fs "error");
  Some (mkChatResponse u r t er).

Definition UploadResponse_of (v : jsval) : option UploadResponse :=
  fs ← as_record v;
  p ← as_optional as_record (lookup_field fs "processed");
  er ← as_optional as_string (lookup_field fs "error");
  Some (mkUploadResponse p er).

Definition is_string (v : jsval) : bool :=
  match v with JString _ => true | _ => false end.

(** ** Lemmas *)

(** Every method awaits one [fetch] and returns [res.json()]. *)
Lemma fetch_then_json r : promise_bind (fetch r) res_json = AwaitFetch r res_json.
Proof. done. Qed.

(** The body of a JSON request is a string that parses back to the value
    stringified, with [undefined] normalised away. *)
Lemma json_body_parses v :
  is_undefined v = false ->
  exists t, json_body v = StringBody t /\ JSON_parse t = Some (normalize v).
Proof.
  intros Hu. unfold json_body.
  destruct (stringify v) as [t|] eqn:E; [|by destruct v].
  exists t. split; [done|]. by apply json_roundtrip.
Qed.

Lemma body_text_json_body m u h v (k : response -> api_call) :
  is_undefined v = false ->
  exists t, body_text (AwaitFetch (mkRequest m u h (json_body v)) k) = Some t /\
            JSON_parse t = Some (normalize v).
Proof.
  intros Hu. destruct (json_body_parses v Hu) as (t & Ht & Hp). exists t.
  unfold body_text. simpl. by rewrite Ht.
Qed.

Lemma AuthResponse_of_user_id v r :
  AuthResponse_of v = Some r ->
  exists fs, v = JObject fs /\ lookup_field fs "user_id" = JString (ar_user_id r).
Proof.
  unfold AuthResponse_of. destruct v as [| | | | | |fs]; simpl; try done.
  destruct (lookup_field fs "user_id") as [| | | |u| |] eqn:Hu; simpl; try done.
  destruct (as_optional as_string (lookup_field fs "email")); simpl; [|done].
  destruct (as_optional as_string (lookup_field fs "error")); simpl; [|done].
  intros [= <-]. by exists fs.
Qed.

Lemma ChatResponse_of_members v r :
  ChatResponse_of v = Some r ->
  exists fs, v = JObject fs /\
    lookup_field fs "response" = JString (cr_response r) /\
    lookup_field fs "timestamp" = JString (cr_timestamp r) /\
    as_optional as_string (lookup_field fs "error") = Some (cr_error r).
Proof.
  unfold ChatResponse_of. destruct v as [| | | | | |fs]; simpl; try done.
  destruct (as_string (lookup_field fs "user_id")); simpl; [|done].
  destruct (lookup_field fs "response") as [| | | |rr| |] eqn:Hr; simpl; try done.
  destruct (lookup_field fs "timestamp") as [| | | |tt| |] eqn:Ht; simpl; try done.
  destruct (as_optional as_string (lookup_field fs "error")) eqn:E; simpl; [|done].
  intros [= <-]. by exists fs.
Qed.
