(* ===== verification/Media.v ===== *)
(** * Media classification and rendering

    [getMediaType] of [src/src/components/ChatScreen.tsx], the [media]
    object a sent message carries, and the element each of
    [src/src/components/ChatMessage.tsx] and
    [src/src/components/MediaPreview.tsx] renders for a media item:
    the JSX [cond && <element/>] children are lists that are empty when
    the condition is false.  A render of [MediaPreview] creates an
    object URL for the file ([MediaPreview_render]); the load handlers
    of its media elements revoke it ([fire_loads]). *)

From S2P Require Import Prelude Js.
From Stdlib Require Import Ascii.

Local Open Scope string_scope.

Inductive media_type := MImage | MVideo | MAudio | MFile.

#[export] Instance media_type_eq_dec : EqDecision media_type.
Proof. solve_decision. Defined.

(** The [media] member of a message. *)
Record Media := mkMedia { media_kind : media_type; media_url : string; media_name : string }.

(** The top-level MIME type, [file.type.split('/')[0]]. *)
Definition top_type (f : File) : string := split_first "/"%char (file_type f).

Definition getMediaType (f : File) : media_type :=
  let type := top_type f in
  if String.eqb type "image" then MImage
  else if String.eqb type "video" then MVideo
  else if String.eqb type "audio" then MAudio
  else MFile.

(** ** ChatMessage: the media block of a message *)

Inductive message_media_view :=
| MsgImg (src alt : string)
| MsgVideo (src : string)
| MsgAudio (src : string)
| MsgFileLabel (name : string).

Definition when {A} (b : bool) (x : A) : list A := if b then [x] else [].

(** The children of [<div className="mb-2">], one per [media.type ===]
    test. *)
Definition ChatMessage_media (m : Media) : list message_media_view :=
  when (bool_decide (media_kind m = MImage)) (MsgImg (media_url m) (media_name m)) ++
  when (bool_decide (media_kind m = MVideo)) (MsgVideo (media_url m)) ++
  when (bool_decide (media_kind m = MAudio)) (MsgAudio (media_url m)) ++
  when (bool_decide (media_kind m = MFile)) (MsgFileLabel (media_name m)).

(** ** MediaPreview: the staged attachment *)

Inductive preview_view :=
| PreviewImg (src alt : string)
| PreviewVideo (src : string)
| PreviewAudio (label src : string)
| PreviewGeneric (badge : jsval) (label : string).

(** The four conditional children below the remove button, for the
    object URL [url] created during this render. *)
Definition MediaPreview_body (f : File) (url : string) : list preview_view :=
  let type := top_type f in
  when (String.eqb type "image") (PreviewImg url (file_name f)) ++
  when (String.eqb type "video") (PreviewVideo url) ++
  when (String.eqb type "audio") (PreviewAudio (file_name f) url) ++
  when (negb (existsb (String.eqb type) ["image"; "video"; "audio"]))
    (PreviewGeneric (split_pop "."%char (file_name f)) (file_name f)).

(** The kind of element a preview child is. *)
Definition preview_kind (v : preview_view) : media_type :=
  match v with
  | PreviewImg _ _ => MImage
  | PreviewVideo _ => MVideo
  | PreviewAudio _ _ => MAudio
  | PreviewGeneric _ _ => MFile
  end.

Definition message_media_kind (v : message_media_view) : media_type :=
  match v with
  | MsgImg _ _ => MImage
  | MsgVideo _ => MVideo
  | MsgAudio _ => MAudio
  | MsgFileLabel _ => MFile
  end.

(** ** MediaPreview: the preview's object URL *)

(** The URL the [onLoad] ([img]) or [onLoadedData] ([video], [audio])
    handler of a preview child revokes; the generic child has none. *)
Definition preview_onload (v : preview_view) : option string :=
  match v with
  | PreviewImg src _ => Some src
  | PreviewVideo src => Some src
  | PreviewAudio _ src => Some src
  | PreviewGeneric _ _ => None
  end.

(** One render of [MediaPreview]: [URL.createObjectURL(file)] in the
    body of the component, then its children. *)
Definition MediaPreview_render (u : url_store) (f : File) : list preview_view * url_store :=
  let '(url, u') := createObjectURL u f in (MediaPreview_body f url, u').

(** The rendered media finish loading: each child's handler runs once. *)
Definition fire_loads (u : url_store) (vs : list preview_view) : url_store :=
  fold_left (fun u v => match preview_onload v with
                        | Some url => revokeObjectURL u url
                        | None => u
                        end) vs u.

(** ** Properties *)

Local Close Scope string_scope.

(** C25. The staged preview and the sent message agree: for every file,
    [MediaPreview] renders exactly one element, of the kind
    [getMediaType] gives the message's media, and [ChatMessage] renders
    exactly one element of that kind for the media. *)
Theorem media_preview_matches_message f url url' :
  map preview_kind (MediaPreview_body f url) = [getMediaType f] /\
  map message_media_kind
    (ChatMessage_media (mkMedia (getMediaType f) url' (file_name f))) = [getMediaType f].
Proof.
  unfold MediaPreview_body, ChatMessage_media, getMediaType.
  destruct (String.eqb (top_type f) "image"%string) eqn:Hi.
  { apply String.eqb_eq in Hi. by rewrite Hi. }
  destruct (String.eqb (top_type f) "video"%string) eqn:Hv.
  { apply String.eqb_eq in Hv. by rewrite Hv. }
  destruct (String.eqb (top_type f) "audio"%string) eqn:Ha.
  { apply String.eqb_eq in Ha. by rewrite Ha. }
  simpl. by rewrite Hi, Hv, Ha.
Qed.

(** C26. The badge of a generic file is its extension: the text after
    the last ['.'] of the name (the whole name when it has none), so it
    contains no ['.'] and the name is some prefix ending in ['.'], or
    nothing, followed by the badge. *)
Theorem media_preview_badge f url :
  getMediaType f = MFile ->
  exists ext, MediaPreview_body f url = [PreviewGeneric (JString ext) (file_name f)] /\
    has_char "."%char ext = false /\
    exists pre, file_name f = (pre +:+ ext)%string /\
                (pre = ""%string \/ exists q, pre = (q +:+ ".")%string).
Proof.
  intros Hm.
  destruct (last (split_on "."%char (file_name f))) as [ext|] eqn:Hl;
    [|apply last_None in Hl; exfalso; exact (split_on_nonempty _ _ Hl)].
  exists ext. split; [|split].
  - unfold MediaPreview_body, split_pop. rewrite Hl.
    unfold getMediaType in Hm.
    destruct (String.eqb (top_type f) "image"%string) eqn:Hi; [done|].
    destruct (String.eqb (top_type f) "video"%string) eqn:Hv; [done|].
    destruct (String.eqb (top_type f) "audio"%string) eqn:Ha; [done|].
    simpl. by rewrite Hi, Hv, Ha.
  - pose proof (split_on_pieces "."%char (file_name f)) as Hp.
    rewrite Forall_forall in Hp. apply Hp.
    by apply last_Some_elem_of.
  - destruct (join_on_last "."%char _ _ Hl) as [pre [Hj Hpre]].
    exists pre. rewrite split_on_join in Hj. split; [done|].
    destruct Hpre as [-> | [q ->]]; [by left|right]. by exists q.
Qed.

(** ** The properties at concrete inputs *)

Lemma media_preview_badge_witness :
  exists ext, MediaPreview_body (mkFile "report.final.pdf" "application/pdf" 3) "blob:1" =
      [PreviewGeneric (JString ext) "report.final.pdf"] /\
    has_char "."%char ext = false /\
    exists pre, "report.final.pdf" = (pre +:+ ext)%string /\
                (pre = ""%string \/ exists q, pre = (q +:+ ".")%string).
Proof. apply media_preview_badge. reflexivity. Defined.

(** C32. The preview's object URL is released only for media: after a
    render of [MediaPreview] and the load of what it rendered, the URL
    created by the render is revoked when the file is an image, a video
    or an audio file, and stays registered with the file's data
    otherwise (the generic child has no load handler). *)
Theorem media_preview_url_lifecycle u f :
  let '(vs, u') := MediaPreview_render u f in
  (getMediaType f <> MFile -> url_live (fire_loads u' vs) !! blob_url (url_next u) = None) /\
  (getMediaType f = MFile ->
     url_live (fire_loads u' vs) !! blob_url (url_next u) = Some (file_blob f)).
Proof.
  unfold MediaPreview_render, MediaPreview_body, getMediaType, createObjectURL.
  remember (top_type f) as t eqn:Ht.
  destruct (String.eqb t "image"%string) eqn:Hi.
  { apply String.eqb_eq in Hi. subst t. rewrite Hi. simpl. split; [|done]. intros _. apply lookup_delete_eq. }
  destruct (String.eqb t "video"%string) eqn:Hv.
  { apply String.eqb_eq in Hv. subst t. rewrite Hv. simpl. split; [|done]. intros _. apply lookup_delete_eq. }
  destruct (String.eqb t "audio"%string) eqn:Ha.
  { apply String.eqb_eq in Ha. subst t. rewrite Ha. simpl. split; [|done]. intros _. apply lookup_delete_eq. }
  cbn [existsb]. rewrite Hi, Hv, Ha. simpl. split; [done|]. intros _. apply lookup_insert_eq.
Qed.

Lemma media_preview_url_lifecycle_witness :
  url_live (fire_loads (MediaPreview_render empty_urls (mkFile "a.png" "image/png" 1)).2
                       (MediaPreview_render empty_urls (mkFile "a.png" "image/png" 1)).1)
    !! blob_url 1 = None.
Proof.
  pose proof (media_preview_url_lifecycle empty_urls (mkFile "a.png" "image/png" 1)) as H.
  destruct (MediaPreview_render _ _) as [vs u'] eqn:E. simpl.
  apply H. vm_compute. discriminate.
Defined.
