(* ===== verification/ChatScreen.v ===== *)
(** * The chat screen ([src/src/components/ChatScreen.tsx])

    The component's React state ([messages], [input], [file],
    [loading]) is the record [chat_state], together with the pending
    continuation of [handleSend] and the document's object-URL registry.
    Its props [userId], [isGuest] and the API base URL are the section
    variables of [Component]: they are fixed for a mounted instance.

    [handleSend] is an async function with two [await]s; it is split
    into the segment that runs on a click or an Enter key
    ([handleSend]), the continuation after [api.upload] settles
    ([on_upload_settled]) and the continuation after [api.chat] settles
    ([on_chat_settled]).  [chat_step] dispatches a UI or network event
    to them, honouring the [disabled] attributes of the rendered page.
    Every state update of a segment is applied before the next event:
    React flushes the updates of a discrete event before the next one
    is dispatched, and the updaters [prev => [...prev, m]] append to the
    current list. *)

From S2P Require Import Prelude Js Api Media.

Local Open Scope string_scope.

(** ** Data *)

Record Message := mkMessage {
  msg_id : string;
  content : jsval;
  isUser : bool;
  timestamp : jsval;
  media : option Media
}.

(** Which [await] of [handleSend] is outstanding, with the locals the
    rest of the body reads. *)
Inductive pending :=
| AwaitUpload (currentInput : string) (currentFile : File)
| AwaitChat.

Record chat_state := mkChat {
  messages : list Message;
  input : string;
  file : option File;
  loading : bool;
  pending_op : option pending;
  urls : url_store
}.

(** What a handler does outside the component: a request sent through
    [api], or a call of the [onLogout] prop. *)
Inductive chat_out :=
| Fetch (r : api_call)
| CallLogout.

Inductive chat_event :=
| InputChange (value : string)                 (** Input [onChange] *)
| FileChange (files : option (list File))      (** hidden file input [onChange] *)
| RemovePreview                                (** MediaPreview [onRemove] *)
| ClickSend (now : Z)                          (** Send button *)
| KeyDown (key : string) (shiftKey : bool) (now : Z) (** Input [onKeyDown] *)
| ClickLogout                                  (** Logout button *)
| UploadSettled (result : option jsval) (now : Z)
| ChatSettled (result : option jsval) (now : Z).

Definition greeting_text : string :=
  "Hello! I'm your Mental Health Assistant. I'm here to listen and support you. How are you feeling today?".
Definition received_text : string := "I received your message.".
Definition ack_text : string :=
  "Thank you for sharing that file. I've processed it and added it to your context.".
Definition connection_error_text : string :=
  "Sorry, I couldn't connect to the server. Please try again.".

(** ** State updates *)

Definition set_input (s : chat_state) (v : string) : chat_state :=
  mkChat (messages s) v (file s) (loading s) (pending_op s) (urls s).

Definition set_file (s : chat_state) (f : option File) : chat_state :=
  mkChat (messages s) (input s) f (loading s) (pending_op s) (urls s).

Definition set_pending (s : chat_state) (p : option pending) : chat_state :=
  mkChat (messages s) (input s) (file s) (loading s) p (urls s).

(** [setMessages(prev => [...prev, m])]. *)
Definition append_message (s : chat_state) (m : Message) : chat_state :=
  mkChat (messages s ++ [m]) (input s) (file s) (loading s) (pending_op s) (urls s).

(** [setLoading(false)] at the end of [handleSend]: no continuation is
    left. *)
Definition finish (s : chat_state) : chat_state :=
  mkChat (messages s) (input s) (file s) false None (urls s).

(** ** Messages the component creates *)

(** The initial [messages]: the greeting, stamped at mount time. *)
Definition greeting (now : Z) : Message :=
  mkMessage "1" (JString greeting_text) false (JString (toISOString now)) None.

Definition chat_init (now : Z) (u : url_store) : chat_state :=
  mkChat [greeting now] "" None false None u.

(** The [userMessage] literal, which also creates the object URL of
    the attachment. *)
Definition user_message (now : Z) (inp : string) (f : option File) (u : url_store)
    : Message * url_store :=
  let '(m, u') :=
    match f with
    | Some fl =>
        let '(url, u') := createObjectURL u fl in
        (Some (mkMedia (getMediaType fl) url (file_name fl)), u')
    | None => (None, u)
    end in
  let text :=
    if String.eqb inp "" then
      match f with Some fl => "Uploaded: " +:+ file_name fl | None => "" end
    else inp in
  (mkMessage (z_to_string now) (JString text) true (JString (toISOString now)) m, u').

(** An assistant message created after an [await]. *)
Definition bot_message (now : Z) (c ts : jsval) : Message :=
  mkMessage (z_to_string (now + 1)) c false ts None.

Definition error_message (now : Z) : Message :=
  bot_message now (JString connection_error_text) (JString (toISOString now)).

Definition ack_message (now : Z) : Message :=
  bot_message now (JString ack_text) (JString (toISOString now)).

(** The [botMessage] built from a chat response [res], evaluating the
    member reads in source order; [None] is the TypeError a [null]
    response throws. *)
Definition bot_reply (now : Z) (res : jsval) : option Message :=
  resp ← get_field res "response";
  c ← (if truthy resp then Some resp
       else err ← get_field res "error"; Some (err || JString received_text)%js);
  ts ← get_field res "timestamp";
  Some (bot_message now c (ts || JString (toISOString now))%js).

(** [!input.trim() && !file] negated: there is something to send. *)
Definition can_send (inp : string) (f : option File) : bool :=
  negb (String.eqb (trim inp) "") || bool_decide (is_Some f).

Section Component.
Variable base : string.
Variable userId : jsval.
Variable isGuest : bool.

(** The rest of the [try] block from [if (currentInput.trim())]. *)
Definition send_text_or_ack (now : Z) (s : chat_state) (currentInput : string)
    (currentFile : option File) : chat_state * list chat_out :=
  if negb (String.eqb (trim currentInput) "") then
    (set_pending s (Some AwaitChat), [Fetch (chat base userId currentInput isGuest)])
  else match currentFile with
       | Some _ => (finish (append_message s (ack_message now)), [])
       | None => (finish s, [])
       end.

(** The synchronous part of [handleSend], up to its first [await]. *)
Definition handleSend (now : Z) (s : chat_state) : chat_state * list chat_out :=
  if negb (can_send (input s) (file s)) then (s, []) else
  let '(um, u') := user_message now (input s) (file s) (urls s) in
  let currentInput := input s in
  let currentFile := file s in
  let s1 := mkChat (messages s ++ [um]) "" None true (pending_op s) u' in
  match currentFile with
  | Some f =>
      (set_pending s1 (Some (AwaitUpload currentInput f)),
       [Fetch (upload base userId f isGuest)])
  | None => send_text_or_ack now s1 currentInput None
  end.

(** [await api.upload(...)] settles: a rejection goes to [catch]. *)
Definition on_upload_settled (now : Z) (r : option jsval) (s : chat_state)
    (currentInput : string) (currentFile : File) : chat_state * list chat_out :=
  match r with
  | None => (finish (append_message s (error_message now)), [])
  | Some _ => send_text_or_ack now s currentInput (Some currentFile)
  end.

(** [await api.chat(...)] settles. *)
Definition on_chat_settled (now : Z) (r : option jsval) (s : chat_state)
    : chat_state * list chat_out :=
  match r ≫= bot_reply now with
  | Some m => (finish (append_message s m), [])
  | None => (finish (append_message s (error_message now)), [])
  end.

Definition handleFileChange (files : option (list File)) (s : chat_state) : chat_state :=
  match files with
  | Some (f :: _) => set_file s (Some f)
  | _ => s
  end.

Definition chat_step (s : chat_state) (e : chat_event) : chat_state * list chat_out :=
  match e with
  | InputChange v => if loading s then (s, []) else (set_input s v, [])
  | FileChange fs => (handleFileChange fs s, [])
  | RemovePreview =>
      match file s with Some _ => (set_file s None, []) | None => (s, []) end
  | ClickSend now =>
      if loading s || negb (can_send (input s) (file s)) then (s, [])
      else handleSend now s
  | KeyDown key shift now =>
      if loading s then (s, [])
      else if String.eqb key "Enter" && negb shift then handleSend now s
      else (s, [])
  | ClickLogout => (s, [CallLogout])
  | UploadSettled r now =>
      match pending_op s with
      | Some (AwaitUpload ci cf) => on_upload_settled now r s ci cf
      | _ => (s, [])
      end
  | ChatSettled r now =>
      match pending_op s with
      | Some AwaitChat => on_chat_settled now r s
      | _ => (s, [])
      end
  end.
End Component.

Local Close Scope string_scope.

(** ** The shape of a step

    Every event does one of four things to the conversation: nothing
    (UI edits, ignored events, logout), start a send (append the user
    message, issue one request, leave a continuation pending), chain
    the chat request after the upload settled, or complete the send
    (append one assistant message, clear the continuation). *)

Definition is_send_event (e : chat_event) : Prop :=
  match e with ClickSend _ | KeyDown _ _ _ => True | _ => False end.

Definition is_settle_event (e : chat_event) : Prop :=
  match e with UploadSettled _ _ | ChatSettled _ _ => True | _ => False end.

Inductive step_shape (s : chat_state) (e : chat_event) : chat_state -> list chat_out -> Prop :=
| shape_quiet s' o :
    messages s' = messages s -> loading s' = loading s -> pending_op s' = pending_op s ->
    Forall (eq CallLogout) o -> step_shape s e s' o
| shape_start um p r s' :
    loading s = false -> is_send_event e -> isUser um = true ->
    messages s' = messages s ++ [um] -> loading s' = true -> pending_op s' = Some p ->
    step_shape s e s' [Fetch r]
| shape_chain ci cf v now r s' :
    pending_op s = Some (AwaitUpload ci cf) -> e = UploadSettled (Some v) now ->
    messages s' = messages s -> loading s' = loading s -> pending_op s' = Some AwaitChat ->
    step_shape s e s' [Fetch r]
| shape_reply p bm s' :
    pending_op s = Some p -> is_settle_event e -> isUser bm = false ->
    messages s' = messages s ++ [bm] -> loading s' = false -> pending_op s' = None ->
    step_shape s e s' [].

#[export] Hint Constructors step_shape : ui.

(** The user message is the user's. *)
Lemma user_message_isUser now inp f u : isUser (user_message now inp f u).1 = true.
Proof. unfold user_message. destruct f as [fl|]; [destruct (createObjectURL u fl)|]; done. Qed.

Lemma bot_reply_isUser now res m : bot_reply now res = Some m -> isUser m = false.
Proof.
  unfold bot_reply. intros H.
  destruct (get_field res "response"%string); simpl in H; [|done].
  destruct (truthy _); [|destruct (get_field res "error"%string)]; simpl in H; try done;
  destruct (get_field res "timestamp"%string); simpl in H; by simplify_eq.
Qed.

Section Shape.
Context (base : string) (userId : jsval) (isGuest : bool).
Abbreviation step := (chat_step base userId isGuest).

Lemma handleSend_shape now s e :
  loading s = false -> is_send_event e -> can_send (input s) (file s) = true ->
  step_shape s e (handleSend base userId isGuest now s).1
                 (handleSend base userId isGuest now s).2.
Proof.
  intros Hl He Hc. unfold handleSend. rewrite Hc. simpl.
  pose proof (user_message_isUser now (input s) (file s) (urls s)) as Hu.
  destruct (user_message now (input s) (file s) (urls s)) as [um u'] eqn:Hum.
  simpl in Hu. destruct (file s) as [f|] eqn:Hf.
  - eapply shape_start; simpl; eauto.
  - unfold can_send in Hc. simpl in Hc.
    rewrite orb_false_r in Hc. unfold send_text_or_ack. rewrite Hc.
    eapply shape_start; simpl; eauto.
Qed.

Lemma upload_settled_shape s ci cf r now :
  pending_op s = Some (AwaitUpload ci cf) ->
  step_shape s (UploadSettled r now)
    (on_upload_settled base userId isGuest now r s ci cf).1
    (on_upload_settled base userId isGuest now r s ci cf).2.
Proof.
  intros Hp. unfold on_upload_settled. destruct r as [v|].
  - unfold send_text_or_ack. destruct (negb _).
    + eapply shape_chain; eauto.
    + eapply shape_reply; simpl; eauto; done.
  - eapply shape_reply; simpl; eauto; done.
Qed.

Lemma chat_settled_shape s r now :
  pending_op s = Some AwaitChat ->
  step_shape s (ChatSettled r now)
    (on_chat_settled now r s).1 (on_chat_settled now r s).2.
Proof.
  intros Hp. unfold on_chat_settled.
  destruct (r ≫= bot_reply now) as [m|] eqn:Hm.
  - destruct r as [res|]; simpl in Hm; [|done].
    eapply shape_reply; simpl; eauto using bot_reply_isUser; done.
  - eapply shape_reply; simpl; eauto; done.
Qed.

Lemma chat_step_shape s e : step_shape s e (chat_step base userId isGuest s e).1 (chat_step base userId isGuest s e).2.
Proof.
  destruct e as [v|fs| |now|key shift now| |r now|r now]; simpl.
  - destruct (loading s); by apply shape_quiet.
  - unfold handleFileChange. destruct fs as [[|f fs]|]; by apply shape_quiet.
  - destruct (file s); by apply shape_quiet.
  - destruct (loading s) eqn:Hl; [by apply shape_quiet|].
    destruct (can_send _ _) eqn:Hc; [|by apply shape_quiet].
    by apply handleSend_shape.
  - destruct (loading s) eqn:Hl; [by apply shape_quiet|].
    destruct (String.eqb key "Enter"%string && negb shift); [|by apply shape_quiet].
    destruct (can_send (input s) (file s)) eqn:Hc.
    + by apply handleSend_shape.
    + unfold handleSend. rewrite Hc. by apply shape_quiet.
  - by apply shape_quiet; repeat constructor.
  - destruct (pending_op s) as [[ci cf|]|] eqn:Hp; try by apply shape_quiet.
    by apply upload_settled_shape.
  - destruct (pending_op s) as [[ci cf|]|] eqn:Hp; try by apply shape_quiet.
    by apply chat_settled_shape.
Qed.
End Shape.

(** ** Invariants of the reachable states *)

(** The roles of the messages: the greeting, then user/assistant pairs,
    then the user message of a send in progress. *)
Definition conversation_shape (ms : list Message) (busy : bool) : Prop :=
  exists n, map isUser ms =
    false :: concat (repeat [true; false] n) ++ (if busy then [true] else []).

Definition chat_inv (s : chat_state) : Prop :=
  loading s = bool_decide (is_Some (pending_op s)) /\
  conversation_shape (messages s) (loading s).

(** The requests among a handler's outputs. *)
Definition requests (o : list chat_out) : list api_call :=
  omap (fun x => match x with Fetch r => Some r | CallLogout => None end) o.

Lemma requests_quiet o : Forall (eq CallLogout) o -> requests o = [].
Proof. induction 1 as [|x o <- _ IH]; simpl; done. Qed.

Lemma concat_repeat_snoc {A} (l : list A) n :
  concat (repeat l n) ++ l = concat (repeat l (S n)).
Proof.
  induction n as [|n IH]; simpl; [by rewrite !app_nil_r|].
  rewrite <- app_assoc, IH. done.
Qed.

Lemma chat_init_inv t0 u : chat_inv (chat_init t0 u).
Proof. split; [done|]. by exists 0. Qed.

(** One conversation extends another. *)
Definition msgs_prefix (s s' : chat_state) : Prop := messages s `prefix_of` messages s'.

#[export] Instance msgs_prefix_preorder : PreOrder msgs_prefix.
Proof. unfold msgs_prefix. split; [intros ?; done|intros ??? ??; by etrans]. Qed.

Section Invariants.
Context (base : string) (userId : jsval) (isGuest : bool).
Abbreviation step := (chat_step base userId isGuest).

Lemma chat_inv_step s e : chat_inv s -> chat_inv (chat_step base userId isGuest s e).1.
Proof.
  intros [Hl [n Hn]]. destruct (chat_step_shape base userId isGuest s e)
    as [s' o Hm Hl' Hp _|um p r s' Hl0 _ Hu Hm Hl' Hp|ci cf v now r s' Hp0 _ Hm Hl' Hp
       |p bm s' Hp0 _ Hb Hm Hl' Hp].
  - split; [by rewrite Hl', Hp|]. exists n. by rewrite Hm, Hl'.
  - split; [by rewrite Hl', Hp|]. exists n.
    rewrite Hm, map_app, Hn, Hl0, Hl'. simpl. rewrite Hu. by rewrite app_nil_r.
  - split; [rewrite Hl', Hl, Hp0, Hp; done|]. exists n. by rewrite Hm, Hl'.
  - rewrite Hp0 in Hl. simpl in Hl.
    split; [by rewrite Hl', Hp|]. exists (S n).
    rewrite Hm, map_app, Hn, Hl, Hl'. cbn [map]. rewrite Hb, app_nil_r.
    rewrite <- concat_repeat_snoc. simpl. by rewrite <- app_assoc.
Qed.

Lemma chat_reachable_inv t0 u s : reachable (chat_step base userId isGuest) (chat_init t0 u) s -> chat_inv s.
Proof.
  apply reachable_ind_inv; [apply chat_init_inv|]. intros ??. apply chat_inv_step.
Qed.

Lemma chat_step_prefix s e : messages s `prefix_of` messages (chat_step base userId isGuest s e).1.
Proof.
  destruct (chat_step_shape base userId isGuest s e)
    as [s' o Hm|um p r s' _ _ _ Hm|ci cf v now r s' _ _ Hm|p bm s' _ _ _ Hm];
    rewrite Hm; auto with ui.
Qed.
End Invariants.

(** ** Properties of the chat screen *)

Section Properties.
Context (base : string) (userId : jsval) (isGuest : bool).
Abbreviation step := (chat_step base userId isGuest).

(** C1. In every state reachable from mount, the [loading] flag is set
    exactly when a continuation of [handleSend] is outstanding: the
    "Thinking..." indicator and the disabled controls track the
    in-flight send. *)
Theorem chat_loading_iff_pending t0 u s :
  reachable (chat_step base userId isGuest) (chat_init t0 u) s ->
  loading s = bool_decide (is_Some (pending_op s)).
Proof. intros Hr. apply (chat_reachable_inv base userId isGuest t0 u s Hr). Qed.

(** C2. In every reachable state the conversation is the greeting,
    then pairs of one user message and one assistant message, then,
    while [loading], the user message of the send in progress: every
    send is answered by exactly one assistant message before the next
    send starts. *)
Theorem chat_conversation_alternates t0 u s :
  reachable (chat_step base userId isGuest) (chat_init t0 u) s ->
  exists n, map isUser (messages s) =
    false :: concat (repeat [true; false] n) ++ (if loading s then [true] else []).
Proof. intros Hr. apply (chat_reachable_inv base userId isGuest t0 u s Hr). Qed.

(** C3. At most one request is in flight: a step of a reachable state
    issues at most one request, and only when no request was
    outstanding or when the outstanding upload just resolved (the
    chat request follows its upload); the issued request leaves a
    continuation waiting for it. *)
Theorem chat_single_request_in_flight t0 u s e :
  reachable (chat_step base userId isGuest) (chat_init t0 u) s ->
  length (requests (chat_step base userId isGuest s e).2) <= 1 /\
  (requests (chat_step base userId isGuest s e).2 <> [] ->
     is_Some (pending_op (chat_step base userId isGuest s e).1) /\
     (pending_op s = None \/
      exists ci cf v now, pending_op s = Some (AwaitUpload ci cf) /\
                          e = UploadSettled (Some v) now)).
Proof.
  intros Hr. destruct (chat_reachable_inv base userId isGuest t0 u s Hr) as [Hl _].
  destruct (chat_step_shape base userId isGuest s e)
    as [s' o _ _ _ Ho|um p r s' Hl0 _ _ _ _ Hp|ci cf v now r s' Hp0 He _ _ Hp
       |p bm s' _ _ _ _ _ _].
  - rewrite requests_quiet by done. simpl. split; [lia|done].
  - split; [simpl; lia|]. intros _. rewrite Hp. split; [by eexists|left].
    rewrite Hl0 in Hl. destruct (pending_op s); [|done].
    rewrite bool_decide_eq_true_2 in Hl; [done|by eexists].
  - split; [simpl; lia|]. intros _. rewrite Hp. split; [by eexists|right].
    by exists ci, cf, v, now.
  - simpl. split; [lia|done].
Qed.

(** With nothing to send (the input is blank after [trim] and no
    file is staged) neither the Send button nor the Enter key changes
    the state or issues a request. *)
Theorem chat_nothing_to_send_noop s now key shift :
  trim (input s) = ""%string -> file s = None ->
  chat_step base userId isGuest s (ClickSend now) = (s, []) /\ chat_step base userId isGuest s (KeyDown key shift now) = (s, []).
Proof.
  intros Ht Hf. assert (Hc : can_send (input s) (file s) = false)
    by (unfold can_send; by rewrite Ht, Hf).
  simpl. rewrite Hc, orb_true_r. split; [done|].
  destruct (loading s); [done|]. case_ifs; [|done].
  unfold handleSend. by rewrite Hc.
Qed.

(** C12. While a send is in progress, user interface events (typing,
    choosing or removing a file, Send, Enter, Logout) neither change
    the conversation nor the pending continuation, and issue no
    request: only the settlement of the outstanding request advances
    the send. *)
Theorem chat_ui_events_while_loading s e :
  loading s = true -> ~ is_settle_event e ->
  messages (chat_step base userId isGuest s e).1 = messages s /\
  pending_op (chat_step base userId isGuest s e).1 = pending_op s /\
  requests (chat_step base userId isGuest s e).2 = [].
Proof.
  intros Hl He. destruct (chat_step_shape base userId isGuest s e)
    as [s' o Hm _ Hp Ho|um p r s' Hl0|ci cf v now r s' _ He'|p bm s' _ He'].
  - by rewrite requests_quiet.
  - congruence.
  - subst. done.
  - done.
Qed.

(** C13. Messages are append-only: along any run of events, the
    conversation before is a prefix of the conversation after (a
    message, its [media] included, never changes once appended; from
    mount on, the greeting stays first). *)
Theorem chat_messages_append_only s es :
  messages s `prefix_of` messages (run (chat_step base userId isGuest) s es).1.
Proof.
  apply (run_preorder step msgs_prefix).
  apply chat_step_prefix.
Qed.
End Properties.

(** ** Behaviour of each branch of a send *)

(** The event that settles the promise a continuation waits for. *)
Definition settlement (p : pending) (r : option jsval) (now : Z) : chat_event :=
  match p with
  | AwaitUpload _ _ => UploadSettled r now
  | AwaitChat => ChatSettled r now
  end.

Lemma trim_nonblank_eqb s : trim s <> ""%string -> String.eqb (trim s) "" = false.
Proof. apply String.eqb_neq. Qed.

Section Branches.
Context (base : string) (userId : jsval) (isGuest : bool).
Abbreviation step := (chat_step base userId isGuest).

Lemma chat_settled_reply s res now :
  pending_op s = Some AwaitChat ->
  chat_step base userId isGuest s (ChatSettled (Some res) now) =
    (finish (append_message s (default (error_message now) (bot_reply now res))), []).
Proof.
  intros Hp. cbn [chat_step]. rewrite Hp. unfold on_chat_settled.
  change (Some res ≫= bot_reply now) with (bot_reply now res).
  destruct (bot_reply now res); reflexivity.
Qed.

(** C5. A chat response whose [response] member is a non-empty string
    [r] and whose [timestamp] is a non-empty string [ts] appends one
    assistant message with content [r] and timestamp [ts], and ends
    the send. *)
Theorem chat_reply_uses_response s fs r ts now :
  pending_op s = Some AwaitChat ->
  lookup_field fs "response" = JString r -> r <> ""%string ->
  lookup_field fs "timestamp" = JString ts -> ts <> ""%string ->
  chat_step base userId isGuest s (ChatSettled (Some (JObject fs)) now) =
    (finish (append_message s (bot_message now (JString r) (JString ts))), []).
Proof.
  intros Hp Hr Hr' Ht Ht'. rewrite chat_settled_reply by done.
  apply String.eqb_neq in Hr', Ht'.
  unfold bot_reply, js_or. simpl. rewrite Hr, Ht. simpl. by rewrite Hr', Ht'.
Qed.

(** C6. When the [response] member is falsy (absent, [null], [""]),
    the assistant message shows the server's [error] string verbatim. *)
Theorem chat_reply_falls_back_to_error s fs err now :
  pending_op s = Some AwaitChat ->
  truthy (lookup_field fs "response") = false ->
  lookup_field fs "error" = JString err -> err <> ""%string ->
  chat_step base userId isGuest s (ChatSettled (Some (JObject fs)) now) =
    (finish (append_message s (bot_message now (JString err)
       (lookup_field fs "timestamp" || JString (toISOString now))%js)), []).
Proof.
  intros Hp Hr He He'. rewrite chat_settled_reply by done.
  apply String.eqb_neq in He'. unfold bot_reply. simpl. rewrite Hr, He.
  unfold js_or at 2. simpl. by rewrite He'.
Qed.

(** When both [response] and [error] are falsy, the assistant
    message is the generic acknowledgement. *)
Theorem chat_reply_default_text s fs now :
  pending_op s = Some AwaitChat ->
  truthy (lookup_field fs "response") = false ->
  truthy (lookup_field fs "error") = false ->
  chat_step base userId isGuest s (ChatSettled (Some (JObject fs)) now) =
    (finish (append_message s (bot_message now (JString received_text)
       (lookup_field fs "timestamp" || JString (toISOString now))%js)), []).
Proof.
  intros Hp Hr He. rewrite chat_settled_reply by done. unfold bot_reply.
  simpl. rewrite Hr. unfold js_or at 2. simpl. by rewrite He.
Qed.

(** C8. A rejected request (transport failure or a body that is not
    JSON), upload or chat, appends exactly one assistant message with
    the connection-failure text, clears [loading] and issues nothing
    more. *)
Theorem chat_settle_rejected s p now :
  pending_op s = Some p ->
  chat_step base userId isGuest s (settlement p None now) =
    (finish (append_message s (error_message now)), []).
Proof. intros Hp. destruct p; simpl; by rewrite Hp. Qed.

(** C9. A chat response that parses to [null] makes [res.response]
    throw; the [catch] shows the connection-failure text, not a server
    message. *)
Theorem chat_null_response_is_connection_error s res now :
  pending_op s = Some AwaitChat -> nullish res = true ->
  chat_step base userId isGuest s (ChatSettled (Some res) now) =
    (finish (append_message s (error_message now)), []).
Proof.
  intros Hp Hn. rewrite chat_settled_reply by done. unfold bot_reply.
  rewrite (get_field_nullish res "response"%string); [reflexivity|exact Hn].
Qed.

(** C4. Sending text with a staged file awaits the upload before the
    chat: the click appends exactly one user message (the text, with the
    file as media), sets [loading] and issues the upload request alone,
    leaving the send suspended at [await api.upload]; only the upload's
    resolution issues the chat request with the original text, adding
    no message and keeping [loading] until the chat answers. *)
Theorem chat_send_text_and_file s f v t0 t1 :
  loading s = false -> file s = Some f -> trim (input s) <> ""%string ->
  let '(s1, o1) := chat_step base userId isGuest s (ClickSend t0) in
  o1 = [Fetch (upload base userId f isGuest)] /\
  messages s1 = messages s ++ [(user_message t0 (input s) (Some f) (urls s)).1] /\
  pending_op s1 = Some (AwaitUpload (input s) f) /\ loading s1 = true /\
  (let '(s2, o2) := chat_step base userId isGuest s1 (UploadSettled (Some v) t1) in
  o2 = [Fetch (chat base userId (input s) isGuest)] /\
  messages s2 = messages s1 /\ pending_op s2 = Some AwaitChat /\ loading s2 = true).
Proof.
  intros Hl Hf Ht. simpl. rewrite Hl, Hf. unfold can_send.
  rewrite trim_nonblank_eqb by done. simpl. unfold handleSend, can_send.
  rewrite Hf, trim_nonblank_eqb by done. simpl.
  destruct (user_message t0 (input s) (Some f) (urls s)) as [um u'].
  simpl. unfold send_text_or_ack. rewrite trim_nonblank_eqb by done. done.
Qed.

(** C14. With a staged file and an input of white space only, the user
    message shows the white space (the [input || ...] fallback to
    "Uploaded: <name>" only applies to the empty string), only the
    upload is sent, and the canned acknowledgement follows. *)
Theorem chat_blank_text_with_file s f v t0 t1 :
  loading s = false -> file s = Some f ->
  input s <> ""%string -> trim (input s) = ""%string ->
  let '(s2, o) := run (chat_step base userId isGuest) s [ClickSend t0; UploadSettled (Some v) t1] in
  o = [Fetch (upload base userId f isGuest)] /\
  map content (messages s2) =
    map content (messages s) ++ [JString (input s); JString ack_text] /\
  loading s2 = false.
Proof.
  intros Hl Hf Hi Ht. simpl. rewrite Hl, Hf. unfold handleSend, can_send.
  rewrite Hf, Ht. simpl. unfold user_message.
  destruct (createObjectURL (urls s) f) as [url u'].
  apply String.eqb_neq in Hi. simpl. unfold send_text_or_ack. rewrite Ht. simpl.
  rewrite Hi, <- app_assoc, map_app. done.
Qed.
End Branches.

(** ** The properties at concrete inputs *)

#[local] Abbreviation demo_step := (chat_step "http://localhost:5000" (JString "u1") false).
#[local] Abbreviation demo_file := (mkFile "note.txt" "text/plain" 1).
#[local] Abbreviation demo_init := (chat_init 0 empty_urls).
(** "hi" sent, its chat request in flight. *)
#[local] Abbreviation sending := (run demo_step demo_init [InputChange "hi"; ClickSend 1000]).1.
(** "hi" typed and a file staged. *)
#[local] Abbreviation staged := (run demo_step demo_init [InputChange "hi"; FileChange (Some [demo_file])]).1.
(** Only blanks typed and a file staged. *)
#[local] Abbreviation staged_blank :=
  (run demo_step demo_init [InputChange "  "; FileChange (Some [demo_file])]).1.
#[local] Abbreviation ok_reply := [("response", JString "ok"); ("timestamp", JString "T")]%string.

Lemma chat_loading_iff_pending_witness :
  loading sending = bool_decide (is_Some (pending_op sending)).
Proof. apply (chat_loading_iff_pending "http://localhost:5000" (JString "u1") false 0 empty_urls). apply reachable_run. Defined.

Lemma chat_conversation_alternates_witness :
  exists n, map isUser (messages sending) =
    false :: concat (repeat [true; false] n) ++ (if loading sending then [true] else []).
Proof. apply (chat_conversation_alternates "http://localhost:5000" (JString "u1") false 0 empty_urls). apply reachable_run. Defined.

Lemma chat_single_request_in_flight_witness :
  length (requests (demo_step staged (ClickSend 1000)).2) <= 1 /\
  (requests (demo_step staged (ClickSend 1000)).2 <> [] ->
     is_Some (pending_op (demo_step staged (ClickSend 1000)).1) /\
     (pending_op staged = None \/
      exists ci cf v now, pending_op staged = Some (AwaitUpload ci cf) /\
                          ClickSend 1000 = UploadSettled (Some v) now)).
Proof. apply (chat_single_request_in_flight "http://localhost:5000" (JString "u1") false 0 empty_urls). apply reachable_run. Defined.

Lemma chat_send_text_and_file_witness :
  let '(s1, o1) := demo_step staged (ClickSend 1000) in
  o1 = [Fetch (upload "http://localhost:5000" (JString "u1") demo_file false)] /\
  messages s1 = messages staged ++ [(user_message 1000 (input staged) (Some demo_file) (urls staged)).1] /\
  pending_op s1 = Some (AwaitUpload (input staged) demo_file) /\ loading s1 = true /\
  (let '(s2, o2) := demo_step s1 (UploadSettled (Some (JObject [])) 2000) in
  o2 = [Fetch (chat "http://localhost:5000" (JString "u1") (input staged) false)] /\
  messages s2 = messages s1 /\ pending_op s2 = Some AwaitChat /\ loading s2 = true).
Proof.
  apply chat_send_text_and_file; [reflexivity|reflexivity|].
  intros H. vm_compute in H. congruence.
Defined.

Lemma chat_reply_uses_response_witness :
  demo_step sending (ChatSettled (Some (JObject ok_reply)) 2000) =
    (finish (append_message sending (bot_message 2000 (JString "ok") (JString "T"))), []).
Proof.
  apply chat_reply_uses_response; try reflexivity; intros H; discriminate H.
Defined.

Lemma chat_reply_falls_back_to_error_witness :
  demo_step sending (ChatSettled (Some (JObject [("error", JString "bad")]%string)) 2000) =
    (finish (append_message sending (bot_message 2000 (JString "bad")
       (lookup_field [("error", JString "bad")]%string "timestamp"
          || JString (toISOString 2000))%js)), []).
Proof.
  apply chat_reply_falls_back_to_error; try reflexivity; intros H; discriminate H.
Defined.

Lemma chat_reply_default_text_witness :
  demo_step sending (ChatSettled (Some (JObject [])) 2000) =
    (finish (append_message sending (bot_message 2000 (JString received_text)
       (lookup_field [] "timestamp" || JString (toISOString 2000))%js)), []).
Proof. apply chat_reply_default_text; reflexivity. Defined.

Lemma chat_settle_rejected_witness :
  demo_step sending (settlement AwaitChat None 2000) =
    (finish (append_message sending (error_message 2000)), []).
Proof. apply chat_settle_rejected. reflexivity. Defined.

Lemma chat_null_response_is_connection_error_witness :
  demo_step sending (ChatSettled (Some JNull) 2000) =
    (finish (append_message sending (error_message 2000)), []).
Proof. apply chat_null_response_is_connection_error; reflexivity. Defined.

Lemma chat_nothing_to_send_noop_witness :
  demo_step demo_init (ClickSend 1000) = (demo_init, []) /\
  demo_step demo_init (KeyDown "Enter" false 1000) = (demo_init, []).
Proof. apply chat_nothing_to_send_noop; reflexivity. Defined.

Lemma chat_ui_events_while_loading_witness :
  messages (demo_step sending (InputChange "x")).1 = messages sending /\
  pending_op (demo_step sending (InputChange "x")).1 = pending_op sending /\
  requests (demo_step sending (InputChange "x")).2 = [].
Proof. apply chat_ui_events_while_loading; [reflexivity|intros []]. Defined.

Lemma chat_blank_text_with_file_witness :
  let '(s2, o) := run demo_step staged_blank [ClickSend 1000; UploadSettled (Some (JObject [])) 2000] in
  o = [Fetch (upload "http://localhost:5000" (JString "u1") demo_file false)] /\
  map content (messages s2) =
    map content (messages staged_blank) ++ [JString (input staged_blank); JString ack_text] /\
  loading s2 = false.
Proof.
  apply chat_blank_text_with_file; try reflexivity. intros H. discriminate H.
Defined.
