(* ===== verification/ChatSend.v ===== *)
(** * One send, run to completion

    [handleSend] of [src/src/components/ChatScreen.tsx] read as the
    straight-line procedure the spec describes (section 4.3): every
    [await] returns at once with what the network [net] answers.  The
    event machine of [ChatScreen.v], fed the settlements of the requests
    it issued in order ([send_and_settle], driven by [drive]), computes
    the same conversation and the same requests: the split of the async
    function at its [await]s and the functional state updaters do not
    change its meaning.  A send completes after at most two round
    trips. *)

From S2P Require Import Prelude Js Api Media ChatScreen.

Section Sequential.
Context (base : string) (userId : jsval) (isGuest : bool).
Abbreviation step := (chat_step base userId isGuest).

(** What the server answers to each request: the settled value of
    [api.upload]/[api.chat]. *)
Variable net : api_call -> option jsval.

(** [handleSend] as one synchronous run; [t0] is the click,
    [t_upload] and [t_chat] the clock when each [await] returns. *)
Definition handleSend_seq (t0 t_upload t_chat : Z) (s : chat_state)
    : chat_state * list api_call :=
  if negb (can_send (input s) (file s)) then (s, []) else
  let '(um, u') := user_message t0 (input s) (file s) (urls s) in
  let currentInput := input s in
  let currentFile := file s in
  let s1 := mkChat (messages s ++ [um]) "" None true (pending_op s) u' in
  let uploads := match currentFile with
                 | Some f => [upload base userId f isGuest]
                 | None => []
                 end in
  if negb (forallb (fun r => bool_decide (is_Some (net r))) uploads) then
    (finish (append_message s1 (error_message t_upload)), uploads)
  else if negb (String.eqb (trim currentInput) "") then
    let rq := chat base userId currentInput isGuest in
    (finish (append_message s1
       (default (error_message t_chat) (net rq ≫= bot_reply t_chat))),
     uploads ++ [rq])
  else match currentFile with
       | Some _ => (finish (append_message s1 (ack_message t_upload)), uploads)
       | None => (finish s1, uploads)
       end.

(** Deliver to the pending continuation the settlement of [last], the
    request it waits for, until none is pending or [fuel] runs out. *)
Fixpoint drive (t_upload t_chat : Z) (fuel : nat) (s : chat_state)
    (last : option api_call) : chat_state * list api_call :=
  match fuel with
  | O => (s, [])
  | S k =>
      match pending_op s, last with
      | Some p, Some r =>
          let t := match p with AwaitUpload _ _ => t_upload | AwaitChat => t_chat end in
          let '(s', o) := step s (settlement p (net r) t) in
          let '(s'', rs) := drive t_upload t_chat k s' (List.last (map Some (requests o)) None) in
          (s'', requests o ++ rs)
      | _, _ => (s, [])
      end
  end.

(** A click on Send, then the network answering every request. *)
Definition send_and_settle (fuel : nat) (t0 t_upload t_chat : Z) (s : chat_state)
    : chat_state * list api_call :=
  let '(s1, o) := step s (ClickSend t0) in
  let '(s2, rs) := drive t_upload t_chat fuel s1 (List.last (map Some (requests o)) None) in
  (s2, requests o ++ rs).
End Sequential.

Section Refinement.
Context (base : string) (userId : jsval) (isGuest : bool).
Context (net : api_call -> option jsval).
Abbreviation step := (chat_step base userId isGuest).

Lemma on_chat_settled_default now r s :
  on_chat_settled now r s =
    (finish (append_message s (default (error_message now) (r ≫= bot_reply now))), []).
Proof. unfold on_chat_settled. by destruct (r ≫= bot_reply now). Qed.

(** C10. Refinement: from an idle screen, a click on Send followed by
    the network's answers to the requests the machine issued yields
    exactly the conversation and the requests of the sequential
    procedure [handleSend_seq] (the spec's send steps 1 to 8). *)
Theorem send_refines_sequential t0 tu tc s :
  loading s = false ->
  send_and_settle base userId isGuest net 2 t0 tu tc s =
    handleSend_seq base userId isGuest net t0 tu tc s.
Proof.
  intros Hl. unfold send_and_settle, handleSend_seq. cbn [chat_step]. rewrite Hl.
  destruct (can_send (input s) (file s)) eqn:Hc; simpl; [|by destruct (pending_op s)].
  unfold handleSend. rewrite Hc. simpl.
  destruct (user_message t0 (input s) (file s) (urls s)) as [um u'].
  destruct (file s) as [f|] eqn:Hf; simpl.
  - destruct (net (upload base userId f isGuest)) as [v|]; simpl; [|done].
    unfold send_text_or_ack. destruct (String.eqb (trim (input s)) "") eqn:Ht; simpl.
    + done.
    + by rewrite on_chat_settled_default.
  - unfold can_send in Hc. simpl in Hc. rewrite orb_false_r in Hc.
    unfold send_text_or_ack. rewrite Hc. simpl.
    by rewrite on_chat_settled_default.
Qed.
End Refinement.

(** ** Termination of a send *)

Section Termination.
Context (base : string) (userId : jsval) (isGuest : bool).
Context (net : api_call -> option jsval).
Abbreviation step := (chat_step base userId isGuest).
Abbreviation drive := (drive base userId isGuest net).

Lemma drive_idle tu tc k s l : pending_op s = None -> drive tu tc k s l = (s, []).
Proof. intros Hp. destruct k; simpl; [done|]. by rewrite Hp. Qed.

(** Once the driver has emptied the pending slot, more fuel changes
    nothing. *)
Lemma drive_more_fuel tu tc n k s l :
  pending_op (drive tu tc n s l).1 = None -> drive tu tc (n + k) s l = drive tu tc n s l.
Proof.
  revert s l. induction n as [|n IH]; intros s l Hp.
  - simpl in *. by apply drive_idle.
  - simpl in *. destruct (pending_op s) as [p|]; [|done]. destruct l as [r|]; [|done].
    destruct (step s _) as [s' o].
    destruct (drive tu tc n s' _) as [s'' rs] eqn:E. simpl in Hp.
    rewrite IH, E; [done|]. by rewrite E.
Qed.

Lemma handleSend_seq_idle t0 tu tc s :
  pending_op s = None -> loading s = false ->
  loading (handleSend_seq base userId isGuest net t0 tu tc s).1 = false /\
  pending_op (handleSend_seq base userId isGuest net t0 tu tc s).1 = None.
Proof.
  intros Hp Hl. unfold handleSend_seq.
  destruct (can_send _ _); simpl; [|done].
  destruct (user_message _ _ _ _) as [um u']. case_ifs; simpl;
    repeat case_match; done.
Qed.

(** C11. Termination: from any reachable idle state, a click on Send
    followed by the network's answers completes the send within two
    round trips: with any fuel of at least 2 the screen ends idle,
    [loading] off and no continuation pending, whatever the network
    answers. *)
Theorem send_completes t u s fuel t0 tu tc :
  reachable (chat_step base userId isGuest) (chat_init t u) s -> loading s = false -> 2 <= fuel ->
  loading (send_and_settle base userId isGuest net fuel t0 tu tc s).1 = false /\
  pending_op (send_and_settle base userId isGuest net fuel t0 tu tc s).1 = None.
Proof.
  intros Hr Hl Hf.
  destruct (chat_reachable_inv base userId isGuest t u s Hr) as [Hlp _].
  assert (Hp : pending_op s = None).
  { rewrite Hl in Hlp. destruct (pending_op s); [|done].
    rewrite bool_decide_eq_true_2 in Hlp; [done|by eexists]. }
  replace fuel with (2 + (fuel - 2)) by lia.
  pose proof (handleSend_seq_idle t0 tu tc s Hp Hl) as Hseq.
  rewrite <- send_refines_sequential in Hseq by done.
  unfold send_and_settle in *.
  destruct (step s (ClickSend t0)) as [s1 o].
  rewrite (drive_more_fuel tu tc 2 (fuel - 2));
    destruct (drive tu tc 2 s1 _) as [s2 rs]; simpl in *; [done|by destruct Hseq].
Qed.
End Termination.

(** ** The properties at concrete inputs *)

#[local] Abbreviation demo_net := (fun _ : api_call => Some (JObject [("response"%string, JString "ok")])).
#[local] Abbreviation demo_staged :=
  (run (chat_step "http://localhost:5000" (JString "u1") false) (chat_init 0 empty_urls)
     [InputChange "hi"; FileChange (Some [mkFile "note.txt" "text/plain" 1])]).1.

Lemma send_refines_sequential_witness :
  send_and_settle "http://localhost:5000" (JString "u1") false demo_net 2 1000 2000 3000 demo_staged =
    handleSend_seq "http://localhost:5000" (JString "u1") false demo_net 1000 2000 3000 demo_staged.
Proof. apply send_refines_sequential. reflexivity. Defined.

Lemma send_completes_witness :
  loading (send_and_settle "http://localhost:5000" (JString "u1") false demo_net 3 1000 2000 3000
             demo_staged).1 = false /\
  pending_op (send_and_settle "http://localhost:5000" (JString "u1") false demo_net 3 1000 2000 3000
                demo_staged).1 = None.
Proof.
  apply (send_completes _ _ _ _ 0 empty_urls); [apply reachable_run|reflexivity|lia].
Defined.
