(* ===== verification/AuthScreen.v ===== *)
(** * The authentication screen ([src/src/components/AuthScreen.tsx])

    Its React state ([name], [email], [password], [loading], [error])
    is the record [auth_state], with the handler whose [await] is
    outstanding.  The handlers [handleRegister], [handleLogin],
    [handleGuest] are split at their [await] like [handleSend]: the
    click issues the request, the settlement event runs the rest of the
    [try]/[catch].  What a handler does outside the component is an
    output: a request, a [localStorage.setItem], a call of the [onAuth]
    prop.  The mount effect reads [localStorage.getItem("user_id")]; the
    value read is carried by its event. *)

From S2P Require Import Prelude Js Api.

Local Open Scope string_scope.

Inductive auth_pending := AwaitRegister | AwaitLogin | AwaitGuest.

#[export] Instance auth_pending_eq_dec : EqDecision auth_pending.
Proof. solve_decision. Defined.

Record auth_state := mkAuth {
  name : string;
  email : string;
  password : string;
  auth_loading : bool;
  error : jsval;
  auth_pending_op : option auth_pending
}.

Inductive auth_out :=
| AuthFetch (r : api_call)
| SetItem (key value : string)
| OnAuth (userId : jsval) (isGuest : bool).

Inductive auth_event :=
| NameChange (v : string)
| EmailChange (v : string)
| PasswordChange (v : string)
| ClickLogin
| ClickRegister
| ClickGuest
| MountEffect (stored : option string)
| AuthSettled (r : option jsval).

Definition connection_failed_text : string := "Connection failed. Is the server running?".

Definition auth_init : auth_state := mkAuth "" "" "" false (JString "") None.

(** [setLoading(true); setError('')] and the request issued. *)
Definition start (s : auth_state) (p : auth_pending) : auth_state :=
  mkAuth (name s) (email s) (password s) true (JString "") (Some p).

(** [setError(msg)] then [setLoading(false)]. *)
Definition fail_with (s : auth_state) (msg : jsval) : auth_state :=
  mkAuth (name s) (email s) (password s) false msg None.

(** [setLoading(false)] after a success. *)
Definition settle_ok (s : auth_state) : auth_state :=
  mkAuth (name s) (email s) (password s) false (error s) None.

Definition set_name (s : auth_state) (v : string) : auth_state :=
  mkAuth v (email s) (password s) (auth_loading s) (error s) (auth_pending_op s).
Definition set_email (s : auth_state) (v : string) : auth_state :=
  mkAuth (name s) v (password s) (auth_loading s) (error s) (auth_pending_op s).
Definition set_password (s : auth_state) (v : string) : auth_state :=
  mkAuth (name s) (email s) v (auth_loading s) (error s) (auth_pending_op s).

(** The mount effect: [if (access) onAuth(access, false)]. *)
Definition mount_effect (stored : option string) : list auth_out :=
  match stored with
  | Some access => if String.eqb access "" then [] else [OnAuth (JString access) false]
  | None => []
  end.

(** [disabled={loading || !email || !password}] of both submit buttons. *)
Definition submit_disabled (s : auth_state) : bool :=
  auth_loading s || String.eqb (email s) "" || String.eqb (password s) "".

Section Component.
Variable base : string.

Definition handleRegister (s : auth_state) : auth_state * list auth_out :=
  (start s AwaitRegister, [AuthFetch (register base (name s) (email s) (password s))]).

Definition handleLogin (s : auth_state) : auth_state * list auth_out :=
  (start s AwaitLogin, [AuthFetch (login base (email s) (password s))]).

Definition handleGuest (s : auth_state) : auth_state * list auth_out :=
  (start s AwaitGuest, [AuthFetch (guestLogin base)]).

(** The rest of [handleRegister] and [handleLogin] once the request
    settled: [res.error] is read first (a [null] response throws), a
    truthy one becomes the error, otherwise the [user_id] member is
    stored with [String] and reported upward as a non-guest. *)
Definition on_credentials_settled (r : option jsval) (s : auth_state)
    : auth_state * list auth_out :=
  match r ≫= fun res => get_field res "error" with
  | None => (fail_with s (JString connection_failed_text), [])
  | Some err =>
      if truthy err then (fail_with s err, [])
      else
        let uid := default JUndefined (r ≫= fun res => get_field res "user_id") in
        (settle_ok s, [SetItem "user_id" (js_String uid); OnAuth uid false])
  end.

(** The rest of [handleGuest]: [onAuth(res.user_id, true)], whatever
    else the response says. *)
Definition on_guest_settled (r : option jsval) (s : auth_state)
    : auth_state * list auth_out :=
  match r ≫= fun res => get_field res "user_id" with
  | None => (fail_with s (JString connection_failed_text), [])
  | Some uid => (settle_ok s, [OnAuth uid true])
  end.

Definition auth_step (s : auth_state) (e : auth_event) : auth_state * list auth_out :=
  match e with
  | NameChange v => (set_name s v, [])
  | EmailChange v => (set_email s v, [])
  | PasswordChange v => (set_password s v, [])
  | ClickLogin => if submit_disabled s then (s, []) else handleLogin s
  | ClickRegister => if submit_disabled s then (s, []) else handleRegister s
  | ClickGuest => if auth_loading s then (s, []) else handleGuest s
  | MountEffect stored => (s, mount_effect stored)
  | AuthSettled r =>
      match auth_pending_op s with
      | Some AwaitGuest => on_guest_settled r s
      | Some _ => on_credentials_settled r s
      | None => (s, [])
      end
  end.
End Component.

(** ** Properties of the authentication screen *)

Local Close Scope string_scope.

Definition auth_inv (s : auth_state) : Prop :=
  auth_loading s = bool_decide (is_Some (auth_pending_op s)).

(** The requests among a handler's outputs. *)
Definition auth_requests (o : list auth_out) : list api_call :=
  omap (fun x => match x with AuthFetch r => Some r | _ => None end) o.

Lemma bool_decide_is_Some_Some {A} (x : A) : bool_decide (is_Some (Some x)) = true.
Proof. apply bool_decide_eq_true_2. by eexists. Qed.

Lemma bool_decide_is_Some_None {A} : bool_decide (is_Some (@None A)) = false.
Proof. apply bool_decide_eq_false_2. by intros []. Qed.

#[export] Hint Rewrite @bool_decide_is_Some_Some @bool_decide_is_Some_None : ui_rw.

Lemma auth_inv_pending_none s : auth_inv s -> auth_loading s = false -> auth_pending_op s = None.
Proof.
  unfold auth_inv. intros H Hl. rewrite Hl in H.
  destruct (auth_pending_op s); [|done]. by autorewrite with ui_rw in H.
Qed.

Section Properties.
Context (base : string).
Abbreviation step := (auth_step base).

Lemma on_credentials_settled_idle r s :
  auth_loading (on_credentials_settled r s).1 = false /\
  auth_pending_op (on_credentials_settled r s).1 = None /\
  auth_requests (on_credentials_settled r s).2 = [].
Proof. unfold on_credentials_settled. by repeat case_match. Qed.

Lemma on_guest_settled_idle r s :
  auth_loading (on_guest_settled r s).1 = false /\
  auth_pending_op (on_guest_settled r s).1 = None /\
  auth_requests (on_guest_settled r s).2 = [].
Proof. unfold on_guest_settled. by repeat case_match. Qed.

Lemma auth_settled_idle r s p :
  auth_pending_op s = Some p ->
  auth_loading (auth_step base s (AuthSettled r)).1 = false /\
  auth_pending_op (auth_step base s (AuthSettled r)).1 = None /\
  auth_requests (auth_step base s (AuthSettled r)).2 = [].
Proof.
  intros Hp. simpl. rewrite Hp.
  destruct p; [apply on_credentials_settled_idle|apply on_credentials_settled_idle
              |apply on_guest_settled_idle].
Qed.

Lemma auth_click_cases s e :
  e = ClickLogin \/ e = ClickRegister \/ e = ClickGuest ->
  auth_step base s e = (s, []) \/
  exists p r, auth_loading s = false /\ auth_step base s e = (start s p, [AuthFetch r]).
Proof.
  intros He. destruct (auth_loading s) eqn:Hl.
  - left. destruct He as [-> | [-> | ->]]; simpl; unfold submit_disabled; by rewrite ?Hl.
  - destruct He as [-> | [-> | ->]]; simpl; unfold submit_disabled; rewrite ?Hl; simpl;
      case_ifs; try (by left); right; eauto.
Qed.

(** What one event does to the pending slot and the requests. *)
Lemma auth_step_cases s e :
  ((auth_step base s e).1 = s \/
   (auth_loading (auth_step base s e).1 = auth_loading s /\
    auth_pending_op (auth_step base s e).1 = auth_pending_op s)) /\ auth_requests (auth_step base s e).2 = [] \/
  (auth_loading s = false /\ auth_loading (auth_step base s e).1 = true /\
   is_Some (auth_pending_op (auth_step base s e).1) /\ length (auth_requests (auth_step base s e).2) = 1) \/
  (is_Some (auth_pending_op s) /\ auth_loading (auth_step base s e).1 = false /\
   auth_pending_op (auth_step base s e).1 = None /\ auth_requests (auth_step base s e).2 = []).
Proof.
  assert (Hclick : e = ClickLogin \/ e = ClickRegister \/ e = ClickGuest ->
    ((step s e).1 = s \/
     (auth_loading (step s e).1 = auth_loading s /\
      auth_pending_op (step s e).1 = auth_pending_op s)) /\ auth_requests (step s e).2 = [] \/
    (auth_loading s = false /\ auth_loading (step s e).1 = true /\
     is_Some (auth_pending_op (step s e).1) /\ length (auth_requests (step s e).2) = 1)).
  { intros He. destruct (auth_click_cases s e He) as [-> | [p [r [Hl ->]]]].
    - left. by split; [left|].
    - right. simpl. by repeat split; [|eexists]. }
  destruct e as [v|v|v| | | |stored|r]; try (left; split; [by right|done]);
    try (destruct Hclick as [H|H]; [by eauto|by left|by right; left]).
  - left. split; [by left|]. simpl. by destruct stored as [a|]; simpl; case_ifs.
  - destruct (auth_pending_op s) as [p|] eqn:Hp.
    + right; right. split; [by eexists|]. by apply (auth_settled_idle r s p).
    + left. simpl. rewrite Hp. split; [by left|done].
Qed.

Lemma auth_inv_step s e : auth_inv s -> auth_inv (auth_step base s e).1.
Proof.
  unfold auth_inv. intros H.
  destruct (auth_step_cases s e) as [[[-> | [-> ->]] _]|[[_ [-> [[p ->] _]]]|[_ [-> [-> _]]]]];
    done.
Qed.

Lemma auth_reachable_inv s : reachable (auth_step base) auth_init s -> auth_inv s.
Proof. apply reachable_ind_inv; [done|]. intros ??. apply auth_inv_step. Qed.

(** C15. The authentication screen has at most one request in flight:
    in every reachable state [loading] is set exactly when a handler
    awaits its response, and a step issues a request (one) only when
    none is outstanding, leaving its handler waiting. *)
Theorem auth_single_request s e :
  reachable (auth_step base) auth_init s ->
  auth_loading s = bool_decide (is_Some (auth_pending_op s)) /\
  (auth_requests (auth_step base s e).2 <> [] ->
     auth_pending_op s = None /\ is_Some (auth_pending_op (auth_step base s e).1) /\
     length (auth_requests (auth_step base s e).2) = 1).
Proof.
  intros Hr. pose proof (auth_reachable_inv s Hr) as Hi. split; [exact Hi|].
  intros Hne.
  destruct (auth_step_cases s e) as [[_ Ho]|[[Hl [_ [Hp Hn]]]|[_ [_ [_ Ho]]]]];
    try by rewrite Ho in Hne.
  split; [by apply auth_inv_pending_none|done].
Qed.
End Properties.

Section Handlers.
Context (base : string).
Abbreviation step := (auth_step base).

(** With an empty email or an empty password both submit buttons
    are disabled: a click changes nothing and issues no request. *)
Theorem auth_blank_credentials_noop s :
  email s = ""%string \/ password s = ""%string ->
  auth_step base s ClickLogin = (s, []) /\ auth_step base s ClickRegister = (s, []).
Proof.
  intros H. simpl. unfold submit_disabled.
  destruct H as [-> | ->]; by rewrite ?orb_true_r.
Qed.

(** C17. A login or registration whose response has a falsy [error]
    stores [String(res.user_id)] under ["user_id"], then reports
    [res.user_id] upward as a non-guest session, and ends loading. *)
Theorem auth_credentials_success s p fs :
  auth_pending_op s = Some p -> p <> AwaitGuest ->
  truthy (lookup_field fs "error") = false ->
  auth_step base s (AuthSettled (Some (JObject fs))) =
    (settle_ok s, [SetItem "user_id" (js_String (lookup_field fs "user_id"));
                   OnAuth (lookup_field fs "user_id") false]).
Proof.
  intros Hp Hg He. simpl. rewrite Hp.
  destruct p; try done; unfold on_credentials_settled; simpl; by rewrite He.
Qed.

(** C18. A guest login reports [res.user_id] upward as a guest session
    and stores nothing, whatever [error] the response carries. *)
Theorem auth_guest_success s fs :
  auth_pending_op s = Some AwaitGuest ->
  auth_step base s (AuthSettled (Some (JObject fs))) =
    (settle_ok s, [OnAuth (lookup_field fs "user_id") true]).
Proof. intros Hp. simpl. by rewrite Hp. Qed.

(** C19. A login or registration whose response carries a truthy
    [error] shows that value verbatim and neither stores nor reports a
    session. *)
Theorem auth_server_error s p fs :
  auth_pending_op s = Some p -> p <> AwaitGuest ->
  truthy (lookup_field fs "error") = true ->
  auth_step base s (AuthSettled (Some (JObject fs))) = (fail_with s (lookup_field fs "error"), []).
Proof.
  intros Hp Hg He. simpl. rewrite Hp.
  destruct p; try done; unfold on_credentials_settled; simpl; by rewrite He.
Qed.

(** C20. A rejected authentication request, of any of the three
    handlers, shows the fixed connection-failure text, reports no
    session and ends loading. *)
Theorem auth_settle_rejected s p :
  auth_pending_op s = Some p ->
  auth_step base s (AuthSettled None) = (fail_with s (JString connection_failed_text), []).
Proof. intros Hp. simpl. rewrite Hp. by destruct p. Qed.
End Handlers.

(** The outputs a handler can produce, for the events the page
    delivers to a mounted screen (UI events and settlements). *)
Inductive auth_outputs : list auth_out -> Prop :=
| outs_none : auth_outputs []
| outs_fetch r : auth_outputs [AuthFetch r]
| outs_member uid : auth_outputs [SetItem "user_id" (js_String uid); OnAuth uid false]
| outs_guest uid : auth_outputs [OnAuth uid true].

#[export] Hint Constructors auth_outputs : ui.

Lemma auth_step_outputs base s e :
  (forall stored, e <> MountEffect stored) -> auth_outputs (auth_step base s e).2.
Proof.
  intros He. destruct e as [v|v|v| | | |stored|r]; simpl; try constructor;
    try (case_ifs; constructor); [by destruct (He stored)|].
  destruct (auth_pending_op s) as [[| |]|]; try constructor;
    [unfold on_credentials_settled..|unfold on_guest_settled];
    repeat case_match; constructor.
Qed.

(** ** The properties at concrete inputs *)

#[local] Abbreviation demo_step := (auth_step "http://localhost:5000").
#[local] Abbreviation typed :=
  (run demo_step auth_init [EmailChange "a@b.c"; PasswordChange "pw"]).1.
#[local] Abbreviation logging_in := (run demo_step auth_init
  [EmailChange "a@b.c"; PasswordChange "pw"; ClickLogin]).1.
#[local] Abbreviation as_guest := (run demo_step auth_init [ClickGuest]).1.

Lemma auth_single_request_witness :
  auth_loading typed = bool_decide (is_Some (auth_pending_op typed)) /\
  (auth_requests (demo_step typed ClickLogin).2 <> [] ->
     auth_pending_op typed = None /\ is_Some (auth_pending_op (demo_step typed ClickLogin).1) /\
     length (auth_requests (demo_step typed ClickLogin).2) = 1).
Proof. apply auth_single_request. apply reachable_run. Defined.

Lemma auth_blank_credentials_noop_witness :
  demo_step auth_init ClickLogin = (auth_init, []) /\
  demo_step auth_init ClickRegister = (auth_init, []).
Proof. apply auth_blank_credentials_noop. by left. Defined.

Lemma auth_credentials_success_witness :
  demo_step logging_in (AuthSettled (Some (JObject [("user_id", JString "42")]%string))) =
    (settle_ok logging_in,
     [SetItem "user_id" (js_String (lookup_field [("user_id", JString "42")]%string "user_id"));
      OnAuth (lookup_field [("user_id", JString "42")]%string "user_id") false]).
Proof. apply (auth_credentials_success _ _ AwaitLogin); [reflexivity|discriminate|reflexivity]. Defined.

Lemma auth_guest_success_witness :
  demo_step as_guest (AuthSettled (Some (JObject [("user_id", JString "g1")]%string))) =
    (settle_ok as_guest, [OnAuth (lookup_field [("user_id", JString "g1")]%string "user_id") true]).
Proof. apply auth_guest_success. reflexivity. Defined.

Lemma auth_server_error_witness :
  demo_step logging_in (AuthSettled (Some (JObject [("error", JString "Invalid")]%string))) =
    (fail_with logging_in (lookup_field [("error", JString "Invalid")]%string "error"), []).
Proof. apply (auth_server_error _ _ AwaitLogin); [reflexivity|discriminate|reflexivity]. Defined.

Lemma auth_settle_rejected_witness :
  demo_step as_guest (AuthSettled None) =
    (fail_with as_guest (JString connection_failed_text), []).
Proof. apply (auth_settle_rejected _ _ AwaitGuest). reflexivity. Defined.
