(* ===== verification/App.v ===== *)
(** * The root container ([src/src/App.tsx]) and the page around it

    [App] holds [session] ([null] or [{userId, isGuest}]) and renders
    [AuthScreen] while it is [null], [ChatScreen] otherwise.  The
    [world] adds what the page shares with it: the origin's
    [localStorage], the document's object-URL registry, and the mount
    count [gen] that identifies the mounted screen instance.  Switching
    the rendered component unmounts one screen and mounts a fresh one
    (its [useState] initial values); the AuthScreen's mount effect runs
    as it mounts.  A request carries the instance that issued it, and
    its settlement reaches the screen only if that instance is still
    mounted: React drops the state updates of an unmounted component.
    A [Reload] is a new page load: [App]'s state starts at [null] while
    [localStorage] persists. *)

From S2P Require Import Prelude Js Api Media ChatScreen AuthScreen.



Record session := mkSession { sess_userId : jsval; sess_isGuest : bool }.

(** The rendered screen and its component state. *)
Inductive screen :=
| AuthView (a : auth_state)
| ChatView (c : chat_state).

Record world := mkWorld {
  storage : gmap string string;
  app_session : option session;
  view : screen;
  gen : nat;
  doc_urls : url_store
}.

Inductive app_event :=
| AuthUI (e : auth_event)
| ChatUI (e : chat_event)
| Settle (g : nat) (r : option jsval) (now : Z)
| Reload (now : Z).

(** UI events of a screen; settlements and the mount effect come from
    the runtime. *)
Definition auth_ui_event (e : auth_event) : bool :=
  match e with MountEffect _ | AuthSettled _ => false | _ => true end.

Definition chat_ui_event (e : chat_event) : bool :=
  match e with UploadSettled _ _ | ChatSettled _ _ => false | _ => true end.

(** [localStorage.removeItem(k)] and [localStorage.clear()]. *)
Definition localStorage_removeItem (k : string) (st : gmap string string) : gmap string string :=
  delete k st.

Definition localStorage_clear (st : gmap string string) : gmap string string := ∅.

Section App.
Variable base : string.

Definition set_view (w : world) (v : screen) : world :=
  mkWorld (storage w) (app_session w) v (gen w) (doc_urls w).

(** [handleAuth(userId, isGuest)]: [setSession({userId, isGuest})], and
    the re-render mounts a fresh ChatScreen. *)
Definition handleAuth (now : Z) (w : world) (userId : jsval) (isGuest : bool) : world :=
  mkWorld (storage w) (Some (mkSession userId isGuest))
    (ChatView (chat_init now (doc_urls w))) (S (gen w)) (doc_urls w).

(** The effect of one output of an AuthScreen handler. *)
Definition apply_auth_out (now : Z) (acc : world * list (nat * api_call)) (o : auth_out)
    : world * list (nat * api_call) :=
  let '(w, rs) := acc in
  match o with
  | AuthFetch r => (w, rs ++ [(gen w, r)])
  | SetItem k v =>
      (mkWorld (<[k := v]> (storage w)) (app_session w) (view w) (gen w) (doc_urls w), rs)
  | OnAuth userId isGuest => (handleAuth now w userId isGuest, rs)
  end.

Definition apply_auth_outs (now : Z) (w : world) (os : list auth_out)
    : world * list (nat * api_call) :=
  fold_left (apply_auth_out now) os (w, []).

(** [session] is [null]: a fresh AuthScreen mounts and its effect reads
    [localStorage.getItem("user_id"%string)]. *)
Definition mount_auth (now : Z) (w : world) : world * list (nat * api_call) :=
  let w1 := mkWorld (storage w) None (AuthView auth_init) (S (gen w)) (doc_urls w) in
  apply_auth_outs now w1 (mount_effect (storage w !! "user_id"%string)).

(** [handleLogout]: [setSession(null)], [localStorage.removeItem],
    [localStorage.clear()]; the re-render mounts the AuthScreen.  The
    ChatScreen's object URLs stay registered in the document. *)
Definition handleLogout (now : Z) (w : world) (c : chat_state) : world * list (nat * api_call) :=
  let st := localStorage_clear (localStorage_removeItem "user_id"%string (storage w)) in
  mount_auth now (mkWorld st None (view w) (gen w) (urls c)).

(** The effect of the outputs of a ChatScreen handler whose new state
    is [c]. *)
Definition apply_chat_outs (now : Z) (w : world) (c : chat_state) (os : list chat_out)
    : world * list (nat * api_call) :=
  let w1 := set_view w (ChatView c) in
  let reqs := map (fun r => (gen w, r)) (requests os) in
  if existsb (fun o => match o with CallLogout => true | _ => false end) os
  then let '(w2, rs) := handleLogout now w1 c in (w2, reqs ++ rs)
  else (w1, reqs).

(** The event's time for the screens that need one. *)
Definition event_time (e : chat_event) : Z :=
  match e with
  | ClickSend now | KeyDown _ _ now | UploadSettled _ now | ChatSettled _ now => now
  | _ => 0
  end.

Definition app_step (w : world) (e : app_event) : world * list (nat * api_call) :=
  match e, view w, app_session w with
  | AuthUI ae, AuthView a, _ =>
      if auth_ui_event ae then
        let '(a', os) := auth_step base a ae in
        apply_auth_outs 0 (set_view w (AuthView a')) os
      else (w, [])
  | ChatUI ce, ChatView c, Some sess =>
      if chat_ui_event ce then
        let '(c', os) := chat_step base (sess_userId sess) (sess_isGuest sess) c ce in
        apply_chat_outs (event_time ce) w c' os
      else (w, [])
  | Settle g r now, AuthView a, _ =>
      if Nat.eqb g (gen w) then
        let '(a', os) := auth_step base a (AuthSettled r) in
        apply_auth_outs now (set_view w (AuthView a')) os
      else (w, [])
  | Settle g r now, ChatView c, Some sess =>
      if Nat.eqb g (gen w) then
        match pending_op c with
        | Some p =>
            let '(c', os) := chat_step base (sess_userId sess) (sess_isGuest sess) c
                               (settlement p r now) in
            apply_chat_outs now w c' os
        | None => (w, [])
        end
      else (w, [])
  | Reload now, _, _ => mount_auth now (mkWorld (storage w) None (view w) (gen w) empty_urls)
  | _, _, _ => (w, [])
  end.

(** The first page load, with whatever [localStorage] holds. *)
Definition app_init (now : Z) (st : gmap string string) : world :=
  (mount_auth now (mkWorld st None (AuthView auth_init) 0 empty_urls)).1.
End App.

(** ** Invariant of the page *)

(** No session id is persisted, or only an empty one (which the mount
    effect ignores). *)
Definition user_id_blank (st : gmap string string) : Prop :=
  st !! "user_id"%string = None \/ st !! "user_id"%string = Some ""%string.

(** The AuthScreen is rendered exactly when there is no session; a
    non-guest session's id is persisted as [String(userId)], and a guest
    session persists none. *)
Definition app_inv (w : world) : Prop :=
  match view w, app_session w with
  | AuthView _, None => user_id_blank (storage w)
  | ChatView _, Some sess =>
      if sess_isGuest sess then user_id_blank (storage w)
      else storage w !! "user_id"%string = Some (js_String (sess_userId sess))
  | _, _ => False
  end.

Section Invariant.
Context (base : string).
Abbreviation step := (app_step base).

Lemma mount_auth_inv now w : app_inv (mount_auth now w).1.
Proof.
  unfold mount_auth, apply_auth_outs, mount_effect.
  destruct (storage w !! "user_id"%string) as [a|] eqn:Ha; [destruct (String.eqb a "") eqn:Hb|];
    simpl; unfold app_inv; simpl.
  - right. apply String.eqb_eq in Hb. by subst.
  - done.
  - by left.
Qed.

Lemma apply_auth_outs_inv now w a os :
  view w = AuthView a -> app_session w = None -> user_id_blank (storage w) ->
  auth_outputs os -> app_inv (apply_auth_outs now w os).1.
Proof.
  intros Hv Hs Hb Ho. unfold app_inv.
  destruct Ho as [|r|uid|uid]; simpl; try by rewrite Hv, Hs.
  - by rewrite lookup_insert_eq.
  - done.
Qed.

Lemma apply_chat_outs_inv now w c os sess :
  app_session w = Some sess -> (exists c0, view w = ChatView c0) -> app_inv w ->
  app_inv (apply_chat_outs now w c os).1.
Proof.
  intros Hs [c0 Hv] Hi. unfold apply_chat_outs.
  destruct (existsb _ os).
  - unfold handleLogout. destruct (mount_auth _ _) eqn:E. simpl.
    pose proof (mount_auth_inv now (mkWorld (localStorage_clear
      (localStorage_removeItem "user_id" (storage (set_view w (ChatView c)))))
      None (view (set_view w (ChatView c))) (gen (set_view w (ChatView c))) (urls c))) as H.
    by rewrite E in H.
  - unfold app_inv in *. simpl. rewrite Hs. by rewrite Hv, Hs in Hi.
Qed.

Lemma app_inv_step w e : app_inv w -> app_inv (app_step base w e).1.
Proof.
  intros Hi. pose proof Hi as Hi'. unfold app_inv in Hi'.
  destruct e as [ae|ce|g r now|now]; unfold app_step.
  - destruct (view w) as [a|c] eqn:Hv; [|done]. destruct (app_session w) eqn:Hs; [done|].
    destruct (auth_ui_event ae) eqn:Hu; [|done].
    destruct (auth_step base a ae) as [a' os] eqn:Ea.
    eapply apply_auth_outs_inv; [done|done|done|].
    replace os with (auth_step base a ae).2 by by rewrite Ea.
    apply auth_step_outputs. intros st ->. done.
  - destruct (view w) as [a|c] eqn:Hv; [done|]. destruct (app_session w) as [sess|] eqn:Hs; [|done].
    destruct (chat_ui_event ce); [|done].
    destruct (chat_step _ _ _ c ce) as [c' os].
    eapply apply_chat_outs_inv; eauto.
  - destruct (view w) as [a|c] eqn:Hv; destruct (app_session w) as [sess|] eqn:Hs; try done;
      destruct (Nat.eqb g (gen w)); try done.
    + destruct (auth_step base a (AuthSettled r)) as [a' os] eqn:Ea.
      eapply apply_auth_outs_inv; [done|done|done|].
      replace os with (auth_step base a (AuthSettled r)).2 by by rewrite Ea.
      by apply auth_step_outputs.
    + destruct (pending_op c); [|done].
      destruct (chat_step _ _ _ c _) as [c' os].
      eapply apply_chat_outs_inv; eauto.
  - apply mount_auth_inv.
Qed.

Lemma app_reachable_inv now st w : reachable (app_step base) (app_init now st) w -> app_inv w.
Proof.
  apply reachable_ind_inv; [apply mount_auth_inv|]. intros ??. apply app_inv_step.
Qed.
End Invariant.

(** ** Properties of the page *)

Section Properties.
Context (base : string).
Abbreviation step := (app_step base).

(** C21. In every world reachable from a page load, whatever
    [localStorage] held, the AuthScreen is shown exactly when there is
    no session and the ChatScreen exactly when there is one; a
    non-guest session's id is the persisted ["user_id"] (as
    [String(userId)]), and a guest session leaves no non-empty id
    persisted. *)
Theorem app_session_view_inv now st w :
  reachable (app_step base) (app_init now st) w ->
  match view w, app_session w with
  | AuthView _, None => user_id_blank (storage w)
  | ChatView _, Some sess =>
      if sess_isGuest sess then user_id_blank (storage w)
      else storage w !! "user_id"%string = Some (js_String (sess_userId sess))
  | _, _ => False
  end.
Proof. apply app_reachable_inv. Qed.

(** C22. Logout from the chat screen empties [localStorage], drops the
    session and shows a fresh authentication screen that does not log
    back in. *)
Theorem app_logout w c :
  app_inv w -> view w = ChatView c ->
  (app_step base w (ChatUI ClickLogout)).1 =
    mkWorld ∅ None (AuthView auth_init) (S (gen w)) (urls c) /\
  (app_step base w (ChatUI ClickLogout)).2 = [].
Proof.
  intros Hi Hv. unfold app_inv in Hi. rewrite Hv in Hi.
  destruct (app_session w) as [sess|] eqn:Hs; [|done].
  unfold app_step. rewrite Hv, Hs. simpl. done.
Qed.

(** C23. Reloading the page with a non-guest session whose persisted
    id is non-empty restores a non-guest session, without a server
    round trip, with a fresh conversation; its user id is the persisted
    string [String(userId)]. *)
Theorem app_reload_restores_session w uid now :
  app_inv w -> app_session w = Some (mkSession uid false) ->
  js_String uid <> ""%string ->
  (app_step base w (Reload now)).1 =
    mkWorld (storage w) (Some (mkSession (JString (js_String uid)) false))
      (ChatView (chat_init now empty_urls)) (S (S (gen w))) empty_urls.
Proof.
  intros Hi Hs Hu. unfold app_inv in Hi. rewrite Hs in Hi. simpl in Hi.
  destruct (view w) eqn:Hv; [done|].
  apply String.eqb_neq in Hu.
  unfold app_step, mount_auth, mount_effect. simpl. by rewrite Hi, Hu.
Qed.

(** A guest session does not survive a reload: the page comes back
    to the authentication screen. *)
Theorem app_guest_not_restored w uid now :
  app_inv w -> app_session w = Some (mkSession uid true) ->
  (app_step base w (Reload now)).1 = mkWorld (storage w) None (AuthView auth_init) (S (gen w)) empty_urls.
Proof.
  intros Hi Hs. unfold app_inv in Hi. rewrite Hs in Hi. simpl in Hi.
  destruct (view w) eqn:Hv; [done|].
  unfold app_step, mount_auth, mount_effect. simpl. by destruct Hi as [-> | ->].
Qed.
End Properties.

(** A login whose response has neither [error] nor [user_id]
    persists the string ["undefined"] ([localStorage.setItem] applies
    [String] to [res?.user_id]); after a reload the page logs in,
    without asking the server, as the user ["undefined"]. *)
Theorem app_missing_user_id_logs_in_as_undefined :
  app_session
    (run (app_step "http://localhost:5000"%string) (app_init 0 ∅)
       [AuthUI (EmailChange "a@b.c"%string); AuthUI (PasswordChange "pw"%string); AuthUI ClickLogin;
        Settle 1 (Some (JObject [])) 5; Reload 9]).1
  = Some (mkSession (JString "undefined"%string) false).
Proof. vm_compute. reflexivity. Qed.

(** ** The properties at concrete inputs *)

#[local] Abbreviation demo_step := (app_step "http://localhost:5000"%string).
#[local] Abbreviation login_events :=
  [AuthUI (EmailChange "a@b.c"%string); AuthUI (PasswordChange "pw"%string); AuthUI ClickLogin;
   Settle 1 (Some (JObject [("user_id"%string, JString "42")])) 5].
#[local] Abbreviation logged_in := (run demo_step (app_init 0 ∅) login_events).1.
#[local] Abbreviation guest_in :=
  (run demo_step (app_init 0 ∅) [AuthUI ClickGuest;
     Settle 1 (Some (JObject [("user_id"%string, JString "g7")])) 5]).1.

Lemma app_session_view_inv_witness :
  match view logged_in, app_session logged_in with
  | AuthView _, None => user_id_blank (storage logged_in)
  | ChatView _, Some sess =>
      if sess_isGuest sess then user_id_blank (storage logged_in)
      else storage logged_in !! "user_id"%string = Some (js_String (sess_userId sess))
  | _, _ => False
  end.
Proof. apply (app_session_view_inv "http://localhost:5000"%string 0 ∅). apply reachable_run. Defined.

Lemma app_logout_witness :
  (demo_step logged_in (ChatUI ClickLogout)).1 =
    mkWorld ∅ None (AuthView auth_init) (S (gen logged_in)) (urls (chat_init 5 empty_urls)) /\
  (demo_step logged_in (ChatUI ClickLogout)).2 = [].
Proof. apply app_logout; vm_compute; reflexivity. Defined.

Lemma app_reload_restores_session_witness :
  (demo_step logged_in (Reload 9)).1 =
    mkWorld (storage logged_in) (Some (mkSession (JString (js_String (JString "42"))) false))
      (ChatView (chat_init 9 empty_urls)) (S (S (gen logged_in))) empty_urls.
Proof.
  apply app_reload_restores_session; [vm_compute; reflexivity|vm_compute; reflexivity|].
  vm_compute. discriminate.
Defined.

Lemma app_guest_not_restored_witness :
  (demo_step guest_in (Reload 9)).1 =
    mkWorld (storage guest_in) None (AuthView auth_init) (S (gen guest_in)) empty_urls.
Proof.
  apply (app_guest_not_restored "http://localhost:5000"%string _ (JString "g7"));
    vm_compute; [left|]; reflexivity.
Defined.
