(* ===== verification/Legacy.v ===== *)
(** * The legacy single-file copy ([src/public/frontend_source.tsx])

    The repository keeps an older variant of the client in one file: its
    API object defaults to port 8000 and registers with email and
    password only, its [AuthScreen] has no name field, no mount effect
    and never touches [localStorage], and its root ([Index]) holds the
    session in memory only.  Its [ChatScreen], [MediaPreview] and
    [ChatMessage] sections are the current components line for line, so
    the legacy root drives [ChatScreen.chat_step] itself
    ([legacy_chat_step]).

    The legacy auth screen and root are modelled here from their own
    lines, and related to the current ones by erasure: forgetting the
    name field, the storage writes and the [localStorage] map, the
    current client runs every reload-free sequence of events exactly as
    the legacy one, and a reload is where they part. *)

From S2P Require Import Prelude Js Json Api Media ChatScreen AuthScreen App.

Local Open Scope string_scope.

(** [import.meta.env.VITE_API_URL || 'http://localhost:8000']. *)
Definition legacy_API_BASE (VITE_API_URL : jsval) : jsval :=
  (VITE_API_URL || JString "http://localhost:8000")%js.

Section Client.
Variable base : string.

Local Open Scope promise_scope.

(** [api.register(email, password)]: no [name] member. *)
Definition legacy_register (email password : string) : api_call :=
  res <- fetch (mkRequest "POST" (base +:+ "/auth/register") json_headers
                  (json_body (JObject [("email", JString email);
                                       ("password", JString password)]))) ;;
  res_json res.

(** The other methods have the text of [api.ts]. *)
Definition legacy_login (email password : string) : api_call :=
  res <- fetch (mkRequest "POST" (base +:+ "/auth/login") json_headers
                  (json_body (JObject [("email", JString email);
                                       ("password", JString password)]))) ;;
  res_json res.

Definition legacy_guestLogin : api_call :=
  res <- fetch (mkRequest "POST" (base +:+ "/auth/guest") [] NoBody) ;;
  res_json res.

Definition legacy_chat (userId : jsval) (query : string) (isGuest : bool) : api_call :=
  res <- fetch (mkRequest "POST" (base +:+ "/api/chat") json_headers
                  (json_body (JObject [("user_id", userId); ("query", JString query);
                                       ("is_guest", JBool isGuest)]))) ;;
  res_json res.

Definition legacy_upload (userId : jsval) (file : File) (isGuest : bool) : api_call :=
  res <- fetch (mkRequest "POST" (base +:+ "/api/upload") []
                  (FormBody [("user_id", FormString (js_String userId));
                             ("file", FormBlob file);
                             ("is_guest", FormString (js_String (JBool isGuest)))])) ;;
  res_json res.

(** [legacy_chat] and [legacy_upload] are [Api.chat] and [Api.upload]
    term for term, which is why the legacy root runs
    [ChatScreen.chat_step]. *)
End Client.

(** ** The legacy AuthScreen *)

Record legacy_auth_state := mkLAuth {
  l_email : string;
  l_password : string;
  l_loading : bool;
  l_error : jsval;
  l_pending : option auth_pending
}.

Inductive legacy_auth_out :=
| LAuthFetch (r : api_call)
| LOnAuth (userId : jsval) (isGuest : bool).

Inductive legacy_auth_event :=
| LEmailChange (v : string)
| LPasswordChange (v : string)
| LClickLogin
| LClickRegister
| LClickGuest
| LAuthSettled (r : option jsval).

Definition legacy_auth_init : legacy_auth_state := mkLAuth "" "" false (JString "") None.

Definition l_start (s : legacy_auth_state) (p : auth_pending) : legacy_auth_state :=
  mkLAuth (l_email s) (l_password s) true (JString "") (Some p).

Definition l_fail_with (s : legacy_auth_state) (msg : jsval) : legacy_auth_state :=
  mkLAuth (l_email s) (l_password s) false msg None.

Definition l_settle_ok (s : legacy_auth_state) : legacy_auth_state :=
  mkLAuth (l_email s) (l_password s) false (l_error s) None.

(** [disabled={loading || !email || !password}]. *)
Definition legacy_submit_disabled (s : legacy_auth_state) : bool :=
  l_loading s || String.eqb (l_email s) "" || String.eqb (l_password s) "".

Section LegacyAuth.
Variable base : string.

Definition legacy_handleRegister (s : legacy_auth_state) : legacy_auth_state * list legacy_auth_out :=
  (l_start s AwaitRegister, [LAuthFetch (legacy_register base (l_email s) (l_password s))]).

Definition legacy_handleLogin (s : legacy_auth_state) : legacy_auth_state * list legacy_auth_out :=
  (l_start s AwaitLogin, [LAuthFetch (legacy_login base (l_email s) (l_password s))]).

Definition legacy_handleGuest (s : legacy_auth_state) : legacy_auth_state * list legacy_auth_out :=
  (l_start s AwaitGuest, [LAuthFetch (legacy_guestLogin base)]).

(** After the [await] of [handleRegister]/[handleLogin]: no
    [localStorage.setItem], only [onAuth(res.user_id, false)]. *)
Definition legacy_on_credentials_settled (r : option jsval) (s : legacy_auth_state)
    : legacy_auth_state * list legacy_auth_out :=
  match r ≫= fun res => get_field res "error" with
  | None => (l_fail_with s (JString connection_failed_text), [])
  | Some err =>
      if truthy err then (l_fail_with s err, [])
      else (l_settle_ok s,
            [LOnAuth (default JUndefined (r ≫= fun res => get_field res "user_id")) false])
  end.

Definition legacy_on_guest_settled (r : option jsval) (s : legacy_auth_state)
    : legacy_auth_state * list legacy_auth_out :=
  match r ≫= fun res => get_field res "user_id" with
  | None => (l_fail_with s (JString connection_failed_text), [])
  | Some uid => (l_settle_ok s, [LOnAuth uid true])
  end.

Definition legacy_auth_step (s : legacy_auth_state) (e : legacy_auth_event)
    : legacy_auth_state * list legacy_auth_out :=
  match e with
  | LEmailChange v => (mkLAuth v (l_password s) (l_loading s) (l_error s) (l_pending s), [])
  | LPasswordChange v => (mkLAuth (l_email s) v (l_loading s) (l_error s) (l_pending s), [])
  | LClickLogin => if legacy_submit_disabled s then (s, []) else legacy_handleLogin s
  | LClickRegister => if legacy_submit_disabled s then (s, []) else legacy_handleRegister s
  | LClickGuest => if l_loading s then (s, []) else legacy_handleGuest s
  | LAuthSettled r =>
      match l_pending s with
      | Some AwaitGuest => legacy_on_guest_settled r s
      | Some _ => legacy_on_credentials_settled r s
      | None => (s, [])
      end
  end.
End LegacyAuth.

(** ** Erasure of the current AuthScreen *)

(** A request whose JSON body is re-sent without its [name] member: what
    the legacy client sends in place of the current one. *)
Definition drop_name_req (r : request) : request :=
  match req_body r with
  | StringBody t =>
      match JSON_parse t with
      | Some (JObject fs) =>
          mkRequest (req_method r) (req_url r) (req_headers r)
            (json_body (JObject (filter (fun kv => kv.1 <> "name") fs)))
      | _ => r
      end
  | _ => r
  end.

Definition drop_name (c : api_call) : api_call :=
  match c with
  | AwaitFetch r k => AwaitFetch (drop_name_req r) k
  | _ => c
  end.

Definition erase_auth (s : auth_state) : legacy_auth_state :=
  mkLAuth (email s) (password s) (auth_loading s) (error s) (auth_pending_op s).

Definition erase_auth_out (o : auth_out) : option legacy_auth_out :=
  match o with
  | AuthFetch r => Some (LAuthFetch (drop_name r))
  | SetItem _ _ => None
  | OnAuth uid g => Some (LOnAuth uid g)
  end.

Definition lift_auth_event (e : legacy_auth_event) : auth_event :=
  match e with
  | LEmailChange v => EmailChange v
  | LPasswordChange v => PasswordChange v
  | LClickLogin => ClickLogin
  | LClickRegister => ClickRegister
  | LClickGuest => ClickGuest
  | LAuthSettled r => AuthSettled r
  end.

Local Close Scope string_scope.

Section Erasure.
Context (base : string).

(** A JSON request whose members are defined is re-sent with the
    members other than [name]. *)
Lemma drop_name_json m u h fs :
  normalize (JObject fs) = JObject fs ->
  drop_name_req (mkRequest m u h (json_body (JObject fs))) =
    mkRequest m u h (json_body (JObject (filter (fun kv => kv.1 <> "name"%string) fs))).
Proof.
  intros Hn. destruct (json_body_parses (JObject fs) eq_refl) as (t & Ht & Hp).
  unfold drop_name_req. rewrite Ht. simpl. by rewrite Hp, Hn.
Qed.

Lemma filter_normalize_noname fs :
  Forall (fun kv => kv.1 <> "name"%string) fs ->
  filter (fun kv => kv.1 <> "name"%string)
    (flat_map (fun kv => if is_undefined kv.2 then [] else [(kv.1, normalize kv.2)]) fs) =
  flat_map (fun kv => if is_undefined kv.2 then [] else [(kv.1, normalize kv.2)]) fs.
Proof.
  induction 1 as [|[k x] fs Hk _ IH]; [done|]. simpl.
  destruct (is_undefined x); simpl; [done|]. rewrite filter_cons_True; [|done]. by rewrite IH.
Qed.

(** A JSON request without a [name] member is re-sent as it is. *)
Lemma drop_name_noname m u h fs :
  Forall (fun kv => kv.1 <> "name"%string) fs ->
  drop_name_req (mkRequest m u h (json_body (JObject fs))) = mkRequest m u h (json_body (JObject fs)).
Proof.
  intros Hf. destruct (json_body_parses (JObject fs) eq_refl) as (t & Ht & Hp).
  unfold drop_name_req. rewrite Ht at 1. simpl. rewrite Hp. cbn [normalize].
  rewrite filter_normalize_noname by done.
  change (JObject (flat_map _ fs)) with (normalize (JObject fs)).
  unfold json_body. by rewrite stringify_normalize.
Qed.

Lemma drop_name_chat u q g : drop_name (chat base u q g) = chat base u q g.
Proof.
  cbn [chat promise_bind fetch drop_name]. f_equal.
  apply drop_name_noname. repeat constructor; cbn; congruence.
Qed.

Lemma drop_name_upload u f g : drop_name (upload base u f g) = upload base u f g.
Proof. reflexivity. Qed.

Lemma legacy_register_drop_name n e p :
  legacy_register base e p = drop_name (register base n e p).
Proof. cbn [register legacy_register promise_bind fetch drop_name]. by rewrite drop_name_json. Qed.

Lemma drop_name_login e p : drop_name (login base e p) = legacy_login base e p.
Proof.
  cbn [login legacy_login promise_bind fetch drop_name]. f_equal.
  apply drop_name_noname. repeat constructor; cbn; congruence.
Qed.

Lemma drop_name_guestLogin : drop_name (guestLogin base) = legacy_guestLogin base.
Proof. reflexivity. Qed.

(** One step of the legacy screen is the erased step of the current one
    on the same event. *)
Lemma legacy_auth_step_erase s e :
  legacy_auth_step base (erase_auth s) e =
    (erase_auth (auth_step base s (lift_auth_event e)).1,
     omap erase_auth_out (auth_step base s (lift_auth_event e)).2).
Proof.
  destruct e as [v|v| | | |r]; simpl; try done.
  - unfold legacy_submit_disabled, submit_disabled. simpl. case_ifs; [done|].
    unfold legacy_handleLogin, handleLogin. cbn -[login legacy_login]. by rewrite drop_name_login.
  - unfold legacy_submit_disabled, submit_disabled. simpl. case_ifs; [done|].
    unfold legacy_handleRegister, handleRegister. cbn -[register legacy_register]. by rewrite <-legacy_register_drop_name.
  - by case_ifs.
  - destruct (auth_pending_op s) as [[]|]; simpl; try done;
      unfold legacy_on_credentials_settled, on_credentials_settled,
        legacy_on_guest_settled, on_guest_settled; by repeat case_match.
Qed.
End Erasure.

(** ** The legacy root ([Index] of [src/pages/Index.tsx]) *)

Inductive legacy_screen :=
| LAuthView (a : legacy_auth_state)
| LChatView (c : chat_state).

(** The page without [localStorage]: the session, the mounted screen,
    the mount count and the object-URL registry. *)
Record legacy_world := mkLWorld {
  l_session : option session;
  l_view : legacy_screen;
  l_gen : nat;
  l_doc_urls : url_store
}.

Inductive legacy_app_event :=
| LAuthUI (e : legacy_auth_event)
| LChatUI (e : chat_event)
| LSettle (g : nat) (r : option jsval) (now : Z)
| LReload (now : Z).

Definition legacy_auth_ui_event (e : legacy_auth_event) : bool :=
  match e with LAuthSettled _ => false | _ => true end.

(** The legacy [ChatScreen] section is [src/src/components/ChatScreen.tsx]
    line for line (only the banner comments differ), so its model is
    [ChatScreen.chat_step] itself. *)
Definition legacy_chat_step (base : string) (userId : jsval) (isGuest : bool)
    : chat_state -> chat_event -> chat_state * list chat_out :=
  chat_step base userId isGuest.

Section Index.
Variable base : string.

Definition l_set_view (w : legacy_world) (v : legacy_screen) : legacy_world :=
  mkLWorld (l_session w) v (l_gen w) (l_doc_urls w).

(** [handleAuth]: [setSession({userId, isGuest})] and a fresh ChatScreen. *)
Definition legacy_handleAuth (now : Z) (w : legacy_world) (userId : jsval) (isGuest : bool)
    : legacy_world :=
  mkLWorld (Some (mkSession userId isGuest)) (LChatView (chat_init now (l_doc_urls w)))
    (S (l_gen w)) (l_doc_urls w).

Definition legacy_apply_auth_out (now : Z) (acc : legacy_world * list (nat * api_call))
    (o : legacy_auth_out) : legacy_world * list (nat * api_call) :=
  let '(w, rs) := acc in
  match o with
  | LAuthFetch r => (w, rs ++ [(l_gen w, r)])
  | LOnAuth userId isGuest => (legacy_handleAuth now w userId isGuest, rs)
  end.

Definition legacy_apply_auth_outs (now : Z) (w : legacy_world) (os : list legacy_auth_out)
    : legacy_world * list (nat * api_call) :=
  fold_left (legacy_apply_auth_out now) os (w, []).

(** [session] is [null]: a fresh AuthScreen mounts, with no effect. *)
Definition legacy_mount_auth (w : legacy_world) : legacy_world :=
  mkLWorld None (LAuthView legacy_auth_init) (S (l_gen w)) (l_doc_urls w).

(** [handleLogout]: [setSession(null)] only. *)
Definition legacy_handleLogout (w : legacy_world) (c : chat_state) : legacy_world :=
  legacy_mount_auth (mkLWorld None (l_view w) (l_gen w) (urls c)).

Definition legacy_apply_chat_outs (w : legacy_world) (c : chat_state) (os : list chat_out)
    : legacy_world * list (nat * api_call) :=
  let w1 := l_set_view w (LChatView c) in
  let reqs := map (fun r => (l_gen w, r)) (requests os) in
  if existsb (fun o => match o with CallLogout => true | _ => false end) os
  then (legacy_handleLogout w1 c, reqs)
  else (w1, reqs).

Definition legacy_app_step (w : legacy_world) (e : legacy_app_event)
    : legacy_world * list (nat * api_call) :=
  match e, l_view w, l_session w with
  | LAuthUI ae, LAuthView a, _ =>
      if legacy_auth_ui_event ae then
        let '(a', os) := legacy_auth_step base a ae in
        legacy_apply_auth_outs 0 (l_set_view w (LAuthView a')) os
      else (w, [])
  | LChatUI ce, LChatView c, Some sess =>
      if chat_ui_event ce then
        let '(c', os) := legacy_chat_step base (sess_userId sess) (sess_isGuest sess) c ce in
        legacy_apply_chat_outs w c' os
      else (w, [])
  | LSettle g r now, LAuthView a, _ =>
      if Nat.eqb g (l_gen w) then
        let '(a', os) := legacy_auth_step base a (LAuthSettled r) in
        legacy_apply_auth_outs now (l_set_view w (LAuthView a')) os
      else (w, [])
  | LSettle g r now, LChatView c, Some sess =>
      if Nat.eqb g (l_gen w) then
        match pending_op c with
        | Some p =>
            let '(c', os) := legacy_chat_step base (sess_userId sess) (sess_isGuest sess) c
                               (settlement p r now) in
            legacy_apply_chat_outs w c' os
        | None => (w, [])
        end
      else (w, [])
  | LReload _, _, _ => (legacy_mount_auth (mkLWorld None (l_view w) (l_gen w) empty_urls), [])
  | _, _, _ => (w, [])
  end.

Definition legacy_app_init : legacy_world :=
  legacy_mount_auth (mkLWorld None (LAuthView legacy_auth_init) 0 empty_urls).
End Index.

(** ** Erasure of the current page *)

Definition erase_screen (v : screen) : legacy_screen :=
  match v with
  | AuthView a => LAuthView (erase_auth a)
  | ChatView c => LChatView c
  end.

Definition erase_world (w : world) : legacy_world :=
  mkLWorld (app_session w) (erase_screen (view w)) (gen w) (doc_urls w).

Definition lift_app_event (e : legacy_app_event) : app_event :=
  match e with
  | LAuthUI ae => AuthUI (lift_auth_event ae)
  | LChatUI ce => ChatUI ce
  | LSettle g r now => Settle g r now
  | LReload now => Reload now
  end.

Definition erase_requests (rs : list (nat * api_call)) : list (nat * api_call) :=
  map (fun gr => (gr.1, drop_name gr.2)) rs.

Definition is_reload (e : legacy_app_event) : bool :=
  match e with LReload _ => true | _ => false end.

Section RootErasure.
Context (base : string).

Lemma erase_requests_app rs1 rs2 :
  erase_requests (rs1 ++ rs2) = erase_requests rs1 ++ erase_requests rs2.
Proof. apply map_app. Qed.

(** The chat screen's requests carry no [name] member. *)
Lemma drop_name_chat_requests u g s e :
  Forall (fun r => drop_name r = r) (requests (chat_step base u g s e).2).
Proof.
  destruct e; simpl; unfold handleSend, on_upload_settled, send_text_or_ack, on_chat_settled;
    repeat (case_match; simpl); repeat constructor; apply drop_name_chat || apply drop_name_upload.
Qed.

Lemma erase_chat_requests n os :
  Forall (fun r => drop_name r = r) (requests os) ->
  erase_requests (map (fun r => (n, r)) (requests os)) = map (fun r => (n, r)) (requests os).
Proof.
  intros H. unfold erase_requests. rewrite map_map.
  apply map_ext_Forall. eapply Forall_impl; [exact H|]. intros r Hr. simpl. by rewrite Hr.
Qed.

Lemma legacy_apply_auth_outs_fold now os w rs :
  fold_left (legacy_apply_auth_out now) (omap erase_auth_out os) (erase_world w, erase_requests rs) =
    (erase_world (fold_left (apply_auth_out now) os (w, rs)).1,
     erase_requests (fold_left (apply_auth_out now) os (w, rs)).2).
Proof.
  revert w rs. induction os as [|[r|k v|u g] os IH]; intros w rs; simpl.
  - done.
  - by rewrite <- IH, erase_requests_app.
  - exact (IH (mkWorld (<[k:=v]> (storage w)) (app_session w) (view w) (gen w) (doc_urls w)) rs).
  - exact (IH (handleAuth now w u g) rs).
Qed.

Lemma legacy_apply_auth_outs_erase now w os :
  legacy_apply_auth_outs now (erase_world w) (omap erase_auth_out os) =
    (erase_world (apply_auth_outs now w os).1, erase_requests (apply_auth_outs now w os).2).
Proof. exact (legacy_apply_auth_outs_fold now os w []). Qed.

(** After [localStorage.clear()] the mounted AuthScreen has nothing to
    restore, so the current logout is the legacy one. *)
Lemma legacy_apply_chat_outs_erase now w c os :
  Forall (fun r => drop_name r = r) (requests os) ->
  legacy_apply_chat_outs (erase_world w) c os =
    (erase_world (apply_chat_outs now w c os).1, erase_requests (apply_chat_outs now w c os).2).
Proof.
  intros Hr. unfold legacy_apply_chat_outs, apply_chat_outs.
  destruct (existsb _ os); simpl.
  - unfold handleLogout, mount_auth, localStorage_clear. simpl.
    rewrite lookup_empty. simpl. by rewrite app_nil_r, erase_chat_requests.
  - by rewrite erase_chat_requests.
Qed.

(** One step of the legacy page, other than a reload, is the erased step
    of the current page. *)
Lemma legacy_app_step_erase w e :
  is_reload e = false ->
  legacy_app_step base (erase_world w) e =
    (erase_world (app_step base w (lift_app_event e)).1,
     erase_requests (app_step base w (lift_app_event e)).2).
Proof.
  intros Hr. destruct e as [ae|ce|g r now|now]; [| | |done];
    unfold legacy_app_step, app_step, legacy_chat_step; cbn [lift_app_event erase_world l_view l_session l_gen];
    destruct (view w) as [a|c]; destruct (app_session w) as [sess|]; cbn [erase_screen]; try done.
  1,2: replace (legacy_auth_ui_event ae) with (auth_ui_event (lift_auth_event ae)) by (by destruct ae);
    destruct (auth_ui_event _); [|done]; rewrite legacy_auth_step_erase;
    destruct (auth_step base a _) as [a' os];
    exact (legacy_apply_auth_outs_erase 0 (set_view w (AuthView a')) os).
  2,3: destruct (Nat.eqb g (gen w)); [|done];
    rewrite (legacy_auth_step_erase base a (LAuthSettled r));
    destruct (auth_step base a _) as [a' os];
    exact (legacy_apply_auth_outs_erase now (set_view w (AuthView a')) os).
  - destruct (chat_ui_event ce); [|done].
    pose proof (drop_name_chat_requests (sess_userId sess) (sess_isGuest sess) c ce) as Hd.
    destruct (chat_step _ _ _ c ce) as [c' os].
    exact (legacy_apply_chat_outs_erase (event_time ce) w c' os Hd).
  - destruct (Nat.eqb g (gen w)); [|done]. destruct (pending_op c) as [p|]; [|done].
    pose proof (drop_name_chat_requests (sess_userId sess) (sess_isGuest sess) c
                  (settlement p r now)) as Hd.
    destruct (chat_step _ _ _ c _) as [c' os].
    exact (legacy_apply_chat_outs_erase now w c' os Hd).
Qed.
End RootErasure.

Lemma erase_app_init now st :
  user_id_blank st -> erase_world (app_init now st) = legacy_app_init.
Proof.
  unfold app_init, mount_auth, user_id_blank. simpl. by intros [-> | ->].
Qed.

Lemma erase_auth_init : erase_auth auth_init = legacy_auth_init.
Proof. reflexivity. Qed.

(** ** Properties of the legacy copy *)

(** C27. Refinement between the two variants: from a first page load
    with no persisted [user_id], every sequence of events without a
    reload runs on the legacy page exactly as on the current page with
    its [name] field, its [localStorage] writes and the [name] member of
    the registration body erased: the same session, the same screen
    state, the same requests from the same screen instances.  The
    persistence the current code adds is observable only through a
    reload. *)
Theorem legacy_refines_current base now st es :
  user_id_blank st -> Forall (fun e => is_reload e = false) es ->
  run (legacy_app_step base) legacy_app_init es =
    (erase_world (run (app_step base) (app_init now st) (map lift_app_event es)).1,
     erase_requests (run (app_step base) (app_init now st) (map lift_app_event es)).2).
Proof.
  intros Hst Hes. rewrite <- (erase_app_init now st Hst).
  apply (run_simulation (app_step base) (legacy_app_step base) erase_world lift_app_event
           erase_requests (fun e => is_reload e = false)); [done|apply erase_requests_app| |done].
  intros w e He. by apply legacy_app_step_erase.
Qed.

(** The legacy AuthScreen inherits the current one's request
    discipline through the erasure: in every state it reaches,
    [loading] is set exactly when a handler awaits its response, so its
    disabled buttons admit one request at a time. *)
Theorem legacy_auth_loading_iff_pending base s :
  reachable (legacy_auth_step base) legacy_auth_init s ->
  l_loading s = bool_decide (is_Some (l_pending s)).
Proof.
  intros Hr. destruct (reachable_run_inv _ _ _ Hr) as [es ->].
  rewrite <- erase_auth_init.
  rewrite (run_simulation (auth_step base) (legacy_auth_step base) erase_auth lift_auth_event
             (omap erase_auth_out) (fun _ => True)); [| done | apply omap_app | | by apply Forall_true].
  - apply (auth_reachable_inv base). apply reachable_run.
  - intros s' e _. apply legacy_auth_step_erase.
Qed.

(** A reload is where the variants part: after signing in and
    reloading, the current page (which persisted [user_id]) is back on
    the chat screen with the same non-guest session, while the legacy
    page is on a fresh sign-in form with no session. *)
Example legacy_reload_forgets_session :
  let es := [LAuthUI (LEmailChange "a@b.c"%string); LAuthUI (LPasswordChange "pw"%string);
             LAuthUI LClickLogin; LSettle 1 (Some (JObject [("user_id"%string, JString "u1")])) 5;
             LReload 9] in
  (l_session (run (legacy_app_step "http://localhost:8000") legacy_app_init es).1 = None) /\
  (l_view (run (legacy_app_step "http://localhost:8000") legacy_app_init es).1 =
     LAuthView legacy_auth_init) /\
  (app_session (run (app_step "http://localhost:8000") (app_init 0 ∅) (map lift_app_event es)).1 =
     Some (mkSession (JString "u1"%string) false)).
Proof. vm_compute. repeat split. Qed.

(** ** The properties at concrete inputs *)

#[local] Abbreviation demo_events :=
  [LAuthUI (LEmailChange "a@b.c"%string); LAuthUI (LPasswordChange "pw"%string);
   LAuthUI LClickLogin; LSettle 1 (Some (JObject [("user_id"%string, JString "u1")])) 5;
   LChatUI (InputChange "hi"%string); LChatUI (ClickSend 7)].

Lemma legacy_refines_current_witness :
  run (legacy_app_step "http://localhost:8000") legacy_app_init demo_events =
    (erase_world (run (app_step "http://localhost:8000") (app_init 0 ∅)
                    (map lift_app_event demo_events)).1,
     erase_requests (run (app_step "http://localhost:8000") (app_init 0 ∅)
                       (map lift_app_event demo_events)).2).
Proof. apply legacy_refines_current; [left; reflexivity | repeat constructor]. Defined.

Lemma legacy_auth_loading_iff_pending_witness :
  l_loading (run (legacy_auth_step "http://localhost:8000") legacy_auth_init
               [LEmailChange "a@b.c"%string; LPasswordChange "pw"%string; LClickLogin]).1 =
    bool_decide (is_Some (l_pending (run (legacy_auth_step "http://localhost:8000") legacy_auth_init
               [LEmailChange "a@b.c"%string; LPasswordChange "pw"%string; LClickLogin]).1)).
Proof. apply (legacy_auth_loading_iff_pending "http://localhost:8000"). apply reachable_run. Defined.
