(* ===== verification/MessageIds.v ===== *)
(** * Message identifiers

    [src/src/components/ChatScreen.tsx] keys each message by an [id]
    read from the clock: the greeting is ['1'], a user message is
    [Date.now().toString()] at the send (line 61), and an assistant
    message is [(Date.now() + 1).toString()] when its [await] returns
    (lines 88, 97, 106).  The list is rendered with [key={msg.id}], and
    the spec calls the ids unique.  This file shows when they are: on
    every run whose clock readings start at 2 and advance by at least
    two milliseconds between the events that read it, the ids are
    pairwise distinct; a send one millisecond after a reply repeats the
    reply's id. *)

From S2P Require Import Prelude Js Api Media ChatScreen.

(** The clock reading an event's handler makes, if it makes one. *)
Definition event_clock (e : chat_event) : option Z :=
  match e with
  | ClickSend now | KeyDown _ _ now | UploadSettled _ now | ChatSettled _ now => Some now
  | _ => None
  end.

(** The clock readings of a run start above [b + 1] and advance by at
    least 2. *)
Fixpoint clocks_spaced (b : Z) (es : list chat_event) : Prop :=
  match es with
  | [] => True
  | e :: es' =>
      match event_clock e with
      | Some t => (b + 2 <= t)%Z /\ clocks_spaced t es'
      | None => clocks_spaced b es'
      end
  end.

(** What a step does to the list of messages: nothing, or one message
    appended whose id is the clock reading or the reading plus one. *)
Definition ids_step (e : chat_event) (ms ms' : list Message) : Prop :=
  ms' = ms \/
  exists m t, event_clock e = Some t /\ ms' = ms ++ [m] /\
              (msg_id m = z_to_string t \/ msg_id m = z_to_string (t + 1)).

Lemma ids_step_reply e ms m t :
  event_clock e = Some t -> msg_id m = z_to_string (t + 1) -> ids_step e ms (ms ++ [m]).
Proof. intros He Hm. right. exists m, t. auto. Qed.

Lemma bot_reply_id now res m : bot_reply now res = Some m -> msg_id m = z_to_string (now + 1).
Proof.
  unfold bot_reply. intros H.
  destruct (get_field res "response"%string); simpl in H; [|done].
  destruct (truthy _); [|destruct (get_field res "error"%string)]; simpl in H; try done;
  destruct (get_field res "timestamp"%string); simpl in H; by simplify_eq.
Qed.

Section Step.
Context (base : string) (userId : jsval) (isGuest : bool).

Lemma handleSend_ids e now s :
  event_clock e = Some now ->
  ids_step e (messages s) (messages (handleSend base userId isGuest now s).1).
Proof.
  intros He. unfold handleSend. destruct (can_send _ _); simpl; [|by left].
  destruct (user_message now (input s) (file s) (urls s)) as [um u'] eqn:Hum.
  assert (Hid : msg_id um = z_to_string now).
  { unfold user_message in Hum. destruct (file s) as [f|]; [destruct (createObjectURL _ f)|];
      by simplify_eq. }
  right. exists um, now. split_and!; [done| |by left].
  destruct (file s); [done|]. unfold send_text_or_ack. by case_ifs.
Qed.

Lemma chat_step_ids s e :
  ids_step e (messages s) (messages (chat_step base userId isGuest s e).1).
Proof.
  destruct e as [v|fs| |now|key shift now| |r now|r now]; simpl.
  - case_ifs; by left.
  - unfold handleFileChange. by repeat case_match; left.
  - case_match; by left.
  - case_ifs; [by left|by apply handleSend_ids].
  - case_ifs; [by left|by apply handleSend_ids|by left].
  - by left.
  - repeat case_match; try by left.
    unfold on_upload_settled, send_text_or_ack.
    repeat case_match; first [by left | by eapply ids_step_reply].
  - repeat case_match; try by left.
    unfold on_chat_settled. destruct (r ≫= bot_reply now) as [m|] eqn:Hm;
      [|by eapply ids_step_reply].
    destruct r as [res|]; simpl in Hm; [|done].
    eapply ids_step_reply; [done|]. by eapply bot_reply_id.
Qed.
End Step.

(** The ids of [ms] are distinct and each is the text of an integer at
    most [b + 1]. *)
Definition ids_inv (b : Z) (ms : list Message) : Prop :=
  NoDup (map msg_id ms) /\
  Forall (fun m => exists k, msg_id m = z_to_string k /\ (k <= b + 1)%Z) ms.

Lemma ids_inv_weaken b b' ms : (b <= b')%Z -> ids_inv b ms -> ids_inv b' ms.
Proof.
  intros Hb [Hnd Hf]. split; [done|]. eapply Forall_impl; [exact Hf|].
  intros m (k & Hk & Hle). exists k. split; [done|lia].
Qed.

Lemma ids_inv_snoc b t ms m :
  (b + 2 <= t)%Z -> ids_inv b ms ->
  msg_id m = z_to_string t \/ msg_id m = z_to_string (t + 1) ->
  ids_inv t (ms ++ [m]).
Proof.
  intros Ht [Hnd Hf] Hm. rewrite Forall_forall in Hf. split.
  - rewrite map_app. apply NoDup_app. split_and!; [done| |by apply NoDup_singleton].
    intros x Hx Hx'. apply list_elem_of_singleton in Hx' as ->.
    apply list_elem_of_In, in_map_iff in Hx as (m' & Hid & Hin).
    apply list_elem_of_In, Hf in Hin as (k & Hk & Hle). rewrite Hk in Hid.
    destruct Hm as [Hm|Hm]; rewrite Hm in Hid; apply z_to_string_inj in Hid; lia.
  - apply Forall_app. split.
    + apply Forall_forall. intros m' Hm'. destruct (Hf m' Hm') as (k & Hk & Hle).
      exists k. split; [done|lia].
    + constructor; [|done]. destruct Hm as [Hm|Hm]; eexists; split; [exact Hm| |exact Hm|]; lia.
Qed.

Lemma ids_inv_greeting t : ids_inv 0 [greeting t].
Proof.
  split; [by apply NoDup_singleton|]. constructor; [|done]. exists 1%Z. split; [done|lia].
Qed.

Section Run.
Context (base : string) (userId : jsval) (isGuest : bool).
Abbreviation step := (chat_step base userId isGuest).

Lemma run_ids_inv s b es :
  ids_inv b (messages s) -> clocks_spaced b es -> NoDup (map msg_id (messages (run step s es).1)).
Proof.
  revert s b. induction es as [|e es IH]; intros s b Hi Hsp; simpl; [by destruct Hi|].
  pose proof (chat_step_ids base userId isGuest s e) as Hs.
  destruct (step s e) as [s1 o1]. simpl in Hs.
  destruct (run step s1 es) as [s2 o2] eqn:E. simpl.
  replace s2 with (run step s1 es).1 by by rewrite E.
  simpl in Hsp. destruct (event_clock e) as [t|] eqn:Hc.
  - destruct Hsp as [Ht Hsp]. apply (IH s1 t); [|done].
    destruct Hs as [-> | (m & t' & Hc' & -> & Hm)]; [by eapply ids_inv_weaken; [|exact Hi]; lia|].
    rewrite Hc in Hc'. simplify_eq. by eapply ids_inv_snoc.
  - apply (IH s1 b); [|done].
    by destruct Hs as [-> | (m & t' & Hc' & _)]; [|rewrite Hc in Hc'].
Qed.
End Run.

(** ** Properties *)

(** C30. Message ids are unique when the clock advances: on every run of
    the chat screen whose clock readings start at 2 and grow by at least
    two milliseconds from one reading event to the next, the [id]s of
    the messages are pairwise distinct, so the list's React keys are. *)
Theorem chat_message_ids_unique base userId isGuest t u es :
  clocks_spaced 0 es ->
  NoDup (map msg_id (messages (run (chat_step base userId isGuest) (chat_init t u) es).1)).
Proof. intros Hsp. eapply run_ids_inv; [apply ids_inv_greeting|exact Hsp]. Qed.

(** The spacing is needed: a reply stamped at [t] gets the id
    [t + 1], and a send one millisecond after it gets the same id, so
    two rendered messages share a key. *)
Example chat_message_ids_collide :
  map msg_id (messages (run (chat_step "http://localhost:5000" (JString "u1") false)
                          (chat_init 0 empty_urls)
                          [InputChange "hi"; ClickSend 1000;
                           ChatSettled (Some (JObject [("response"%string, JString "hello")])) 2000;
                           InputChange "again"; ClickSend 2001]).1) =
    ["1"; "1000"; "2001"; "2001"]%string.
Proof. vm_compute. reflexivity. Qed.

(** ** The properties at concrete inputs *)

Lemma chat_message_ids_unique_witness :
  NoDup (map msg_id (messages (run (chat_step "http://localhost:5000" (JString "u1") false)
                                 (chat_init 0 empty_urls)
                                 [InputChange "hi"; ClickSend 1000;
                                  ChatSettled (Some (JObject [("response"%string, JString "hello")])) 2000;
                                  InputChange "again"; ClickSend 2002]).1)).
Proof. apply chat_message_ids_unique. simpl. lia. Defined.
