(* ===== verification/Wire.v ===== *)
(** * What goes over the wire and what comes back

    What the server receives from the API client of
    [src/src/lib/api.ts] ([Api.v]): the body of each JSON request
    parses back to the members the code wrote in its object literal
    ([api_bodies_received]). *)

From S2P Require Import Prelude Js Json Api.

Local Open Scope string_scope.

(** C33. What the server receives: the body of each JSON request of the
    API client is a text that parses back to the members the code wrote
    in its object literal, [{name, email, password}], [{email, password}]
    and [{user_id, query, is_guest}], except that a [userId] that is
    [undefined] is not sent at all. *)
Theorem api_bodies_received base name email password userId query isGuest :
  (exists t, body_text (register base name email password) = Some t /\
     JSON_parse t = Some (JObject [("name", JString name); ("email", JString email);
                                   ("password", JString password)])) /\
  (exists t, body_text (login base email password) = Some t /\
     JSON_parse t = Some (JObject [("email", JString email); ("password", JString password)])) /\
  (exists t, body_text (chat base userId query isGuest) = Some t /\
     JSON_parse t = Some (JObject ((if is_undefined userId then [] else [("user_id", normalize userId)])
                                   ++ [("query", JString query); ("is_guest", JBool isGuest)]))).
Proof.
  split_and!; [apply body_text_json_body; reflexivity..|].
  destruct (body_text_json_body "POST" (base +:+ "/api/chat") json_headers
              (JObject [("user_id", userId); ("query", JString query); ("is_guest", JBool isGuest)])
              res_json eq_refl) as (t & Ht & Hp).
  exists t. split; [done|]. rewrite Hp. simpl. by destruct userId.
Qed.
