(* ===== verification/Document.v ===== *)
(** * The document around the chat screen

    Two elements of the page [src/src/components/ChatScreen.tsx] renders
    have state of their own, reached through the component's refs
    ([fileInputRef], [scrollRef]):

    - the hidden [<input type="file">], whose selection the browser
      keeps until another file is chosen: the component never clears
      it, neither when the preview is removed nor when the file is sent.
      The browser fires [change] only when a choice differs from the
      selection, so the same file chosen again stages nothing
      ([same_file_cannot_be_restaged]);
    - the scroll area, which the effect [useEffect(..., [messages])]
      scrolls to its bottom after each render in which [messages]
      changed ([scroll_follows_messages]).

    [doc_step] composes the chat machine of [ChatScreen.v] with the two
    elements: a chat event goes to [chat_step], then the render is
    committed ([commit]): the content is laid out, and the effect runs
    when its dependency changed.  The layout itself (the height of the
    content) is not modelled: it is the section variable [layout].  What
    the browser does with the elements (the clamping of [scrollTop], the
    [change] event of a file input) follows the HTML and CSSOM View
    specifications.

    [scrollRef] is attached to the [ScrollArea] of
    [@/components/ui/scroll-area], a file the repository does not
    contain.  The model takes [scrollRef.current] to be the element
    that scrolls.  The stock shadcn/ui component, which the setup notes
    of [src/public/frontend_source.tsx] install, forwards its ref to
    the Radix [Root] instead.  That element does not scroll: its
    [scrollHeight] equals its [clientHeight], so the effect's
    assignment leaves every scroll position unchanged.  With that
    component, [scroll_follows_messages] describes an element the
    page does not scroll. *)

From S2P Require Import Prelude Js Api Media ChatScreen.

Local Open Scope Z_scope.

#[export] Instance File_eq_dec : EqDecision File.
Proof. solve_decision. Defined.

(** ** The scroll area *)

(** The scrolling element [scrollRef.current]: the browser keeps
    [scrollTop] between [0] and [scrollHeight - clientHeight]. *)
Record scroll_area := mkScrollArea { scrollTop : Z; scrollHeight : Z; clientHeight : Z }.

(** [el.scrollTop = v]: the assigned value is clamped to the range. *)
Definition set_scrollTop (el : scroll_area) (v : Z) : scroll_area :=
  mkScrollArea (Z.max 0 (Z.min v (scrollHeight el - clientHeight el)))
    (scrollHeight el) (clientHeight el).

(** A layout of content of height [h]: the scroll position is kept,
    clamped to the new range. *)
Definition relayout (h : Z) (el : scroll_area) : scroll_area :=
  set_scrollTop (mkScrollArea (scrollTop el) h (clientHeight el)) (scrollTop el).

(** The body of the effect:
    [if (scrollRef.current) scrollRef.current.scrollTop = scrollRef.current.scrollHeight]. *)
Definition scroll_effect (current : option scroll_area) : option scroll_area :=
  match current with
  | Some el => Some (set_scrollTop el (scrollHeight el))
  | None => None
  end.

(** The dependency list [[messages]]: React runs the effect when
    [Object.is] fails between the old and the new array.  The array is
    replaced exactly when an updater [prev => [...prev, m]] ran, and
    every updater of the component appends one message, so the array is
    replaced exactly when its length changes ([messages_changed_iff]). *)
Definition messages_changed (c c' : chat_state) : bool :=
  negb (Nat.eqb (length (messages c)) (length (messages c'))).

(** ** The page *)

(** The component with the elements its refs hold: [fileInput] is the
    [files] of [fileInputRef.current] (the input has no [multiple]: at
    most one file), [scrollArea] is [scrollRef.current]. *)
Record page := mkPage {
  chat : chat_state;
  fileInput : list File;
  scrollArea : option scroll_area
}.

Inductive doc_event :=
| UI (e : chat_event)          (** an event of the chat screen *)
| ChooseFile (f : File)        (** the paperclip is clicked and [f] chosen in the dialog *)
| UserScroll (v : Z).          (** the user scrolls the messages *)

Section Document.
Variables (base : string) (userId : jsval) (isGuest : bool).
(** The height of the content rendered for a state. *)
Variable layout : chat_state -> Z.

(** The commit of the render of [c'] after [c]. *)
Definition commit (c c' : chat_state) (el : option scroll_area) : option scroll_area :=
  let el' := option_map (relayout (layout c')) el in
  if messages_changed c c' then scroll_effect el' else el'.

(** The page after mount: the effect runs after the first render. *)
Definition page_init (now : Z) (u : url_store) (el : option scroll_area) : page :=
  let c := chat_init now u in
  mkPage c [] (scroll_effect (option_map (relayout (layout c)) el)).

(** A chat event, then the commit of the render. *)
Definition chat_commit (p : page) (e : chat_event) (files : list File) : page * list chat_out :=
  let '(c', os) := chat_step base userId isGuest (chat p) e in
  (mkPage c' files (commit (chat p) c' (scrollArea p)), os).

(** The file input is hidden: its [change] events come from the
    dialog only, which the paperclip button opens unless [loading]
    disables it; choosing the file the input already holds fires no
    [change].  The [accept] list of the input only preselects the
    dialog's filter, so any file can be chosen. *)
Definition doc_step (p : page) (e : doc_event) : page * list chat_out :=
  match e with
  | UI (FileChange _) => (p, [])
  | UI e' => chat_commit p e' (fileInput p)
  | ChooseFile f =>
      if loading (chat p) then (p, [])
      else if decide (fileInput p = [f]) then (p, [])
      else chat_commit p (FileChange (Some [f])) [f]
  | UserScroll v =>
      (mkPage (chat p) (fileInput p) (option_map (fun el => set_scrollTop el v) (scrollArea p)), [])
  end.
End Document.

(** ** The attachment slot and the file input *)

Section FileInput.
Variables (base : string) (userId : jsval) (isGuest : bool) (layout : chat_state -> Z).
Abbreviation step := (doc_step base userId isGuest layout).

Lemma send_text_or_ack_file now s ci cf :
  file (send_text_or_ack base userId isGuest now s ci cf).1 = file s.
Proof. unfold send_text_or_ack. by repeat case_match. Qed.

(** A chat event other than the input's [change] keeps the staged
    file or clears it. *)
Lemma chat_step_file s e :
  (forall fs, e <> FileChange fs) ->
  file (chat_step base userId isGuest s e).1 = file s \/
  file (chat_step base userId isGuest s e).1 = None.
Proof.
  intros He. destruct e as [v|fs| |now|key shift now| |r now|r now]; simpl.
  - case_match; by left.
  - by destruct (He fs).
  - case_match; [by right|by left].
  - case_match; [by left|]. unfold handleSend. case_match; [by left|].
    destruct (user_message _ _ _ _). destruct (file s); [by right|].
    right. by rewrite send_text_or_ack_file.
  - case_match; [by left|]. case_match; [|by left]. unfold handleSend. case_match; [by left|].
    destruct (user_message _ _ _ _). destruct (file s); [by right|].
    right. by rewrite send_text_or_ack_file.
  - by left.
  - left. repeat case_match; simplify_eq/=; try done.
    unfold on_upload_settled. case_match; [apply send_text_or_ack_file|done].
  - left. repeat case_match; simplify_eq/=; try done.
    unfold on_chat_settled. by case_match.
Qed.

(** An event that is not the choice of another file than [f]. *)
Definition other_choice (f : File) (e : doc_event) : bool :=
  match e with ChooseFile g => bool_decide (g <> f) | _ => false end.

Lemma doc_step_keeps_empty_slot p f e :
  fileInput p = [f] -> file (chat p) = None -> other_choice f e = false ->
  fileInput (step p e).1 = [f] /\ file (chat (step p e).1) = None.
Proof.
  intros Hi Hf Ho. destruct e as [e|g|v]; simpl.
  - unfold chat_commit.
    destruct e; try done;
      match goal with |- context [chat_step ?b ?u ?g ?s ?ev] =>
        destruct (chat_step_file s ev) as [H|H]; [done|..];
        destruct (chat_step b u g s ev) as [c' os]; simpl in *; by rewrite ?H
      end.
  - simpl in Ho. destruct (decide (g = f)) as [->|Hg];
      [|by rewrite bool_decide_eq_true_2 in Ho].
    case_match; [done|]. by rewrite decide_True.
  - done.
Qed.
End FileInput.

(** ** The scroll area after each commit *)

Definition at_bottom (el : scroll_area) : Prop :=
  scrollTop el = Z.max 0 (scrollHeight el - clientHeight el).

Lemma messages_changed_iff base userId isGuest s e :
  messages_changed s (chat_step base userId isGuest s e).1 = true <->
  messages (chat_step base userId isGuest s e).1 <> messages s.
Proof.
  unfold messages_changed.
  destruct (chat_step_shape base userId isGuest s e) as [s' o Hm|um p r s' _ _ _ Hm|ci cf v now r s' _ _ Hm|p bm s' _ _ _ Hm];
    rewrite Hm; rewrite ?length_app, ?Nat.eqb_refl; simpl.
  all: split; intros Hx; try done.
  all: try (apply negb_true_iff, Nat.eqb_neq; simpl; lia).
  all: intros Heq; apply (f_equal length) in Heq; rewrite length_app in Heq; simpl in Heq; lia.
Qed.

Section Scroll.
Variables (base : string) (userId : jsval) (isGuest : bool) (layout : chat_state -> Z).
(** The client height of the scroll area, which no step changes. *)
Variable ch : Z.
Hypothesis ch_nonneg : 0 <= ch.

(** The scroll area laid out for the state [c]. *)
Definition laid_out (c : chat_state) (el : scroll_area) : Prop :=
  scrollHeight el = layout c /\ clientHeight el = ch /\
  0 <= scrollTop el <= Z.max 0 (scrollHeight el - ch).

Definition page_laid_out (p : page) : Prop :=
  exists el, scrollArea p = Some el /\ laid_out (chat p) el.

Lemma commit_scroll c c' el :
  clientHeight el = ch -> 0 <= scrollTop el ->
  exists el', commit layout c c' (Some el) = Some el' /\ laid_out c' el' /\
    (messages_changed c c' = true -> at_bottom el') /\
    (messages_changed c c' = false ->
       scrollTop el' = Z.min (scrollTop el) (Z.max 0 (scrollHeight el' - clientHeight el'))).
Proof.
  intros Hc Ht. unfold commit, laid_out, at_bottom. simpl.
  destruct (messages_changed c c'); simpl; eexists; (split; [reflexivity|]); simpl; split_and!; lia.
Qed.

Lemma chat_commit_scroll p e files el :
  scrollArea p = Some el -> laid_out (chat p) el ->
  exists el', scrollArea (chat_commit base userId isGuest layout p e files).1 = Some el' /\
    laid_out (chat (chat_commit base userId isGuest layout p e files).1) el' /\
    (messages (chat (chat_commit base userId isGuest layout p e files).1) <> messages (chat p) ->
       at_bottom el') /\
    (messages (chat (chat_commit base userId isGuest layout p e files).1) = messages (chat p) ->
       scrollTop el' = Z.min (scrollTop el) (Z.max 0 (scrollHeight el' - clientHeight el'))).
Proof.
  intros Hs (_ & Hc & Ht). unfold chat_commit.
  pose proof (messages_changed_iff base userId isGuest (chat p) e) as Hiff.
  destruct (chat_step base userId isGuest (chat p) e) as [c' os]. simpl in *. rewrite Hs.
  destruct (commit_scroll (chat p) c' el Hc ltac:(lia)) as (el' & -> & Hl & Hb & Hk).
  exists el'. split_and!; [done|done|by intros ?%Hiff; apply Hb|].
  intros Heq. apply Hk. destruct (messages_changed _ _); [|done]. by destruct (proj1 Hiff eq_refl).
Qed.
(** What one step of the page does to a laid-out scroll area. *)
Lemma doc_step_scroll p e el :
  scrollArea p = Some el -> laid_out (chat p) el ->
  exists el', scrollArea (doc_step base userId isGuest layout p e).1 = Some el' /\
    laid_out (chat (doc_step base userId isGuest layout p e).1) el' /\
    (messages (chat (doc_step base userId isGuest layout p e).1) <> messages (chat p) ->
       at_bottom el') /\
    (messages (chat (doc_step base userId isGuest layout p e).1) = messages (chat p) ->
       (forall v, e <> UserScroll v) ->
       scrollTop el' = Z.min (scrollTop el) (Z.max 0 (scrollHeight el' - clientHeight el'))).
Proof.
  intros Hs Hl.
  assert (Hq : exists el', scrollArea p = Some el' /\ laid_out (chat p) el' /\
     (messages (chat p) <> messages (chat p) -> at_bottom el') /\
     (messages (chat p) = messages (chat p) -> (forall v, e <> UserScroll v) ->
        scrollTop el' = Z.min (scrollTop el) (Z.max 0 (scrollHeight el' - clientHeight el')))).
  { exists el. split_and!; [done|done|by intros []|].
    intros _ _. destruct Hl as (Hh & Hc & Ht). rewrite Hc. lia. }
  destruct e as [e|f|v]; simpl.
  - destruct e; try done;
      edestruct (chat_commit_scroll p) as (el' & ? & ? & ? & Hk); eauto;
      exists el'; split_and!; eauto.
  - destruct (loading (chat p)); [done|]. destruct (decide _); [done|].
    edestruct (chat_commit_scroll p) as (el' & ? & ? & ? & Hk); eauto.
    exists el'; split_and!; eauto.
  - rewrite Hs. destruct Hl as (Hh & Hc & Ht). simpl.
    eexists; split; [done|]. unfold laid_out; simpl. split_and!; try lia; [by intros []|].
    intros _ Hv. by destruct (Hv v).
Qed.

Lemma page_init_laid_out now u el0 :
  clientHeight el0 = ch -> page_laid_out (page_init layout now u (Some el0)).
Proof.
  intros Hc. unfold page_init, page_laid_out, laid_out. simpl.
  eexists; split; [done|]. simpl. split_and!; lia.
Qed.

Lemma doc_step_laid_out p e :
  page_laid_out p -> page_laid_out (doc_step base userId isGuest layout p e).1.
Proof.
  intros (el & Hs & Hl). destruct (doc_step_scroll p e el Hs Hl) as (el' & ? & ? & _).
  by exists el'.
Qed.
End Scroll.


Lemma run_keeps_empty_slot base userId isGuest layout p f es :
  fileInput p = [f] -> file (chat p) = None ->
  Forall (fun e => other_choice f e = false) es ->
  fileInput (run (doc_step base userId isGuest layout) p es).1 = [f] /\
  file (chat (run (doc_step base userId isGuest layout) p es).1) = None.
Proof.
  intros Hi Hf Hes. revert p Hi Hf.
  induction Hes as [|e es He _ IH]; intros p Hi Hf; simpl; [done|].
  destruct (doc_step_keeps_empty_slot base userId isGuest layout p f e Hi Hf He) as [Hi' Hf'].
  destruct (doc_step _ _ _ _ p e) as [p1 o1]. simpl in *.
  specialize (IH p1 Hi' Hf'). by destruct (run _ p1 es).
Qed.

(** ** Properties *)

(** C7. The hidden file input keeps its selection: choosing a file [f]
    the input does not hold stages it, but once the input holds [f]
    and [f] is no longer staged (its preview was removed, or it was
    sent), no sequence of events stages a file again until a file
    other than [f] is chosen: choosing [f] again fires no [change],
    since the component never clears the input. *)
Theorem same_file_cannot_be_restaged base userId isGuest layout p f es :
  (loading (chat p) = false -> fileInput p <> [f] ->
     file (chat (doc_step base userId isGuest layout p (ChooseFile f)).1) = Some f) /\
  (fileInput p = [f] -> file (chat p) = None ->
     Forall (fun e => other_choice f e = false) es ->
     file (chat (run (doc_step base userId isGuest layout) p es).1) = None).
Proof.
  split.
  - intros Hl Hi. simpl. rewrite Hl, decide_False by done. done.
  - intros Hi Hf Hes. apply (run_keeps_empty_slot base userId isGuest layout p f es Hi Hf Hes).
Qed.

(** C28. The effect [useEffect(..., [messages])]: in every state of a
    mounted chat screen, a step that changes the conversation leaves
    the scroll area at its bottom, so the newest message is in view;
    a step that does not change it (typing, choosing or removing a
    file, an ignored event) keeps the user's scroll position, clamped
    to the new height of the content. *)
Theorem scroll_follows_messages base userId isGuest layout now u el0 p e :
  0 <= clientHeight el0 ->
  reachable (doc_step base userId isGuest layout) (page_init layout now u (Some el0)) p ->
  exists el el', scrollArea p = Some el /\
    scrollArea (doc_step base userId isGuest layout p e).1 = Some el' /\
    (messages (chat (doc_step base userId isGuest layout p e).1) <> messages (chat p) ->
       at_bottom el') /\
    (messages (chat (doc_step base userId isGuest layout p e).1) = messages (chat p) ->
       (forall v, e <> UserScroll v) ->
       scrollTop el' = Z.min (scrollTop el) (Z.max 0 (scrollHeight el' - clientHeight el'))).
Proof.
  intros Hc Hr.
  destruct (reachable_ind_inv _ (page_laid_out layout (clientHeight el0)) _
              (page_init_laid_out layout _ now u el0 eq_refl)
              (fun p e => doc_step_laid_out base userId isGuest layout _ Hc p e) p Hr)
    as (el & Hs & Hl).
  destruct (doc_step_scroll base userId isGuest layout _ Hc p e el Hs Hl) as (el' & ? & _ & ? & ?).
  by exists el, el'.
Qed.

(** ** Witnesses *)

#[local] Abbreviation demo_step :=
  (doc_step "http://localhost:5000" (JString "u1") false (fun c => 40 * Z.of_nat (length (messages c)))).
#[local] Abbreviation demo_file := (mkFile "photo.png" "image/png" 1).
#[local] Abbreviation demo_init :=
  (page_init (fun c => 40 * Z.of_nat (length (messages c))) 0 empty_urls (Some (mkScrollArea 0 0 100))).

Lemma same_file_cannot_be_restaged_witness :
  file (chat (demo_step demo_init (ChooseFile demo_file)).1) = Some demo_file /\
  file (chat (run demo_step (run demo_step demo_init [ChooseFile demo_file; UI RemovePreview]).1
                [ChooseFile demo_file; UI (InputChange "hi")]).1) = None.
Proof.
  split.
  - apply (proj1 (same_file_cannot_be_restaged "http://localhost:5000" (JString "u1") false
                    (fun c => 40 * Z.of_nat (length (messages c))) demo_init demo_file []));
      vm_compute; done.
  - apply (proj2 (same_file_cannot_be_restaged "http://localhost:5000" (JString "u1") false
                    (fun c => 40 * Z.of_nat (length (messages c)))
                    (run demo_step demo_init [ChooseFile demo_file; UI RemovePreview]).1 demo_file
                    [ChooseFile demo_file; UI (InputChange "hi")]));
      [vm_compute; reflexivity|vm_compute; reflexivity|repeat constructor; vm_compute; reflexivity].
Defined.

Lemma scroll_follows_messages_witness :
  exists el el', scrollArea demo_init = Some el /\
    scrollArea (demo_step demo_init (UI (InputChange "hi"))).1 = Some el' /\
    (messages (chat (demo_step demo_init (UI (InputChange "hi"))).1) <> messages (chat demo_init) ->
       at_bottom el') /\
    (messages (chat (demo_step demo_init (UI (InputChange "hi"))).1) = messages (chat demo_init) ->
       (forall v, UI (InputChange "hi") <> UserScroll v) ->
       scrollTop el' = Z.min (scrollTop el) (Z.max 0 (scrollHeight el' - clientHeight el'))).
Proof.
  apply (scroll_follows_messages "http://localhost:5000" (JString "u1") false
           (fun c => 40 * Z.of_nat (length (messages c))) 0 empty_urls (mkScrollArea 0 0 100)).
  - simpl. lia.
  - apply reach_init.
Defined.
