(* ===== verification/SessionIdentity.v ===== *)
(** * The user id the chat requests carry

    The chat screen passes its [userId] prop to [api.chat] and
    [api.upload] ([src/src/components/ChatScreen.tsx], lines 81 and 85)
    unchecked, and [handleGuest] of [AuthScreen.tsx] reports
    [res.user_id] as the session id whatever the response holds.  A
    session whose id is [undefined] (a guest response without a
    [user_id]) therefore sends two different things: [JSON.stringify]
    leaves the [user_id] member out of every chat request, while
    [FormData.append] stringifies it to ['undefined'] in every upload. *)

From S2P Require Import Prelude Js Api Media ChatScreen AuthScreen App Json.

Section Requests.
Context (base : string) (userId : jsval) (isGuest : bool).

(** Every request a chat step issues is a chat or an upload of this
    session. *)
Lemma chat_step_requests s e :
  Forall (fun r => (exists q, r = chat base userId q isGuest) \/
                   (exists f, r = upload base userId f isGuest))
         (requests (chat_step base userId isGuest s e).2).
Proof.
  destruct e; simpl; unfold handleSend, on_upload_settled, send_text_or_ack, on_chat_settled;
    repeat (case_match; simpl);
    repeat first [apply List.Forall_nil | apply List.Forall_cons];
    first [left; by eexists | right; by eexists].
Qed.
End Requests.

(** C34. A session without an id is anonymous to the chat endpoint and
    the user ['undefined'] to the upload endpoint: every chat request the
    chat screen issues for [userId = undefined] carries a body that
    parses to [{query, is_guest}] with no [user_id], and every upload
    carries the form field [user_id=undefined]. *)
Theorem undefined_user_requests base isGuest s e :
  Forall (fun r =>
      (exists q t, r = chat base JUndefined q isGuest /\ body_text r = Some t /\
                   JSON_parse t = Some (JObject [("query", JString q); ("is_guest", JBool isGuest)])) \/
      (exists f, r = upload base JUndefined f isGuest /\
                 option_map req_body (promise_request r) =
                   Some (FormBody [("user_id", FormString "undefined");
                                        ("file", FormBlob f);
                                        ("is_guest", FormString (js_String (JBool isGuest)))])))
    (requests (chat_step base JUndefined isGuest s e).2).
Proof.
  eapply Forall_impl; [apply chat_step_requests|].
  intros r [[q ->]|[f ->]]; [left|right; by exists f].
  destruct (body_text_json_body "POST" (base +:+ "/api/chat") json_headers
              (JObject [("user_id", JUndefined); ("query", JString q); ("is_guest", JBool isGuest)])
              res_json eq_refl) as (t & Ht & Hp). by exists q, t.
Qed.

(** The path there: a guest login whose response has no [user_id]
    opens a guest session with id [undefined], and the first message the
    user sends reaches the server as [{"query":"hi","is_guest":true}],
    with nothing identifying the session. *)
Example guest_without_id_sends_anonymous_chat :
  let w := run (app_step "http://localhost:5000") (app_init 0 ∅)
             [AuthUI ClickGuest; Settle 1 (Some (JObject [])) 5;
              ChatUI (InputChange "hi"%string); ChatUI (ClickSend 9)] in
  app_session w.1 = Some (mkSession JUndefined true) /\
  omap (fun gr => body_text gr.2 ≫= JSON_parse) w.2 =
    [JObject [("query"%string, JString "hi"); ("is_guest"%string, JBool true)]].
Proof. vm_compute. split; reflexivity. Qed.
