(* ===== verification/View.v ===== *)
(** * What the screens render

    The JSX of [src/src/components/ChatMessage.tsx],
    [src/src/components/ChatScreen.tsx] and
    [src/src/components/AuthScreen.tsx] as a function of the component
    state: the texts, the conditional children ([cond && <el/>] is a
    child present exactly when [cond] is truthy) and the [disabled]
    attributes of the controls.  Styling classes are kept only where
    they carry meaning (the side a message is drawn on).  The theorems
    relate what is shown to the state machines of [ChatScreen.v] and
    [AuthScreen.v]: the controls are disabled exactly when the machines
    ignore them, the busy indicators follow the outstanding request,
    every message shows a time, and an error is never shown while a
    request is in flight. *)

From S2P Require Import Prelude Js Api Media ChatScreen AuthScreen.

Local Open Scope string_scope.

(** ** ChatMessage *)

Inductive avatar := UserIcon | BotIcon.

Record message_view := mkMessageView {
  mv_reverse : bool;                              (** ['flex-row-reverse'] *)
  mv_avatar : avatar;
  mv_media : option (list message_media_view);    (** [{media && <div>...</div>}] *)
  mv_content : jsval;
  mv_time : option jsval                          (** [{timestamp && <p>...</p>}] *)
}.

Definition ChatMessage (content : jsval) (isUser : bool) (timestamp : jsval)
    (media : option Media) : message_view :=
  mkMessageView isUser (if isUser then UserIcon else BotIcon)
    (option_map ChatMessage_media media) content
    (if truthy timestamp then Some timestamp else None).

(** ** ChatScreen *)

Record chat_view := mkChatView {
  cv_subtitle : string;
  cv_messages : list message_view;
  cv_thinking : bool;               (** [{loading && ... Thinking...}] *)
  cv_preview : option File;         (** [{file && <MediaPreview/>}] *)
  cv_attach_disabled : bool;
  cv_input_value : string;
  cv_input_disabled : bool;
  cv_send_disabled : bool
}.

Definition ChatScreen_view (isGuest : bool) (s : chat_state) : chat_view :=
  mkChatView (if isGuest then "Guest Session" else "Personalized Support")
    (map (fun m => ChatMessage (content m) (isUser m) (timestamp m) (media m)) (messages s))
    (loading s) (file s) (loading s) (input s) (loading s)
    (loading s || (String.eqb (trim (input s)) "" && negb (bool_decide (is_Some (file s))))).

(** ** AuthScreen *)

Record auth_view := mkAuthView {
  av_name : string;
  av_email : string;
  av_password : string;
  av_login_label : string;
  av_login_disabled : bool;
  av_register_label : string;
  av_register_disabled : bool;
  av_guest_disabled : bool;
  av_error : option jsval           (** [{error && <p>{error}</p>}] *)
}.

Definition AuthScreen_view (s : auth_state) : auth_view :=
  mkAuthView (name s) (email s) (password s)
    (if auth_loading s then "Signing in..." else "Sign In")
    (auth_loading s || String.eqb (email s) "" || String.eqb (password s) "")
    (if auth_loading s then "Creating account..." else "Create Account")
    (auth_loading s || String.eqb (email s) "" || String.eqb (password s) "")
    (auth_loading s)
    (if truthy (error s) then Some (error s) else None).

Local Close Scope string_scope.

(** ** Every message has a time *)

Definition timed (m : Message) : Prop := truthy (timestamp m) = true.

Lemma iso_truthy now : truthy (JString (toISOString now)) = true.
Proof. apply truthy_JString, toISOString_nonempty. Qed.

Lemma user_message_timed now inp f u : timed (user_message now inp f u).1.
Proof.
  unfold user_message, timed. destruct f as [fl|]; [destruct (createObjectURL u fl)|];
    apply iso_truthy.
Qed.

Lemma bot_reply_timed now res m : bot_reply now res = Some m -> timed m.
Proof.
  unfold bot_reply, timed. intros H.
  destruct (get_field res "response"%string); simpl in H; [|done].
  destruct (truthy _); [|destruct (get_field res "error"%string)]; simpl in H; try done;
  destruct (get_field res "timestamp"%string) as [ts|]; simpl in H; simplify_eq; simpl;
  unfold js_or; destruct (truthy ts) eqn:Ht; rewrite ?Ht; try done; apply iso_truthy.
Qed.

#[local] Hint Resolve user_message_timed iso_truthy : ui.

(** What a step appends to the conversation. *)
Definition appends_timed (s s' : chat_state) : Prop :=
  exists extra, messages s' = messages s ++ extra /\ Forall timed extra.

Lemma appends_none s s' : messages s' = messages s -> appends_timed s s'.
Proof. intros H. exists []. by rewrite H, app_nil_r. Qed.

Lemma appends_one s s' m : messages s' = messages s ++ [m] -> timed m -> appends_timed s s'.
Proof. intros H Hm. exists [m]. auto. Qed.

Section Timed.
Context (base : string) (userId : jsval) (isGuest : bool).

Lemma handleSend_timed now s : appends_timed s (handleSend base userId isGuest now s).1.
Proof.
  unfold handleSend. destruct (can_send _ _); simpl; [|by apply appends_none].
  pose proof (user_message_timed now (input s) (file s) (urls s)) as Hu.
  destruct (user_message _ _ _ _) as [um u']. simpl in Hu.
  destruct (file s); [by eapply appends_one|].
  unfold send_text_or_ack. case_ifs; by eapply appends_one.
Qed.

Lemma chat_step_timed s e : appends_timed s (chat_step base userId isGuest s e).1.
Proof.
  destruct e as [v|fs| |now|key shift now| |r now|r now]; simpl.
  - case_ifs; by apply appends_none.
  - unfold handleFileChange. repeat case_match; by apply appends_none.
  - case_match; by apply appends_none.
  - case_ifs; [by apply appends_none|apply handleSend_timed].
  - case_ifs; [by apply appends_none|apply handleSend_timed|by apply appends_none].
  - by apply appends_none.
  - repeat case_match; try by apply appends_none.
    unfold on_upload_settled, send_text_or_ack.
    repeat case_match; first [by apply appends_none | eapply appends_one; [done|apply iso_truthy]].
  - repeat case_match; try by apply appends_none.
    unfold on_chat_settled. destruct (r ≫= bot_reply now) as [m|] eqn:Hm;
      [|eapply appends_one; [done|apply iso_truthy]].
    destruct r as [res|]; simpl in Hm; [|done].
    eapply appends_one; [done|]. by eapply bot_reply_timed.
Qed.

Lemma chat_reachable_timed t u s :
  reachable (chat_step base userId isGuest) (chat_init t u) s -> Forall timed (messages s).
Proof.
  apply (reachable_ind_inv _ (fun s => Forall timed (messages s)));
    [constructor; [apply iso_truthy|constructor]|].
  intros s' e Hs. destruct (chat_step_timed s' e) as (extra & -> & Hx).
  by apply Forall_app.
Qed.
End Timed.

(** ** The controls and the machines *)

Lemma send_disabled_iff isGuest s :
  cv_send_disabled (ChatScreen_view isGuest s) = loading s || negb (can_send (input s) (file s)).
Proof.
  simpl. unfold can_send. f_equal.
  by destruct (String.eqb _ _), (bool_decide _).
Qed.

Lemma handleSend_messages base userId isGuest now s :
  can_send (input s) (file s) = true ->
  messages (handleSend base userId isGuest now s).1 =
    messages s ++ [(user_message now (input s) (file s) (urls s)).1].
Proof.
  intros Hc. unfold handleSend. rewrite Hc. simpl.
  destruct (user_message _ _ _ _) as [um u']. simpl.
  destruct (file s); [done|]. unfold send_text_or_ack. by case_ifs.
Qed.

(** An error is cleared when a request starts and set only when it
    ends. *)
Definition error_cleared (s : auth_state) : Prop :=
  auth_loading s = true -> error s = JString "".

Lemma error_cleared_step base s e : error_cleared s -> error_cleared (auth_step base s e).1.
Proof.
  unfold error_cleared. intros H.
  destruct e; simpl; repeat case_match;
    unfold on_credentials_settled, on_guest_settled in *; repeat case_match; simpl;
    intros Hl; first [done | by apply H | discriminate Hl].
Qed.

Lemma auth_reachable_error_cleared base s :
  reachable (auth_step base) auth_init s -> error_cleared s.
Proof.
  apply reachable_ind_inv; [done|]. intros s' e. apply error_cleared_step.
Qed.

(** ** Properties *)

(** C29. The chat screen shows its state truthfully: in every reachable
    state the "Thinking..." indicator is shown exactly while a request
    is outstanding; when the Send button is disabled a click on it does
    nothing, and when it is enabled a click appends the user message;
    and every message is rendered with its time label. *)
Theorem chat_view_consistent base userId isGuest t u s now :
  reachable (chat_step base userId isGuest) (chat_init t u) s ->
  cv_thinking (ChatScreen_view isGuest s) = bool_decide (is_Some (pending_op s)) /\
  (cv_send_disabled (ChatScreen_view isGuest s) = true ->
     chat_step base userId isGuest s (ClickSend now) = (s, [])) /\
  (cv_send_disabled (ChatScreen_view isGuest s) = false ->
     messages (chat_step base userId isGuest s (ClickSend now)).1 =
       messages s ++ [(user_message now (input s) (file s) (urls s)).1]) /\
  Forall (fun v => is_Some (mv_time v)) (cv_messages (ChatScreen_view isGuest s)).
Proof.
  intros Hr. destruct (chat_reachable_inv base userId isGuest t u s Hr) as [Hl _].
  rewrite send_disabled_iff. split_and!.
  - exact Hl.
  - simpl. by intros ->.
  - intros Hd. apply orb_false_iff in Hd as [Hl' Hc]. apply negb_false_iff in Hc.
    simpl. rewrite Hl', Hc. simpl. by apply handleSend_messages.
  - simpl. apply Forall_fmap. eapply Forall_impl; [exact (chat_reachable_timed _ _ _ _ _ _ Hr)|].
    intros m Hm. unfold timed in Hm. simpl. rewrite Hm. by eexists.
Qed.

(** C36. The sign-in form shows its state truthfully: in every reachable
    state an error is displayed only when no request is outstanding
    (starting a request clears it), and while a request is outstanding
    the buttons read "Signing in..." and "Creating account..." and all
    three are disabled. *)
Theorem auth_view_consistent base s :
  reachable (auth_step base) auth_init s ->
  (is_Some (av_error (AuthScreen_view s)) -> auth_pending_op s = None) /\
  (is_Some (auth_pending_op s) ->
     av_login_label (AuthScreen_view s) = "Signing in..."%string /\
     av_register_label (AuthScreen_view s) = "Creating account..."%string /\
     av_login_disabled (AuthScreen_view s) = true /\
     av_register_disabled (AuthScreen_view s) = true /\
     av_guest_disabled (AuthScreen_view s) = true).
Proof.
  intros Hr. pose proof (auth_reachable_inv base s Hr) as Hi.
  pose proof (auth_reachable_error_cleared base s Hr) as He. split.
  - intros Hs. apply auth_inv_pending_none; [done|].
    destruct (auth_loading s) eqn:Hl; [|done]. simpl in Hs. rewrite He in Hs; [|done].
    by destruct Hs.
  - intros Hp. unfold auth_inv in Hi. rewrite bool_decide_eq_true_2 in Hi; [|done].
    simpl. by rewrite Hi.
Qed.

(** ** The properties at concrete inputs *)

#[local] Abbreviation demo_chat :=
  (run (chat_step "http://localhost:5000" (JString "u1") false) (chat_init 0 empty_urls)
     [InputChange "hi"%string; ClickSend 1000]).1.

Lemma chat_view_consistent_witness :
  cv_thinking (ChatScreen_view false demo_chat) = bool_decide (is_Some (pending_op demo_chat)) /\
  (cv_send_disabled (ChatScreen_view false demo_chat) = true ->
     chat_step "http://localhost:5000" (JString "u1") false demo_chat (ClickSend 2000) =
       (demo_chat, [])) /\
  (cv_send_disabled (ChatScreen_view false demo_chat) = false ->
     messages (chat_step "http://localhost:5000" (JString "u1") false demo_chat (ClickSend 2000)).1 =
       messages demo_chat ++
         [(user_message 2000 (input demo_chat) (file demo_chat) (urls demo_chat)).1]) /\
  Forall (fun v => is_Some (mv_time v)) (cv_messages (ChatScreen_view false demo_chat)).
Proof. apply (chat_view_consistent _ _ _ 0 empty_urls). apply reachable_run. Defined.

#[local] Abbreviation demo_auth :=
  (run (auth_step "http://localhost:5000") auth_init
     [EmailChange "a@b.c"%string; PasswordChange "pw"%string; ClickLogin]).1.

Lemma auth_view_consistent_witness :
  (is_Some (av_error (AuthScreen_view demo_auth)) -> auth_pending_op demo_auth = None) /\
  (is_Some (auth_pending_op demo_auth) ->
     av_login_label (AuthScreen_view demo_auth) = "Signing in..."%string /\
     av_register_label (AuthScreen_view demo_auth) = "Creating account..."%string /\
     av_login_disabled (AuthScreen_view demo_auth) = true /\
     av_register_disabled (AuthScreen_view demo_auth) = true /\
     av_guest_disabled (AuthScreen_view demo_auth) = true).
Proof. apply (auth_view_consistent "http://localhost:5000"). apply reachable_run. Defined.
