(* ===== verification/ChatContract.v ===== *)
(** * What the chat screen promises about its input paths and its messages

    Two properties of [src/src/components/ChatScreen.tsx] that are stated
    against the whole event machine [chat_step] of [ChatScreen.v]:

    - the two ways of sending, the Send button ([onClick={handleSend}]
      with [disabled={loading || (!input.trim() && !file)}]) and the
      Enter key ([handleKeyPress] on an input that is [disabled] while
      [loading]), are the same operation: the button's [disabled]
      condition is exactly the early return of [handleSend], so pressing
      Enter does what clicking the button does, in every state
      ([enter_is_send]);
    - every message the screen holds is well formed as [ChatMessage]
      renders it ([message_wf]): its content and its timestamp are truthy,
      so no bubble is empty and every bubble has its time label, a user
      message's content is a string, and only user messages carry media
      ([chat_messages_wf]).  The assistant's content is whatever the
      server sent in [response] when that is truthy, so it need not be
      the [string] the [Message] interface declares
      ([chat_reply_content_not_string]). *)

From S2P Require Import Prelude Js Api Media ChatScreen.

Local Open Scope string_scope.

(** ** Well-formed messages *)

Definition message_wf (m : Message) : Prop :=
  truthy (content m) = true /\ truthy (timestamp m) = true /\
  (isUser m = true -> exists t, content m = JString t) /\
  (is_Some (media m) -> isUser m = true).

Lemma truthy_or a b : truthy b = true -> truthy (a || b)%js = true.
Proof. unfold js_or. by destruct (truthy a) eqn:E. Qed.

Lemma truthy_toISOString now : truthy (JString (toISOString now)) = true.
Proof. apply truthy_JString, toISOString_nonempty. Qed.

#[local] Hint Resolve truthy_or truthy_toISOString : ui.

Lemma bot_message_wf now c ts :
  truthy c = true -> truthy ts = true -> message_wf (bot_message now c ts).
Proof. intros Hc Hts. by split_and!; simpl; try done. Qed.

Lemma error_message_wf now : message_wf (error_message now).
Proof. apply bot_message_wf; [done|apply truthy_toISOString]. Qed.

Lemma ack_message_wf now : message_wf (ack_message now).
Proof. apply bot_message_wf; [done|apply truthy_toISOString]. Qed.

Lemma bot_reply_wf now res m : bot_reply now res = Some m -> message_wf m.
Proof.
  unfold bot_reply. intros H.
  destruct (get_field res "response") as [resp|]; [|done]; simpl in H.
  destruct (truthy resp) eqn:Hr; simpl in H.
  - destruct (get_field res "timestamp"); simplify_eq/=.
    apply bot_message_wf; [done|apply truthy_or, truthy_toISOString].
  - destruct (get_field res "error"); [|done]; simpl in H.
    destruct (get_field res "timestamp"); simplify_eq/=.
    apply bot_message_wf; apply truthy_or; [done|apply truthy_toISOString].
Qed.

(** The user message of a send that passed the guard: its text is the
    input, which is not empty, or ["Uploaded: " + file.name]. *)
Lemma user_message_wf now inp f u :
  can_send inp f = true -> message_wf (user_message now inp f u).1.
Proof.
  unfold can_send, user_message. intros Hc.
  destruct f as [fl|]; [destruct (createObjectURL u fl)|]; simpl;
    (split_and!; [|apply truthy_toISOString|by eexists|done]).
  - destruct (String.eqb inp "") eqn:E; cbn; [done|by rewrite E].
  - destruct (String.eqb inp "") eqn:E; cbn; [|by rewrite E].
    apply String.eqb_eq in E as ->. vm_compute in Hc. discriminate.
Qed.

#[local] Hint Resolve bot_message_wf error_message_wf ack_message_wf : ui.

(** ** Properties of messages the chat screen preserves

    A property [P] of messages holds of every message of the
    conversation when it holds of the initial messages, of the user
    message of every send that passed the guard, of the error and
    acknowledgement messages, and of every reply built from a response
    that the environment is assumed to send ([R]). *)
Section Preservation.
Context (base : string) (userId : jsval) (isGuest : bool).
Variable P : Message -> Prop.
Variable R : jsval -> Prop.
Hypothesis P_user : forall now inp f u, can_send inp f = true -> P (user_message now inp f u).1.
Hypothesis P_error : forall now, P (error_message now).
Hypothesis P_ack : forall now, P (ack_message now).
Hypothesis P_reply : forall now v m, R v -> bot_reply now v = Some m -> P m.

(** Every chat response the event delivers is one [R] allows. *)
Definition replies_ok (s : chat_state) (e : chat_event) : Prop :=
  forall v now, e = ChatSettled (Some v) now -> pending_op s = Some AwaitChat -> R v.

Lemma Forall_snoc ms m : Forall P ms -> P m -> Forall P (ms ++ [m]).
Proof. intros. apply Forall_app; split; [done|by constructor]. Qed.

Lemma send_text_or_ack_pres now s ci cf :
  Forall P (messages s) -> Forall P (messages (send_text_or_ack base userId isGuest now s ci cf).1).
Proof. intros H. unfold send_text_or_ack. repeat case_match; simpl; auto using Forall_snoc. Qed.

Lemma handleSend_pres now s :
  Forall P (messages s) -> Forall P (messages (handleSend base userId isGuest now s).1).
Proof.
  intros H. unfold handleSend.
  destruct (can_send (input s) (file s)) eqn:Hc; simpl; [|done].
  pose proof (P_user now (input s) (file s) (urls s) Hc) as Hu.
  destruct (user_message now (input s) (file s) (urls s)) as [um u'].
  destruct (file s); simpl; [by apply Forall_snoc|].
  apply send_text_or_ack_pres. simpl. by apply Forall_snoc.
Qed.

Lemma chat_step_pres s e :
  replies_ok s e -> Forall P (messages s) -> Forall P (messages (chat_step base userId isGuest s e).1).
Proof.
  intros Hok H. destruct e as [v|fs| |now|key shift now| |r now|r now]; simpl.
  - by destruct (loading s).
  - unfold handleFileChange. by repeat case_match.
  - by case_match.
  - destruct (loading s || negb _); [done|]. by apply handleSend_pres.
  - destruct (loading s); [done|]. case_match; [by apply handleSend_pres|done].
  - done.
  - unfold on_upload_settled. repeat case_match; simpl; auto using Forall_snoc, send_text_or_ack_pres.
  - destruct (pending_op s) as [[]|] eqn:Hp; try done. unfold on_chat_settled.
    destruct r as [v|]; simpl; [|by apply Forall_snoc].
    destruct (bot_reply now v) eqn:Hb; simpl; apply Forall_snoc; try done.
    apply (P_reply now v); [by apply (Hok v now)|done].
Qed.
End Preservation.

Lemma chat_step_wf base userId isGuest s e :
  Forall message_wf (messages s) ->
  Forall message_wf (messages (chat_step base userId isGuest s e).1).
Proof.
  apply (chat_step_pres _ _ _ _ (fun _ => True));
    eauto using user_message_wf, error_message_wf, ack_message_wf, bot_reply_wf.
  by intros ????.
Qed.

(** ** Properties *)

(** C31. Equivalence of the two ways of sending: in every state, the
    Enter key without Shift does exactly what a click of the Send button
    does (the button's [disabled] condition and the early return of
    [handleSend] are the same test), and every other key, Shift+Enter
    included, changes nothing and sends nothing. *)
Theorem enter_is_send base userId isGuest s now key shift :
  chat_step base userId isGuest s (KeyDown "Enter" false now) =
    chat_step base userId isGuest s (ClickSend now) /\
  ((key, shift) <> ("Enter", false) ->
   chat_step base userId isGuest s (KeyDown key shift now) = (s, [])).
Proof.
  split.
  - simpl. destruct (loading s); [done|]. simpl.
    unfold handleSend. by destruct (can_send (input s) (file s)).
  - intros Hk. simpl. destruct (loading s); [done|].
    destruct (String.eqb key "Enter") eqn:E; [|done].
    apply String.eqb_eq in E as ->. by destruct shift.
Qed.

(** C35. Well-formedness of the conversation: in every state reachable
    from mount, every message has a truthy content and a truthy
    timestamp (no bubble is empty and every bubble shows its time), a
    user message's content is a string, and only user messages carry
    media. *)
Theorem chat_messages_wf base userId isGuest t0 u s :
  reachable (chat_step base userId isGuest) (chat_init t0 u) s ->
  Forall message_wf (messages s).
Proof.
  revert s. apply (reachable_ind_inv _ (fun s => Forall message_wf (messages s))).
  - apply List.Forall_cons; [|apply List.Forall_nil].
    by split_and!; simpl; try apply truthy_toISOString.
  - intros s' e. apply chat_step_wf.
Qed.

(** The content of an assistant message is the server's [response]
    whenever that is truthy, of whatever type: a number arrives as a
    number, not as the [string] of the [Message] interface. *)
Example chat_reply_content_not_string :
  exists m, bot_reply 1000 (JObject [("response", JNumber (mkNumber 42 0)); ("timestamp", JString "t")]) = Some m /\
            content m = JNumber (mkNumber 42 0).
Proof. eexists. split; reflexivity. Qed.

(** ** Witnesses *)

Lemma chat_messages_wf_witness :
  Forall message_wf (messages (chat_init 0 empty_urls)).
Proof. apply (chat_messages_wf "" JUndefined false 0 empty_urls). apply reach_init. Defined.
