(* ===== verification/Liveness.v ===== *)
(** * The page always comes back to rest

    A liveness property of the page of [src/src/App.tsx] with its two
    screens: whatever the server answers, once the responses to the
    requests in flight are delivered the page has nothing outstanding.
    At most two responses are needed: the AuthScreen awaits one request
    at a time, and a send of the ChatScreen awaits an upload and then a
    chat request.

    [app_rounds] counts the responses the mounted screen still awaits
    (2 while a send awaits its upload, 1 while it awaits its chat
    request or the AuthScreen awaits its request, 0 at rest); it is a
    variant that every settlement delivered to the mounted instance
    decreases ([settle_decreases]).  The proof needs, besides the page
    invariant [app_inv] of [App.v], the invariants of the two screens
    on the mounted instance ([screen_inv]), which every step of the page
    preserves. *)

From S2P Require Import Prelude Js Api Media ChatScreen AuthScreen App.

(** ** Rest and the responses awaited *)

(** The mounted screen is [loading]. *)
Definition app_busy (w : world) : bool :=
  match view w with
  | AuthView a => auth_loading a
  | ChatView c => loading c
  end.

Definition chat_rounds (c : chat_state) : nat :=
  match pending_op c with
  | Some (AwaitUpload _ _) => 2
  | Some AwaitChat => 1
  | None => 0
  end.

Definition app_rounds (w : world) : nat :=
  match view w with
  | AuthView a => if auth_loading a then 1 else 0
  | ChatView c => chat_rounds c
  end.

Definition screen_inv (v : screen) : Prop :=
  match v with
  | AuthView a => auth_inv a
  | ChatView c => chat_inv c
  end.

(** The page delivers, while the mounted screen is loading, the next
    answer of [rs] to the request of the mounted instance. *)
Fixpoint settle_all (base : string) (rs : list (option jsval * Z)) (w : world) : world :=
  match rs with
  | [] => w
  | (r, now) :: rs' =>
      if app_busy w then settle_all base rs' (app_step base w (Settle (gen w) r now)).1 else w
  end.

(** ** The screens' invariants on the mounted instance *)

Lemma auth_init_inv : auth_inv auth_init.
Proof. done. Qed.

Lemma is_logout_false os :
  existsb (fun o => match o with CallLogout => true | _ => false end) os = false ->
  forall now w c, (apply_chat_outs now w c os).1 = set_view w (ChatView c).
Proof. intros H now w c. unfold apply_chat_outs. by rewrite H. Qed.

(** Applying the outputs of an AuthScreen handler leaves the view as it
    was or mounts a fresh ChatScreen. *)
Lemma apply_auth_outs_view now w os :
  view (apply_auth_outs now w os).1 = view w \/
  exists u, view (apply_auth_outs now w os).1 = ChatView (chat_init now u).
Proof.
  unfold apply_auth_outs.
  assert (forall acc, (view acc.1 = view w \/ exists u, view acc.1 = ChatView (chat_init now u)) ->
            view (fold_left (apply_auth_out now) os acc).1 = view w \/
            exists u, view (fold_left (apply_auth_out now) os acc).1 = ChatView (chat_init now u))
    as H; [|by apply H; left].
  induction os as [|o os IH]; intros [w' rs] Hacc; simpl; [done|].
  apply IH. destruct o; simpl; [done|done|right; by eexists].
Qed.

Lemma apply_auth_outs_screen_inv now w os :
  screen_inv (view w) -> screen_inv (view (apply_auth_outs now w os).1).
Proof.
  intros H. destruct (apply_auth_outs_view now w os) as [->|[u ->]]; [done|apply chat_init_inv].
Qed.

Lemma mount_auth_screen_inv now w : screen_inv (view (mount_auth now w).1).
Proof. unfold mount_auth. by apply apply_auth_outs_screen_inv. Qed.

Lemma apply_chat_outs_screen_inv now w c os :
  chat_inv c -> screen_inv (view (apply_chat_outs now w c os).1).
Proof.
  intros Hc. unfold apply_chat_outs.
  destruct (existsb _ os); [|done]. unfold handleLogout.
  destruct (mount_auth _ _) as [w2 rs] eqn:E. simpl.
  match type of E with mount_auth ?n ?x = _ => pose proof (mount_auth_screen_inv n x) as H end.
  by rewrite E in H.
Qed.

Section Page.
Context (base : string).

Lemma app_step_screen_inv w e :
  screen_inv (view w) -> screen_inv (view (app_step base w e).1).
Proof.
  intros Hi. destruct e as [ae|ce|g r now|now]; unfold app_step.
  - destruct (view w) as [a|c] eqn:Hv; [|simpl; by rewrite Hv]. case_match; [|simpl; by rewrite Hv].
    destruct (auth_step base a ae) as [a' os] eqn:Ea. apply apply_auth_outs_screen_inv. simpl.
    replace a' with (auth_step base a ae).1 by by rewrite Ea. by apply auth_inv_step.
  - destruct (view w) as [a|c] eqn:Hv; [simpl; by rewrite Hv|]. destruct (app_session w) as [sess|]; [|simpl; by rewrite Hv].
    case_match; [|simpl; by rewrite Hv]. destruct (chat_step _ _ _ c ce) as [c' os] eqn:Ec.
    apply apply_chat_outs_screen_inv.
    replace c' with (chat_step base (sess_userId sess) (sess_isGuest sess) c ce).1 by by rewrite Ec.
    by apply chat_inv_step.
  - destruct (view w) as [a|c] eqn:Hv; [|destruct (app_session w) as [sess|]; [|simpl; by rewrite Hv]];
      (case_match; [|simpl; by rewrite Hv]).
    + destruct (auth_step base a (AuthSettled r)) as [a' os] eqn:Ea.
      apply apply_auth_outs_screen_inv. simpl.
      replace a' with (auth_step base a (AuthSettled r)).1 by by rewrite Ea. by apply auth_inv_step.
    + destruct (pending_op c) as [p|]; [|simpl; by rewrite Hv].
      destruct (chat_step _ _ _ c _) as [c' os] eqn:Ec. apply apply_chat_outs_screen_inv.
      match type of Ec with chat_step ?b ?u ?g c ?e = _ =>
        replace c' with (chat_step b u g c e).1 by by rewrite Ec end.
      by apply chat_inv_step.
  - apply mount_auth_screen_inv.
Qed.

Lemma app_reachable_screen_inv now st w :
  reachable (app_step base) (app_init now st) w -> app_inv w /\ screen_inv (view w).
Proof.
  intros Hr. split; [by eapply app_reachable_inv|]. revert w Hr.
  apply reachable_ind_inv; [apply mount_auth_screen_inv|]. intros ??. apply app_step_screen_inv.
Qed.

(** ** The variant *)

Lemma chat_settle_rounds userId isGuest c p r now :
  pending_op c = Some p ->
  existsb (fun o => match o with CallLogout => true | _ => false end)
    (chat_step base userId isGuest c (settlement p r now)).2 = false /\
  chat_rounds (chat_step base userId isGuest c (settlement p r now)).1 < chat_rounds c.
Proof.
  intros Hp. unfold chat_rounds. destruct p; simpl; rewrite Hp;
    unfold on_upload_settled, on_chat_settled, send_text_or_ack;
    repeat case_match; simpl; split; try done; lia.
Qed.

Lemma busy_rounds w : screen_inv (view w) -> app_busy w = true -> 0 < app_rounds w.
Proof.
  unfold screen_inv, app_busy, app_rounds, chat_rounds.
  destruct (view w) as [a|c]; intros Hi Hb; [rewrite Hb; lia|].
  destruct Hi as [Hl _]. rewrite Hb in Hl.
  destruct (pending_op c) as [[]|]; [lia|lia|done].
Qed.

(** A response delivered to the mounted instance of a loading screen
    brings it one response closer to rest. *)
Lemma settle_decreases w r now :
  app_inv w -> screen_inv (view w) -> app_busy w = true ->
  app_rounds (app_step base w (Settle (gen w) r now)).1 < app_rounds w.
Proof.
  intros Ha Hs Hb. pose proof (busy_rounds w Hs Hb) as H0.
  unfold app_step. rewrite Nat.eqb_refl. unfold app_inv, app_busy, app_rounds, screen_inv in *.
  destruct (view w) as [a|c] eqn:Hv.
  - destruct (auth_pending_op a) as [p|] eqn:Hp;
      [|unfold auth_inv in Hs; rewrite Hp in Hs; by rewrite Hs in Hb].
    pose proof (auth_settled_idle base r a p Hp) as [Hl _].
    destruct (auth_step base a (AuthSettled r)) as [a' os]. simpl in Hl.
    destruct (apply_auth_outs_view now (set_view w (AuthView a')) os) as [->|[u ->]];
      simpl; rewrite ?Hl, Hb; unfold chat_rounds; simpl; lia.
  - destruct (app_session w) as [sess|]; [|done].
    destruct (pending_op c) as [p|] eqn:Hp; [|unfold chat_rounds in H0; rewrite Hp in H0; lia].
    destruct (chat_settle_rounds (sess_userId sess) (sess_isGuest sess) c p r now Hp) as [Hno Hlt].
    destruct (chat_step _ _ _ c _) as [c' os]. simpl in Hno, Hlt.
    rewrite is_logout_false by done. simpl. lia.
Qed.

Lemma settle_all_rest rs w :
  app_inv w -> screen_inv (view w) -> app_rounds w <= length rs ->
  app_busy (settle_all base rs w) = false.
Proof.
  revert w. induction rs as [|[r now] rs IH]; intros w Ha Hs Hn; cbn [settle_all length] in *.
  - destruct (app_busy w) eqn:Hb; [|done]. pose proof (busy_rounds w Hs Hb). simpl in Hn. lia.
  - destruct (app_busy w) eqn:Hb; [|done].
    pose proof (settle_decreases w r now Ha Hs Hb). simpl in Hn.
    apply IH; [exact (app_inv_step base w _ Ha)|by apply app_step_screen_inv|lia].
Qed.

Lemma app_rounds_le_2 w : app_rounds w <= 2.
Proof.
  unfold app_rounds, chat_rounds. destruct (view w); [case_match|repeat case_match]; lia.
Qed.
End Page.

(** ** Property *)

(** C24. Liveness of the page: from every state reachable from a page
    load, whatever [localStorage] held and whatever the server answers
    (a response or a rejection for each request), delivering the
    answers to the requests of the mounted screen, at most two of them,
    leaves the page with no screen loading. *)
Theorem app_comes_to_rest base now0 st w rs :
  reachable (app_step base) (app_init now0 st) w -> 2 <= length rs ->
  app_busy (settle_all base rs w) = false.
Proof.
  intros Hr Hn. destruct (app_reachable_screen_inv base now0 st w Hr) as [Ha Hs].
  apply settle_all_rest; [done|done|]. pose proof (app_rounds_le_2 w). lia.
Qed.

(** ** Witness *)

(** A guest login and a send with a staged file, answered by a server
    that accepts the guest and then fails twice. *)
#[local] Abbreviation busy_page :=
  (run (app_step "http://localhost:5000"%string) (app_init 0 ∅)
     [AuthUI ClickGuest; Settle 1 (Some (JObject [("user_id"%string, JString "g1")])) 5;
      ChatUI (InputChange "hello"%string);
      ChatUI (FileChange (Some [mkFile "a.png" "image/png" 1]));
      ChatUI (ClickSend 9)]).1.

Lemma app_comes_to_rest_witness :
  app_busy busy_page = true /\
  app_busy (settle_all "http://localhost:5000"%string [(Some (JObject []), 10%Z); (None, 11%Z)]
              busy_page) = false.
Proof.
  split; [vm_compute; reflexivity|].
  apply (app_comes_to_rest "http://localhost:5000"%string 0 ∅); [apply reachable_run|simpl; lia].
Defined.
