(* ===== verification/Conformance.v ===== *)
(** * What the response interfaces of [api.ts] buy the client

    The client trusts the TypeScript interfaces of its API
    ([AuthResponse], [ChatResponse], [UploadResponse], records of
    [Api.v], with the readers [AuthResponse_of], ... saying when a JSON
    value has them) without checking them.  This file shows that the trust
    is enough: if every response the server sends has the interface the
    pending request declares ([response_conforms]), then the state of the
    page has the types the components declare ([world_typed]): the
    session's [userId] is a string, so the id [String(userId)] persisted
    by the AuthScreen is that string, and every message of the
    conversation has a string [content] and a string [timestamp].  The
    counterexamples [App.app_missing_user_id_logs_in_as_undefined] and
    [ChatContract.chat_reply_content_not_string] show what a response
    without its interface does. *)

From S2P Require Import Prelude Js Api Media ChatScreen AuthScreen App ChatContract.

Local Open Scope string_scope.

(** ** The assumption and the conclusion *)

(** A settlement carries a response of the interface of the request
    the mounted screen awaits. *)
Definition response_conforms (w : world) (e : app_event) : Prop :=
  match e, view w with
  | Settle _ (Some v) _, AuthView _ => is_Some (AuthResponse_of v)
  | Settle _ (Some v) _, ChatView c =>
      match pending_op c with
      | Some AwaitChat => is_Some (ChatResponse_of v)
      | Some (AwaitUpload _ _) => is_Some (UploadResponse_of v)
      | None => True
      end
  | _, _ => True
  end.

Definition message_typed (m : Message) : Prop :=
  is_string (content m) = true /\ is_string (timestamp m) = true.

Definition world_typed (w : world) : Prop :=
  (forall sess, app_session w = Some sess -> is_string (sess_userId sess) = true) /\
  match view w with
  | ChatView c => Forall message_typed (messages c)
  | AuthView _ => True
  end.

(** An [onAuth] call with a string id. *)
Definition onAuth_typed (o : auth_out) : Prop :=
  match o with OnAuth uid _ => is_string uid = true | _ => True end.

(** ** Messages *)

Lemma as_optional_string a o : as_optional as_string a = Some o -> a = JUndefined \/ is_string a = true.
Proof. destruct a; simpl; intros H; try discriminate H; [by left|by right]. Qed.

Lemma is_string_or a b :
  a = JUndefined \/ is_string a = true -> is_string b = true -> is_string (a || b)%js = true.
Proof. unfold js_or. intros [->|Ha] Hb; [done|]. by case_match. Qed.

Lemma user_message_typed now inp f u : message_typed (user_message now inp f u).1.
Proof. unfold user_message. destruct f as [fl|]; [destruct (createObjectURL u fl)|]; done. Qed.

Lemma bot_reply_typed now v m :
  is_Some (ChatResponse_of v) -> bot_reply now v = Some m -> message_typed m.
Proof.
  intros [cr Hc] Hb. destruct (ChatResponse_of_members v cr Hc) as (fs & -> & Hr & Ht & He).
  unfold bot_reply in Hb. simpl in Hb. rewrite Hr, Ht in Hb.
  apply as_optional_string in He.
  destruct (truthy (JString (cr_response cr))); simplify_eq/=; split; simpl;
    auto using is_string_or.
Qed.

Lemma chat_step_typed base userId isGuest c e :
  replies_ok (fun v => is_Some (ChatResponse_of v)) c e ->
  Forall message_typed (messages c) ->
  Forall message_typed (messages (chat_step base userId isGuest c e).1).
Proof.
  apply chat_step_pres; eauto using user_message_typed, bot_reply_typed.
  all: intros; split; simpl; done.
Qed.

(** ** Sessions *)

Lemma AuthResponse_of_uid fs :
  is_Some (AuthResponse_of (JObject fs)) -> is_string (lookup_field fs "user_id") = true.
Proof.
  intros [ar Ha]. destruct (AuthResponse_of_user_id _ ar Ha) as (fs' & [= <-] & ->). done.
Qed.

Lemma on_credentials_typed r a :
  (forall v, r = Some v -> is_Some (AuthResponse_of v)) ->
  Forall onAuth_typed (on_credentials_settled r a).2.
Proof.
  intros H. unfold on_credentials_settled.
  destruct r as [[| | | | | |fs]|]; simpl;
    try (destruct (H _ eq_refl) as [? Hx]; simpl in Hx; discriminate Hx).
  - case_match; repeat constructor. by apply AuthResponse_of_uid, H.
  - constructor.
Qed.

Lemma on_guest_typed r a :
  (forall v, r = Some v -> is_Some (AuthResponse_of v)) ->
  Forall onAuth_typed (on_guest_settled r a).2.
Proof.
  intros H. unfold on_guest_settled.
  destruct r as [[| | | | | |fs]|]; simpl;
    try (destruct (H _ eq_refl) as [? Hx]; simpl in Hx; discriminate Hx).
  - repeat constructor. by apply AuthResponse_of_uid, H.
  - constructor.
Qed.

Lemma auth_step_typed base a ae :
  (forall v, ae = AuthSettled (Some v) -> is_Some (AuthResponse_of v)) ->
  Forall onAuth_typed (auth_step base a ae).2.
Proof.
  intros H. destruct ae as [v|v|v| | | |st|r]; simpl; try by repeat constructor.
  - case_match; repeat constructor.
  - case_match; repeat constructor.
  - case_match; repeat constructor.
  - unfold mount_effect. repeat case_match; repeat constructor.
  - assert (Hr : forall v, r = Some v -> is_Some (AuthResponse_of v)) by (intros v ->; by apply H).
    destruct (auth_pending_op a) as [[]|];
      auto using on_guest_typed, on_credentials_typed; constructor.
Qed.

Lemma apply_auth_outs_typed now w os :
  world_typed w -> Forall onAuth_typed os -> world_typed (apply_auth_outs now w os).1.
Proof.
  unfold apply_auth_outs. intros Hw Hos.
  assert (forall acc, world_typed acc.1 -> world_typed (fold_left (apply_auth_out now) os acc).1)
    as H; [|by apply H].
  induction Hos as [|o os Ho _ IH]; intros [w' rs] Hacc; simpl; [done|].
  apply IH. destruct o as [r|k v|uid g]; simpl; [done|done|].
  split; [by intros sess [= <-]|]. simpl. repeat constructor.
Qed.

Lemma mount_auth_typed now w : world_typed (mount_auth now w).1.
Proof.
  unfold mount_auth. apply apply_auth_outs_typed; [done|].
  unfold mount_effect. repeat case_match; repeat constructor.
Qed.

Lemma apply_chat_outs_typed now w c os :
  (forall sess, app_session w = Some sess -> is_string (sess_userId sess) = true) ->
  Forall message_typed (messages c) -> world_typed (apply_chat_outs now w c os).1.
Proof.
  intros Hs Hc. unfold apply_chat_outs. destruct (existsb _ os); [|by split].
  unfold handleLogout. destruct (mount_auth _ _) as [w2 rs] eqn:E. simpl.
  match type of E with mount_auth ?n ?x = _ => pose proof (mount_auth_typed n x) as H end.
  by rewrite E in H.
Qed.

(** ** The page *)

Section Page.
Context (base : string).

Lemma app_step_typed w e :
  response_conforms w e -> world_typed w -> world_typed (app_step base w e).1.
Proof.
  intros Hok Hw. pose proof Hw as [Hs Hm]. unfold response_conforms in Hok. unfold app_step.
  destruct (view w) as [a|c] eqn:Hv; [|destruct (app_session w) as [sess|] eqn:Hss];
    destruct e as [ae|ce|g r now|now]; try exact Hw; try apply mount_auth_typed.
  - destruct (auth_ui_event ae) eqn:Hu; [|exact Hw].
    destruct (auth_step base a ae) as [a' os] eqn:Ea.
    apply apply_auth_outs_typed; [split; [exact Hs|done]|].
    replace os with (auth_step base a ae).2 by by rewrite Ea.
    apply auth_step_typed. by intros v ->.
  - destruct (Nat.eqb g (gen w)); [|exact Hw].
    destruct (auth_step base a (AuthSettled r)) as [a' os] eqn:Ea.
    apply apply_auth_outs_typed; [split; [exact Hs|done]|].
    replace os with (auth_step base a (AuthSettled r)).2 by by rewrite Ea.
    apply auth_step_typed. by intros v [= ->].
  - destruct (chat_ui_event ce) eqn:Hu; [|exact Hw].
    destruct (chat_step _ _ _ c ce) as [c' os] eqn:Ec.
    apply apply_chat_outs_typed; [rewrite Hss; exact Hs|].
    match type of Ec with chat_step ?b ?u ?gg c ce = _ =>
      replace c' with (chat_step b u gg c ce).1 by by rewrite Ec end.
    apply chat_step_typed; [|done]. by intros v t ->.
  - destruct (Nat.eqb g (gen w)); [|exact Hw].
    destruct (pending_op c) as [p|] eqn:Hp; [|exact Hw].
    destruct (chat_step _ _ _ c _) as [c' os] eqn:Ec.
    apply apply_chat_outs_typed; [rewrite Hss; exact Hs|].
    match type of Ec with chat_step ?b ?u ?gg c ?ev = _ =>
      replace c' with (chat_step b u gg c ev).1 by by rewrite Ec end.
    apply chat_step_typed; [|done].
    intros v t He Hc. destruct p; simplify_eq/=. by rewrite ?Hp in Hok.
Qed.
End Page.

(** ** Property *)

(** C16. Type conformance: if every response the server sends has the
    interface its request declares in [api.ts] ([AuthResponse],
    [ChatResponse], [UploadResponse]), then in every state the page
    reaches, the session's [userId] is a string and every message of
    the conversation has a string [content] and a string [timestamp],
    as the [session] state of [App] and the [Message] interface of
    [ChatScreen] declare. *)
Theorem conforming_server_typed_state base now st w :
  reachable_if (app_step base) response_conforms (app_init now st) w -> world_typed w.
Proof.
  revert w. apply reachable_if_ind_inv; [apply mount_auth_typed|].
  intros w e Hok Hw. by apply app_step_typed.
Qed.

(** ** Witness *)

(** A guest login answered by a response with its interface. *)
#[local] Abbreviation guest_page :=
  (app_step "http://localhost:5000" (app_init 0 ∅) (AuthUI ClickGuest)).1.

Lemma conforming_server_typed_state_witness :
  world_typed (app_step "http://localhost:5000" guest_page
                 (Settle 1 (Some (JObject [("user_id", JString "g1")])) 5)).1.
Proof.
  apply (conforming_server_typed_state "http://localhost:5000" 0 ∅).
  apply reach_if_step; [apply reach_if_step; [apply reach_if_init|exact I]|].
  vm_compute. by eexists.
Defined.
