(* ===== verification/LegacyCopies.v ===== *)
(** * The sections of the legacy file that copy the current components

    [src/public/frontend_source.tsx] carries, besides its own API object,
    AuthScreen and root ([Legacy.v]), copies of [MediaPreview.tsx],
    [ChatMessage.tsx] and [ChatScreen.tsx].  Line for line they have the
    text of the current files (the ChatScreen section at an offset of
    388 lines, MediaPreview at 245, ChatMessage at 320), with one
    exception: the paperclip of the file label in the ChatMessage copy
    is stored as mis-decoded UTF-8, a glyph the model of the label
    ([Media.MsgFileLabel], which keeps the file name) does not represent.

    Each definition here models one function or element of those
    sections and is, as their text is, the model of the current one;
    every theorem of [ChatScreen.v], [Media.v], [View.v],
    [ChatContract.v] and [Document.v] is thereby a
    theorem of the legacy copy.  The response interfaces of its API
    section are those of [api.ts] too. *)

From S2P Require Import Prelude Js Api Media ChatScreen View Document.

(** ** MediaPreview *)

Definition legacy_MediaPreview_render := MediaPreview_render.
Definition legacy_MediaPreview_body := MediaPreview_body.

(** ** ChatMessage *)

Definition legacy_ChatMessage := ChatMessage.

(** ** ChatScreen *)

Definition legacy_Message := Message.
Definition legacy_chat_init := chat_init.
Definition legacy_getMediaType := getMediaType.
Definition legacy_user_message := user_message.
Definition legacy_handleSend := handleSend.
Definition legacy_send_text_or_ack := send_text_or_ack.
Definition legacy_on_upload_settled := on_upload_settled.
Definition legacy_on_chat_settled := on_chat_settled.
Definition legacy_handleFileChange := handleFileChange.
Definition legacy_ChatScreen_view := ChatScreen_view.
Definition legacy_page := page.
Definition legacy_scroll_effect := scroll_effect.
Definition legacy_messages_changed := messages_changed.
Definition legacy_doc_step := doc_step.

(** ** The interfaces of the API section *)

Definition legacy_AuthResponse := AuthResponse.
Definition legacy_ChatResponse := ChatResponse.
Definition legacy_UploadResponse := UploadResponse.
